(** * TechNewsHub front end: the pagination / filtering / refresh controller

    A shallow embedding of [frontend/src/App.js].  The React component [App]
    keeps eleven [useState] cells, builds the query of [GET /api/articles]
    from them, and reacts to user input, to the settling of its HTTP
    requests and to a polling interval.

    - JavaScript values that occur in the query object are modelled by
      [JS.Value]; the query object itself is an insertion-ordered list of
      key/value pairs, as [Object.keys] enumerates it.
    - [async] functions are terms of a small free monad [Async]: state
      updates, [console.error], [await] of an HTTP request, and exceptions
      with [try]/[catch].
    - The component is a transition system on [World]: hook state, requests
      in flight (with the continuation that awaits each one), the closure of
      the active interval and a log of what the component did to the
      outside.  One [step] is one synchronous block of JavaScript followed
      by React's commit phase, which runs the effects whose dependencies
      changed.

    Closures.  A callback or an effect reads the state of the render that
    created it, not the latest state; every function below that stands for
    one takes that render as its argument [env].  State updates queued in
    one synchronous block are applied together when the block ends (React 18
    batching), functional updates to the latest state.

    Numbers.  [page], [total] and the result of [parseInt] are JavaScript
    doubles holding integers; they are modelled by [Z], which is exact below
    2^53.

    After the unmount.  The cleanup of the interval effect runs and nothing
    is rendered or clicked any more, but the requests in flight still settle
    and the functions awaiting them run to their end, sending and logging
    as before; see [step].

    Not modelled: the passing of time (a tick is an event that can occur
    whenever an interval is active; its period is recorded when the interval
    is started), responses that do not have the shape of section 6 of the
    specification, and [formatDate] (lines 110-122), which reads the clock
    and divides in floating point. *)

From Stdlib Require Import ZArith List String Ascii Bool Lia.
From Stdlib Require Import Decimal DecimalNat DecimalString.
Import ListNotations.

Local Open Scope string_scope.
Local Open Scope Z_scope.

(* ================================================================== *)
(** ** JavaScript values and plain objects *)

Module JS.

(** A number is [NaN] or an integer (the only numbers this program makes). *)
Inductive Number : Type :=
| NaN
| Num (z : Z).

Inductive Value : Type :=
| VUndefined
| VNumber (n : Number)
| VString (s : string).

(** [v === undefined] *)
Definition is_undefined (v : Value) : bool :=
  match v with
  | VUndefined => true
  | _ => false
  end.

(** [s || undefined] for a string [s]: the empty string is the only falsy
    string. *)
Definition string_or_undefined (s : string) : Value :=
  match s with
  | EmptyString => VUndefined
  | String _ _ => VString s
  end.

(** An object literal, in property insertion order. *)
Definition Object : Type := list (string * Value).

Definition keys (o : Object) : list string := map fst o.

(** [o[k]]: [undefined] for a missing property. *)
Fixpoint get (o : Object) (k : string) : Value :=
  match o with
  | [] => VUndefined
  | (k', v) :: o' => if String.eqb k k' then v else get o' k
  end.

(** [k in o] *)
Definition has (o : Object) (k : string) : bool :=
  existsb (String.eqb k) (keys o).

(** [delete o[k]] *)
Fixpoint delete (o : Object) (k : string) : Object :=
  match o with
  | [] => []
  | (k', v) :: o' =>
      if String.eqb k k' then delete o' k else (k', v) :: delete o' k
  end.

(** *** [parseInt(s)] without a radix

    Leading white space is skipped, one sign is read, a [0x]/[0X] prefix
    selects radix 16, and the longest prefix of digits is the value; no
    digit at all gives [NaN].  (White space outside ASCII is not
    recognised by this model.) *)

Definition is_white (c : ascii) : bool :=
  let n := nat_of_ascii c in
  (Nat.eqb n 32 || (Nat.leb 9 n && Nat.leb n 13))%bool.

Fixpoint skip_white (s : string) : string :=
  match s with
  | String c s' => if is_white c then skip_white s' else s
  | EmptyString => s
  end.

Definition digit_value (c : ascii) : option Z :=
  let n := nat_of_ascii c in
  if (Nat.leb 48 n && Nat.leb n 57)%bool then Some (Z.of_nat (n - 48))
  else if (Nat.leb 97 n && Nat.leb n 122)%bool then Some (Z.of_nat (n - 87))
  else if (Nat.leb 65 n && Nat.leb n 90)%bool then Some (Z.of_nat (n - 55))
  else None.

(** The digits of radix [r] at the front of [s], most significant first;
    [acc] is [None] until a digit has been read. *)
Fixpoint digits (r : Z) (s : string) (acc : option Z) : option Z :=
  match s with
  | EmptyString => acc
  | String c s' =>
      match digit_value c with
      | Some d =>
          if d <? r
          then digits r s' (Some (r * match acc with Some a => a | None => 0 end + d))
          else acc
      | None => acc
      end
  end.

Definition strip_sign (s : string) : Z * string :=
  match s with
  | String "-" s' => (-1, s')
  | String "+" s' => (1, s')
  | _ => (1, s)
  end.

Definition strip_radix (s : string) : Z * string :=
  match s with
  | String "0" (String "x" s') => (16, s')
  | String "0" (String "X" s') => (16, s')
  | _ => (10, s)
  end.

Definition parseInt (s : string) : Number :=
  let '(sign, s1) := strip_sign (skip_white s) in
  let '(radix, s2) := strip_radix s1 in
  match digits radix s2 None with
  | Some n => Num (sign * n)
  | None => NaN
  end.

End JS.

(* ================================================================== *)
(** ** Data received from the back end *)

Record Article : Type := mkArticle {
  id : string;
  title : string;
  summary : string;
  source_name : string;
  source_color : string;
  published_date : string;
  url : string;
  image_url : option string;
  tags : list string
}.

Record Source : Type := mkSource {
  key : string;
  name : string;
  color : string;
  article_count : Z
}.

Record Stats : Type := mkStats {
  total_articles : Z;
  recent_articles_24h : Z
}.

(** [response.data] of [GET /articles]. *)
Record ArticlesData : Type := mkArticlesData {
  data_articles : list Article;
  data_total : Z
}.

(* ================================================================== *)
(** ** Hook state of [App] (lines 15-25) *)

Record State : Type := mkState {
  articles : list Article;
  loading : bool;
  refreshing : bool;
  searchTerm : string;
  selectedSource : string;
  selectedHours : string;
  sources : list Source;
  stats : option Stats;
  page : Z;
  totalArticles : Z;
  hasMore : bool
}.

(** The values passed to [useState]. *)
Definition initial_state : State :=
  {| articles := [];
     loading := true;
     refreshing := false;
     searchTerm := "";
     selectedSource := "all";
     selectedHours := "24";
     sources := [];
     stats := None;
     page := 1;
     totalArticles := 0;
     hasMore := true |}.

(** The setters returned by [useState], as state transformers.  Each takes
    an updater, so that both [setX(v)] and [setX(prev => ...)] are
    covered. *)
Definition upd_articles (f : list Article -> list Article) (s : State) : State :=
  mkState (f (articles s)) (loading s) (refreshing s) (searchTerm s)
    (selectedSource s) (selectedHours s) (sources s) (stats s) (page s)
    (totalArticles s) (hasMore s).

Definition upd_loading (f : bool -> bool) (s : State) : State :=
  mkState (articles s) (f (loading s)) (refreshing s) (searchTerm s)
    (selectedSource s) (selectedHours s) (sources s) (stats s) (page s)
    (totalArticles s) (hasMore s).

Definition upd_refreshing (f : bool -> bool) (s : State) : State :=
  mkState (articles s) (loading s) (f (refreshing s)) (searchTerm s)
    (selectedSource s) (selectedHours s) (sources s) (stats s) (page s)
    (totalArticles s) (hasMore s).

Definition upd_searchTerm (f : string -> string) (s : State) : State :=
  mkState (articles s) (loading s) (refreshing s) (f (searchTerm s))
    (selectedSource s) (selectedHours s) (sources s) (stats s) (page s)
    (totalArticles s) (hasMore s).

Definition upd_selectedSource (f : string -> string) (s : State) : State :=
  mkState (articles s) (loading s) (refreshing s) (searchTerm s)
    (f (selectedSource s)) (selectedHours s) (sources s) (stats s) (page s)
    (totalArticles s) (hasMore s).

Definition upd_selectedHours (f : string -> string) (s : State) : State :=
  mkState (articles s) (loading s) (refreshing s) (searchTerm s)
    (selectedSource s) (f (selectedHours s)) (sources s) (stats s) (page s)
    (totalArticles s) (hasMore s).

Definition upd_sources (f : list Source -> list Source) (s : State) : State :=
  mkState (articles s) (loading s) (refreshing s) (searchTerm s)
    (selectedSource s) (selectedHours s) (f (sources s)) (stats s) (page s)
    (totalArticles s) (hasMore s).

Definition upd_stats (f : option Stats -> option Stats) (s : State) : State :=
  mkState (articles s) (loading s) (refreshing s) (searchTerm s)
    (selectedSource s) (selectedHours s) (sources s) (f (stats s)) (page s)
    (totalArticles s) (hasMore s).

Definition upd_page (f : Z -> Z) (s : State) : State :=
  mkState (articles s) (loading s) (refreshing s) (searchTerm s)
    (selectedSource s) (selectedHours s) (sources s) (stats s) (f (page s))
    (totalArticles s) (hasMore s).

Definition upd_totalArticles (f : Z -> Z) (s : State) : State :=
  mkState (articles s) (loading s) (refreshing s) (searchTerm s)
    (selectedSource s) (selectedHours s) (sources s) (stats s) (page s)
    (f (totalArticles s)) (hasMore s).

Definition upd_hasMore (f : bool -> bool) (s : State) : State :=
  mkState (articles s) (loading s) (refreshing s) (searchTerm s)
    (selectedSource s) (selectedHours s) (sources s) (stats s) (page s)
    (totalArticles s) (f (hasMore s)).

(* ================================================================== *)
(** ** The query of [GET /articles] (lines 55-64) *)

(** The page size, the literal [20] of lines 57 and 75. *)
Definition per_page : Z := 20.

(** The object literal of lines 55-61.  [env] is the render whose
    [fetchArticles] is running: the callback reads [page], [searchTerm],
    [selectedSource] and [selectedHours] from its closure. *)
Definition params_literal (env : State) (isNewSearch : bool) : JS.Object :=
  [ ("page", JS.VNumber (JS.Num (if isNewSearch then 1 else page env)));
    ("per_page", JS.VNumber (JS.Num per_page));
    ("hours", if String.eqb (selectedHours env) "all" then JS.VUndefined
              else JS.VNumber (JS.parseInt (selectedHours env)));
    ("source", if String.eqb (selectedSource env) "all" then JS.VUndefined
               else JS.VString (selectedSource env));
    ("search", JS.string_or_undefined (searchTerm env)) ].

(** Line 64:
    [Object.keys(params).forEach(key => params[key] === undefined && delete params[key])]. *)
Definition remove_undefined (params : JS.Object) : JS.Object :=
  fold_left
    (fun o key => if JS.is_undefined (JS.get o key) then JS.delete o key else o)
    (JS.keys params) params.

Definition articles_params (env : State) (isNewSearch : bool) : JS.Object :=
  remove_undefined (params_literal env isNewSearch).

(* ================================================================== *)
(** ** Asynchronous functions *)

(** The reason a request was rejected with. *)
Definition Error : Type := string.

(** The four requests of the component ([axios.get] / [axios.post] on
    [${API}/...]); [GET /articles] carries its query object. *)
Inductive Endpoint : Type :=
| GET_sources
| GET_stats
| GET_articles (params : JS.Object)
| POST_refresh.

(** What the component reads from a fulfilled response: [response.data.sources],
    [response.data], [response.data.{articles,total}], nothing.  The shape
    of section 6 of the specification is taken as the type of the response. *)
Definition Payload (e : Endpoint) : Type :=
  match e with
  | GET_sources => list Source
  | GET_stats => Stats
  | GET_articles _ => ArticlesData
  | POST_refresh => unit
  end.

(** A promise settles: fulfilled with a payload or rejected with an error. *)
Definition Settled (e : Endpoint) : Type := (Payload e + Error)%type.

(** An [async] function body up to its result: state updates are applied in
    the order they are queued, [Await] suspends until the request settles. *)
Inductive Async (A : Type) : Type :=
| Return (a : A)
| Throw (err : Error)
| SetState (f : State -> State) (k : Async A)
| ConsoleError (msg : string) (err : Error) (k : Async A)
| Await (e : Endpoint) (k : Settled e -> Async A).

Arguments Return {A} a.
Arguments Throw {A} err.
Arguments SetState {A} f k.
Arguments ConsoleError {A} msg err k.
Arguments Await {A} e k.

Fixpoint bind {A B : Type} (m : Async A) (f : A -> Async B) : Async B :=
  match m with
  | Return a => f a
  | Throw err => Throw err
  | SetState g k => SetState g (bind k f)
  | ConsoleError msg err k => ConsoleError msg err (bind k f)
  | Await e k => Await e (fun r => bind (k r) f)
  end.

(** [try { m } catch (error) { h error }] *)
Fixpoint try_catch {A : Type} (m : Async A) (h : Error -> Async A) : Async A :=
  match m with
  | Return a => Return a
  | Throw err => h err
  | SetState g k => SetState g (try_catch k h)
  | ConsoleError msg err k => ConsoleError msg err (try_catch k h)
  | Await e k => Await e (fun r => try_catch (k r) h)
  end.

Declare Scope async_scope.
Delimit Scope async_scope with async.
Bind Scope async_scope with Async.

Notation "x <- m ;; k" := (bind m (fun x => k))
  (at level 61, m at next level, right associativity) : async_scope.
Notation "m ;; k" := (bind m (fun _ => k))
  (at level 61, right associativity) : async_scope.

Local Open Scope async_scope.

(** [await axios.get(...)] / [await axios.post(...)]: a rejection is thrown
    at the [await]. *)
Definition axios (e : Endpoint) : Async (Payload e) :=
  Await e (fun r => match r with
                    | inl data => Return data
                    | inr err => Throw err
                    end).

Definition console_error (msg : string) (err : Error) : Async unit :=
  ConsoleError msg err (Return tt).

Definition setArticles (f : list Article -> list Article) : Async unit :=
  SetState (upd_articles f) (Return tt).
Definition setLoading (b : bool) : Async unit :=
  SetState (upd_loading (fun _ => b)) (Return tt).
Definition setRefreshing (b : bool) : Async unit :=
  SetState (upd_refreshing (fun _ => b)) (Return tt).
Definition setSearchTerm (s : string) : Async unit :=
  SetState (upd_searchTerm (fun _ => s)) (Return tt).
Definition setSelectedSource (s : string) : Async unit :=
  SetState (upd_selectedSource (fun _ => s)) (Return tt).
Definition setSelectedHours (s : string) : Async unit :=
  SetState (upd_selectedHours (fun _ => s)) (Return tt).
Definition setSources (l : list Source) : Async unit :=
  SetState (upd_sources (fun _ => l)) (Return tt).
Definition setStats (x : Stats) : Async unit :=
  SetState (upd_stats (fun _ => Some x)) (Return tt).
Definition setPage (f : Z -> Z) : Async unit :=
  SetState (upd_page f) (Return tt).
Definition setTotalArticles (n : Z) : Async unit :=
  SetState (upd_totalArticles (fun _ => n)) (Return tt).
Definition setHasMore (b : bool) : Async unit :=
  SetState (upd_hasMore (fun _ => b)) (Return tt).

(** Lines 28-35. *)
Definition fetchSources : Async unit :=
  try_catch
    (response <- axios GET_sources ;;
     setSources response)
    (fun error => console_error "Error fetching sources:" error).

(** Lines 38-45. *)
Definition fetchStats : Async unit :=
  try_catch
    (response <- axios GET_stats ;;
     setStats response)
    (fun error => console_error "Error fetching stats:" error).

(** Lines 48-81.  [env] is the render that created the callback: its
    dependency list [[page, searchTerm, selectedSource, selectedHours]] names
    everything the body reads from the closure, so the callback of a render
    is a function of that render's state. *)
Definition fetchArticles (env : State) (isNewSearch : bool) : Async unit :=
  try_catch
    ((if isNewSearch
      then setLoading true ;; setPage (fun _ => 1)
      else Return tt) ;;
     let params := articles_params env isNewSearch in
     response <- axios (GET_articles params) ;;
     (if isNewSearch
      then setArticles (fun _ => data_articles response)
      else setArticles (fun prev => (prev ++ data_articles response)%list)) ;;
     setTotalArticles (data_total response) ;;
     setHasMore (Nat.eqb (List.length (data_articles response)) 20) ;;
     setLoading false)
    (fun error =>
       console_error "Error fetching articles:" error ;;
       setLoading false).

(** Lines 84-94.  [handleRefresh] is re-created by every render and calls
    that render's [fetchArticles]. *)
Definition handleRefresh (env : State) : Async unit :=
  setRefreshing true ;;
  try_catch
    (axios POST_refresh ;;
     fetchArticles env true ;;
     fetchStats)
    (fun error => console_error "Error refreshing:" error) ;;
  setRefreshing false.

(** What is left of [handleRefresh] once [POST /refresh] is fulfilled
    (lines 88-93), and once the replace-fetch it then awaits has settled
    (lines 89-93). *)
Definition refresh_after_post (env : State) : Async unit :=
  try_catch
    (fetchArticles env true ;;
     fetchStats)
    (fun error => console_error "Error refreshing:" error) ;;
  setRefreshing false.

Definition refresh_after_articles : Async unit :=
  try_catch
    fetchStats
    (fun error => console_error "Error refreshing:" error) ;;
  setRefreshing false.

(** Lines 97-101. *)
Definition loadMore (env : State) : Async unit :=
  if (hasMore env && negb (loading env))%bool
  then setPage (fun prev => prev + 1)
  else Return tt.

(** Lines 104-107; the promise of [fetchArticles(true)] is dropped. *)
Definition handleSearch (env : State) : list (Async unit) :=
  [fetchArticles env true].

(* ================================================================== *)
(** ** The component as a transition system *)

(** A request in flight and the rest of the [async] function awaiting it. *)
Record Pending : Type := mkPending {
  endpoint : Endpoint;
  resume : Settled endpoint -> Async unit
}.

(** What the component does to the outside, in order. *)
Inductive Output : Type :=
| Sent (e : Endpoint)
| Logged (msg : string) (err : Error)
| SetInterval (ms : Z)
| ClearInterval
| Unhandled (err : Error).

(** [st] is the hook state; [pending] lists the requests issued so far, a
    request being identified by its position and its slot emptied once it
    has settled; [timer] is the closure of the active interval: the render
    whose [page] and [fetchArticles] the callback captured. *)
Record World : Type := mkWorld {
  st : State;
  pending : list (option Pending);
  timer : option State;
  output : list Output;
  mounted : bool
}.

Definition with_st (f : State -> State) (w : World) : World :=
  mkWorld (f (st w)) (pending w) (timer w) (output w) (mounted w).

Definition emit (o : Output) (w : World) : World :=
  mkWorld (st w) (pending w) (timer w) (output w ++ [o]) (mounted w).

Definition suspend (p : Pending) (w : World) : World :=
  mkWorld (st w) (pending w ++ [Some p]) (timer w) (output w) (mounted w).

(** Empty the slot of request [i]. *)
Fixpoint settle (i : nat) (l : list (option Pending)) : list (option Pending) :=
  match l, i with
  | [], _ => []
  | _ :: l', O => None :: l'
  | p :: l', S i' => p :: settle i' l'
  end.

Definition with_pending (f : list (option Pending) -> list (option Pending))
    (w : World) : World :=
  mkWorld (st w) (f (pending w)) (timer w) (output w) (mounted w).

Definition with_timer (t : option State) (w : World) : World :=
  mkWorld (st w) (pending w) t (output w) (mounted w).

(** Run an [async] function until it returns or reaches its next [await]. *)
Fixpoint exec (m : Async unit) (w : World) : World :=
  match m with
  | Return _ => w
  | Throw err => emit (Unhandled err) w
  | SetState f k => exec k (with_st f w)
  | ConsoleError msg err k => exec k (emit (Logged msg err) w)
  | Await e k => suspend (mkPending e k) (emit (Sent e) w)
  end.

(** Calls made one after the other without [await]ing any of them. *)
Definition spawn_all (ms : list (Async unit)) (w : World) : World :=
  fold_left (fun w m => exec m w) ms w.

(** *** Settling a request *)

Inductive Reply : Type :=
| Sources_ok (l : list Source)
| Stats_ok (x : Stats)
| Articles_ok (d : ArticlesData)
| Refresh_ok
| Rejected (err : Error).

(** A reply settles the requests of its own endpoint; a rejection settles
    any request. *)
Definition settled (e : Endpoint) (r : Reply) : option (Settled e) :=
  match e as e0 return option (Settled e0) with
  | GET_sources =>
      match r with
      | Sources_ok l => Some (inl l)
      | Rejected err => Some (inr err)
      | _ => None
      end
  | GET_stats =>
      match r with
      | Stats_ok x => Some (inl x)
      | Rejected err => Some (inr err)
      | _ => None
      end
  | GET_articles _ =>
      match r with
      | Articles_ok d => Some (inl d)
      | Rejected err => Some (inr err)
      | _ => None
      end
  | POST_refresh =>
      match r with
      | Refresh_ok => Some (inl tt)
      | Rejected err => Some (inr err)
      | _ => None
      end
  end.

Definition deliver (i : nat) (r : Reply) (w : World) : World :=
  match nth_error (pending w) i with
  | Some (Some p) =>
      match settled (endpoint p) r with
      | Some o => exec (resume p o) (with_pending (settle i) w)
      | None => w
      end
  | _ => w
  end.

(** *** Effects *)

(** Lines 125-129.  Both dependencies are callbacks with an empty
    dependency list, so this effect runs after the first render only. *)
Definition effect_initial_load (env : State) : list (Async unit) :=
  [fetchSources; fetchStats; fetchArticles env true].

(** Lines 132-136, dependencies [[selectedSource, selectedHours]]. *)
Definition effect_filters (env : State) : list (Async unit) :=
  if negb (loading env) then [fetchArticles env true] else [].

(** Lines 139-143, dependencies [[page, fetchArticles]]. *)
Definition effect_page (env : State) : list (Async unit) :=
  if 1 <? page env then [fetchArticles env false] else [].

(** Lines 146-155, dependencies [[page]]: the callback of the interval, its
    period, and the cleanup. *)
Definition interval_callback (env : State) : list (Async unit) :=
  fetchStats :: (if page env =? 1 then [fetchArticles env true] else []).

Definition interval_ms : Z := 5 * 60 * 1000.

Definition effect_interval (env : State) (w : World) : World :=
  with_timer (Some env) (emit (SetInterval interval_ms) w).

Definition cleanup_interval (w : World) : World :=
  with_timer None (emit ClearInterval w).

(** Dependency comparison between the previous render and this one. *)
Definition filters_changed (prev cur : State) : bool :=
  (negb (String.eqb (selectedSource prev) (selectedSource cur))
   || negb (String.eqb (selectedHours prev) (selectedHours cur)))%bool.

Definition page_changed (prev cur : State) : bool :=
  negb (page prev =? page cur).

(** [useCallback] returns a new [fetchArticles] exactly when one of
    [[page, searchTerm, selectedSource, selectedHours]] changed. *)
Definition fetchArticles_changed (prev cur : State) : bool :=
  (page_changed prev cur
   || negb (String.eqb (searchTerm prev) (searchTerm cur))
   || filters_changed prev cur)%bool.

(** One commit: the cleanups of the effects that re-run, then those effects
    in the order of their declaration, all reading the render [cur]. *)
Definition run_effects (prev cur : State) (w : World) : World :=
  let w1 := if page_changed prev cur then cleanup_interval w else w in
  let w2 := if filters_changed prev cur
            then spawn_all (effect_filters cur) w1 else w1 in
  let w3 := if (page_changed prev cur || fetchArticles_changed prev cur)%bool
            then spawn_all (effect_page cur) w2 else w2 in
  if page_changed prev cur then effect_interval cur w3 else w3.

(** The state updates queued by effects cause another render and commit.
    Two commits are enough: [commit_quiescent] below shows that a third one
    would run no effect. *)
Definition commit (prev : State) (w : World) : World :=
  let w1 := run_effects prev (st w) w in
  run_effects (st w) (st w1) w1.

(** *** What is rendered (lines 157-397), as far as it enables input *)

Record View : Type := mkView {
  refresh_disabled : bool;
  skeleton : bool;
  cards : list Article;
  load_more_button : bool;
  no_results : bool;
  loading_more : bool
}.

Definition render (s : State) : View :=
  let sk := (loading s && (page s =? 1))%bool in
  {| refresh_disabled := refreshing s;
     skeleton := sk;
     cards := if sk then [] else articles s;
     load_more_button :=
       (negb sk && (hasMore s && negb (loading s)
                    && Nat.ltb 0 (List.length (articles s))))%bool;
     no_results :=
       (negb sk && (negb (loading s)
                    && Nat.eqb (List.length (articles s)) 0))%bool;
     loading_more := (loading s && (1 <? page s))%bool |}.

(** Line 291: the key of the card at position [index] is
    [`${article.id}-${index}`], the index written in decimal. *)
Definition index_string (index : nat) : string :=
  NilEmpty.string_of_uint (Nat.to_uint index).

Definition card_key (article : Article) (index : nat) : string :=
  id article ++ "-" ++ index_string index.

Fixpoint card_keys_from (index : nat) (l : list Article) : list string :=
  match l with
  | [] => []
  | article :: l' => card_key article index :: card_keys_from (S index) l'
  end.

Definition card_keys (l : list Article) : list string := card_keys_from 0 l.

(** *** Events *)

Inductive Event : Type :=
| TypeSearch (s : string)        (* [onChange] of the search input *)
| SelectSource (s : string)      (* [onValueChange] of the source select *)
| SelectHours (h : string)       (* [onValueChange] of the time select *)
| SubmitSearch                   (* [onSubmit] of the search form *)
| ClickRefresh
| ClickLoadMore
| Tick                           (* the interval fires *)
| Deliver (i : nat) (r : Reply)  (* request [i] settles *)
| Unmount.

(** The synchronous block an event runs.  Handlers read the latest render,
    which is [st w] between steps; a disabled or absent button takes no
    click. *)
Definition handler (e : Event) (w : World) : World :=
  let env := st w in
  match e with
  | TypeSearch s => exec (setSearchTerm s) w
  | SelectSource s => exec (setSelectedSource s) w
  | SelectHours h => exec (setSelectedHours h) w
  | SubmitSearch => spawn_all (handleSearch env) w
  | ClickRefresh =>
      if refresh_disabled (render env) then w else exec (handleRefresh env) w
  | ClickLoadMore =>
      if load_more_button (render env) then exec (loadMore env) w else w
  | Tick =>
      match timer w with
      | Some closure => spawn_all (interval_callback closure) w
      | None => w
      end
  | Deliver i r => deliver i r w
  | Unmount => w
  end.

Definition unmount (w : World) : World :=
  let w' := cleanup_interval w in
  mkWorld (st w') (pending w') (timer w') (output w') false.

(** While the component is mounted, an event runs its handler and React
    commits.  Unmounting runs the cleanup of the interval effect.  After
    that there is no input, no tick and no render, but a request in flight
    still settles, and the [async] function that awaits it runs on: no line
    of the component asks whether it is still mounted.  It sends the
    requests and logs the errors it would have.  Its state updates are
    calls on a component that is gone, which React ignores: [st] then
    records what they would have set, and nothing reads it, a continuation
    reading only the render that created it. *)
Definition step (e : Event) (w : World) : World :=
  if mounted w then
    match e with
    | Unmount => unmount w
    | _ => commit (st w) (handler e w)
    end
  else
    match e with
    | Deliver i r => deliver i r w
    | _ => w
    end.

Definition run (es : list Event) (w : World) : World :=
  fold_left (fun w e => step e w) es w.

(** The first render and its commit: every effect runs. *)
Definition mount : World :=
  let w0 := mkWorld initial_state [] None [] true in
  let w1 := spawn_all (effect_initial_load initial_state) w0 in
  let w2 := spawn_all (effect_filters initial_state) w1 in
  let w3 := spawn_all (effect_page initial_state) w2 in
  let w4 := effect_interval initial_state w3 in
  commit initial_state w4.

Inductive Reachable : World -> Prop :=
| reach_mount : Reachable mount
| reach_step (e : Event) (w : World) : Reachable w -> Reachable (step e w).

(* ================================================================== *)
(** ** Vocabulary for the statements *)

(** *** The synchronous prefix of a call *)

(** The state after the prefix, from the state before it. *)
Fixpoint sync_state (m : Async unit) (s : State) : State :=
  match m with
  | SetState f k => sync_state k (f s)
  | ConsoleError _ _ k => sync_state k s
  | _ => s
  end.

(** What the prefix sends and logs. *)
Fixpoint sync_output (m : Async unit) : list Output :=
  match m with
  | Return _ => []
  | Throw err => [Unhandled err]
  | SetState _ k => sync_output k
  | ConsoleError msg err k => Logged msg err :: sync_output k
  | Await e _ => [Sent e]
  end.

(** The request the prefix stops at, with the rest of the call. *)
Fixpoint first_await (m : Async unit) : option Pending :=
  match m with
  | Await e k => Some (mkPending e k)
  | SetState _ k => first_await k
  | ConsoleError _ _ k => first_await k
  | _ => None
  end.

(** The slot a call adds to the requests in flight. *)
Definition suspended (m : Async unit) : list (option Pending) :=
  match first_await m with
  | Some p => [Some p]
  | None => []
  end.

(** Calls made one after the other, none of them awaited. *)
Definition sync_state_all (ms : list (Async unit)) (s : State) : State :=
  fold_left (fun s m => sync_state m s) ms s.

(** *** Requests in flight *)

(** Slot [i] holds the request at which a call of [m] first suspends. *)
Definition in_flight (w : World) (i : nat) (m : Async unit) : Prop :=
  exists p, first_await m = Some p /\ nth_error (pending w) i = Some (Some p).

(** The endpoint of the request in flight in slot [i], if there is one. *)
Definition awaiting (w : World) (i : nat) : option Endpoint :=
  match nth_error (pending w) i with
  | Some (Some p) => Some (endpoint p)
  | _ => None
  end.

(** *** One commit *)

(** The calls made by the effects of one commit. *)
Definition effects (prev cur : State) : list (Async unit) :=
  ((if filters_changed prev cur then effect_filters cur else [])
   ++ (if fetchArticles_changed prev cur then effect_page cur else []))%list.

(** An output that is made under a condition. *)
Definition bracket (b : bool) (o : Output) : list Output :=
  if b then [o] else [].

(** The state after the synchronous prefix of [fetchArticles(true)]. *)
Definition begin_replace (s : State) : State :=
  upd_page (fun _ => 1) (upd_loading (fun _ => true) s).

(** At the commit of render [cur] after render [prev], the filter effect
    issues a replace-fetch / the page effect issues an append-fetch. *)
Definition replaces (prev cur : State) : bool :=
  (filters_changed prev cur && negb (loading cur))%bool.

Definition appends (prev cur : State) : bool :=
  (fetchArticles_changed prev cur && (1 <? page cur))%bool.

(** The state once the effects of a step have run. *)
Definition settled_state (prev cur : State) : State :=
  if replaces prev cur then begin_replace cur else cur.

(** *** One event *)

(** The calls an event makes in its synchronous block, and what it does to
    the slots of the requests in flight. *)
Definition calls (e : Event) (w : World) : list (Async unit) :=
  match e with
  | TypeSearch s => [setSearchTerm s]
  | SelectSource s => [setSelectedSource s]
  | SelectHours h => [setSelectedHours h]
  | SubmitSearch => handleSearch (st w)
  | ClickRefresh =>
      if refresh_disabled (render (st w)) then [] else [handleRefresh (st w)]
  | ClickLoadMore =>
      if load_more_button (render (st w)) then [loadMore (st w)] else []
  | Tick =>
      match timer w with
      | Some closure => interval_callback closure
      | None => []
      end
  | Deliver i r =>
      match nth_error (pending w) i with
      | Some (Some p) =>
          match settled (endpoint p) r with
          | Some o => [resume p o]
          | None => []
          end
      | _ => []
      end
  | Unmount => []
  end.

Definition settles (e : Event) (w : World) (l : list (option Pending))
    : list (option Pending) :=
  match e with
  | Deliver i r =>
      match nth_error (pending w) i with
      | Some (Some p) =>
          match settled (endpoint p) r with
          | Some _ => settle i l
          | None => l
          end
      | _ => l
      end
  | _ => l
  end.

(** The render an event's replace-fetch reads its filters from, and the
    events after which the component calls [fetchArticles(true)]. *)
Definition closure_env (e : Event) (w : World) : State :=
  match e with
  | SelectSource s => upd_selectedSource (fun _ => s) (st w)
  | SelectHours h => upd_selectedHours (fun _ => h) (st w)
  | _ => st w
  end.

Definition triggers_replace (w : World) (e : Event) : Prop :=
  match e with
  | SelectSource s => loading (st w) = false /\ s <> selectedSource (st w)
  | SelectHours h => loading (st w) = false /\ h <> selectedHours (st w)
  | SubmitSearch => True
  | _ => False
  end.

(** *** A whole call *)

(** A whole call, every request answered at once by [oracle]: the requests
    it makes, in order, and the states at which it makes them and ends. *)
Definition Oracle : Type := forall e : Endpoint, Settled e.

Fixpoint requests (m : Async unit) (oracle : Oracle) : list Endpoint :=
  match m with
  | Await e k => e :: requests (k (oracle e)) oracle
  | SetState _ k => requests k oracle
  | ConsoleError _ _ k => requests k oracle
  | _ => []
  end.

Fixpoint states_at_requests (m : Async unit) (oracle : Oracle) (s : State)
    : list State :=
  match m with
  | Await e k => s :: states_at_requests (k (oracle e)) oracle s
  | SetState f k => states_at_requests k oracle (f s)
  | ConsoleError _ _ k => states_at_requests k oracle s
  | _ => []
  end.

Fixpoint final_state (m : Async unit) (oracle : Oracle) (s : State) : State :=
  match m with
  | Await e k => final_state (k (oracle e)) oracle s
  | SetState f k => final_state k oracle (f s)
  | ConsoleError _ _ k => final_state k oracle s
  | _ => s
  end.

(** *** Properties of the blocks of a call *)

(** Every synchronous block of [m] (from its start or from an [await] to
    the next [await] or to the end) takes a state to an [R]-related one;
    [acc] is the part of the current block already run. *)
Fixpoint blocks (R : State -> State -> Prop) (acc : State -> State)
    (m : Async unit) : Prop :=
  match m with
  | SetState f k => blocks R (fun s => f (acc s)) k
  | ConsoleError _ _ k => blocks R acc k
  | Await e k => (forall s, R s (acc s)) /\ forall o, blocks R (fun s => s) (k o)
  | _ => forall s, R s (acc s)
  end.

(** [Q] holds of every [await] of [m], however the earlier ones settle. *)
Fixpoint awaits (Q : forall e : Endpoint, (Settled e -> Async unit) -> Prop)
    (m : Async unit) : Prop :=
  match m with
  | SetState _ k => awaits Q k
  | ConsoleError _ _ k => awaits Q k
  | Await e k => Q e k /\ forall o, awaits Q (k o)
  | _ => True
  end.

(** [m] leaves [refreshing] alone in every block but its last, which ends
    with [refreshing] false. *)
Fixpoint finishes (acc : State -> State) (m : Async unit) : Prop :=
  match m with
  | SetState f k => finishes (fun s => f (acc s)) k
  | ConsoleError _ _ k => finishes acc k
  | Await e k =>
      (forall s, refreshing (acc s) = refreshing s)
      /\ forall o, finishes (fun s => s) (k o)
  | _ => forall s, refreshing (acc s) = false
  end.

(** Relations between the states before and after a block. *)
Definition keeps_refreshing (s s' : State) : Prop :=
  refreshing s' = refreshing s.

(** Pages are counted from 1, and [loading] is only ever set together
    with [page] 1. *)
Definition page_ok (s : State) : Prop :=
  1 <= page s /\ (loading s = true -> page s = 1).

Definition keeps_page_ok (s s' : State) : Prop := page_ok s -> page_ok s'.

(** What the code after an [await] of [GET /articles] does in its
    synchronous block: on a fulfilled request, lines 68-76 with one of the
    two branches of line 68; on a rejected one, lines 78-79. *)
Definition fulfilled_state (isNewSearch : bool) (d : ArticlesData) (s : State)
    : State :=
  upd_loading (fun _ => false)
    (upd_hasMore (fun _ => Nat.eqb (List.length (data_articles d)) 20)
       (upd_totalArticles (fun _ => data_total d)
          (upd_articles
             (fun prev => if isNewSearch then data_articles d
                          else (prev ++ data_articles d)%list) s))).

Definition articles_await (e : Endpoint) : (Settled e -> Async unit) -> Prop :=
  match e with
  | GET_articles q => fun k =>
      (exists isNewSearch, forall d s,
          sync_state (k (inl d)) s = fulfilled_state isNewSearch d s)
      /\ forall err s,
           sync_state (k (inr err)) s = upd_loading (fun _ => false) s
           /\ exists rest,
               sync_output (k (inr err))
               = Logged "Error fetching articles:" err :: rest
               /\ forall msg err', ~ In (Logged msg err') rest
  | _ => fun _ => True
  end.

(** *** Whose request *)

(** The requests that calls of the programs in [P] can have in flight. *)
Inductive IssuedFrom (P : Async unit -> Prop) : Pending -> Prop :=
| issued_first (m : Async unit) (p : Pending) :
    P m -> first_await m = Some p -> IssuedFrom P p
| issued_next (p : Pending) (o : Settled (endpoint p)) (p' : Pending) :
    IssuedFrom P p -> first_await (resume p o) = Some p' -> IssuedFrom P p'.

(** The asynchronous calls of the component: [handleRefresh], and the
    others. *)
Inductive RefreshCall : Async unit -> Prop :=
| call_handleRefresh (env : State) : RefreshCall (handleRefresh env).

Inductive FetchCall : Async unit -> Prop :=
| call_fetchSources : FetchCall fetchSources
| call_fetchStats : FetchCall fetchStats
| call_fetchArticles (env : State) (b : bool) : FetchCall (fetchArticles env b).

(** A request of a manual refresh is in flight. *)
Definition refresh_in_flight (w : World) : Prop :=
  exists i p, nth_error (pending w) i = Some (Some p)
              /\ IssuedFrom RefreshCall p.

(** A call that leaves [refreshing] alone and whose request, if it makes
    one, is a request of a fetch call. *)
Definition neutral (m : Async unit) : Prop :=
  blocks keeps_refreshing (fun s => s) m
  /\ forall p, first_await m = Some p -> IssuedFrom FetchCall p.

(** A role for every slot: true for a request of a manual refresh, false
    for a request of a fetch call and for a settled slot. *)
Definition slot_role (slot : option Pending) (r : bool) : Prop :=
  match slot with
  | None => r = false
  | Some p => if r then IssuedFrom RefreshCall p else IssuedFrom FetchCall p
  end.

Definition count_true (l : list bool) : nat :=
  List.length (filter (fun b => b) l).

(** Emptying a slot and its role. *)
Fixpoint clear_role (i : nat) (l : list bool) : list bool :=
  match l, i with
  | [], _ => []
  | _ :: l', O => false :: l'
  | b :: l', S i' => b :: clear_role i' l'
  end.

(** Every request in flight belongs to a fetch call or to a manual refresh,
    and there is one of a manual refresh exactly when [refreshing] is set. *)
Definition refresh_ok (s : State) (l : list (option Pending)) : Prop :=
  exists roles,
    Forall2 slot_role l roles
    /\ count_true roles = if refreshing s then 1%nat else 0%nat.

(** *** The interval *)

(** Intervals started and cancelled so far. *)
Definition intervals_started (out : list Output) : nat :=
  List.length
    (filter (fun o => match o with SetInterval _ => true | _ => false end) out).

Definition intervals_cleared (out : list Output) : nat :=
  List.length
    (filter (fun o => match o with ClearInterval => true | _ => false end) out).

(** While mounted, one interval is active and its callback has captured
    the current page; none is active afterwards. *)
Definition timer_ok (w : World) : Prop :=
  (if mounted w
   then exists closure, timer w = Some closure /\ page closure = page (st w)
   else timer w = None)
  /\ intervals_started (output w)
     = (intervals_cleared (output w) + if mounted w then 1 else 0)%nat.

(** *** Constants of the page and sample data *)

(** The values of the time select (lines 256-261) other than ["all"]. *)
Definition hours_items : list string := ["1"; "6"; "24"; "72"; "168"].

(** Sample data. *)
Definition sample_article (n : nat) : Article :=
  mkArticle (string_of_list_ascii (repeat "a"%char n)) "title" "summary"
    "Source" "#fff" "2025-01-01T00:00:00Z" "https://example.org" None [].

Definition sample_page (n : nat) (total : Z) : ArticlesData :=
  mkArticlesData (map sample_article (seq 1 n)) total.

(** A back end that fulfils every request, and one that rejects them all. *)
Definition all_fulfilled : Oracle :=
  fun e =>
    match e as e0 return Settled e0 with
    | GET_sources => inl []
    | GET_stats => inl (mkStats 57 3)
    | GET_articles _ => inl (sample_page 20 57)
    | POST_refresh => inl tt
    end.

Definition all_rejected : Oracle := fun e => inr "Network Error".

(** *** The query object *)

(** An entry that line 64 keeps. *)
Definition defined_entry (kv : string * JS.Value) : bool :=
  negb (JS.is_undefined (snd kv)).

(** A query as the back end expects it: 20 articles a page, pages counted
    from 1. *)
Definition valid_query (q : JS.Object) : Prop :=
  JS.get q "per_page" = JS.VNumber (JS.Num 20)
  /\ exists p, 1 <= p /\ JS.get q "page" = JS.VNumber (JS.Num p).

(** *** What a call sends and logs *)

(** Everything [m] sends or logs, in any of its blocks and however its
    requests settle, satisfies [P]. *)
Fixpoint emits (P : Output -> Prop) (m : Async unit) : Prop :=
  match m with
  | Return _ => True
  | Throw err => P (Unhandled err)
  | SetState _ k => emits P k
  | ConsoleError msg err k => P (Logged msg err) /\ emits P k
  | Await e k => P (Sent e) /\ forall o, emits P (k o)
  end.

Definition is_sources_request (o : Output) : bool :=
  match o with
  | Sent GET_sources => true
  | _ => false
  end.

(** *** What the code after an [await] does *)

(** The end of a call: the last step of a manual refresh clears
    [refreshing], a call made for itself does not. *)
Definition finish (last : bool) (s : State) : State :=
  if last then upd_refreshing (fun _ => false) s else s.

(** After [GET /sources] (lines 31-33). *)
Definition sources_await (e : Endpoint) : (Settled e -> Async unit) -> Prop :=
  match e with
  | GET_sources => fun k =>
      (forall l s, sync_state (k (inl l)) s = upd_sources (fun _ => l) s
                   /\ sync_output (k (inl l)) = [])
      /\ (forall err s,
            sync_state (k (inr err)) s = s
            /\ sync_output (k (inr err))
               = [Logged "Error fetching sources:" err])
      /\ forall o, first_await (k o) = None
  | _ => fun _ => True
  end.

(** The list, the total count and [hasMore] are as before. *)
Definition keeps_list (s s' : State) : Prop :=
  articles s' = articles s
  /\ totalArticles s' = totalArticles s
  /\ hasMore s' = hasMore s.

(** After an [await], only a fulfilled [GET /articles] is followed by a
    block that touches the list. *)
Definition list_await (e : Endpoint) : (Settled e -> Async unit) -> Prop :=
  match e with
  | GET_articles _ => fun k =>
      forall err s, keeps_list s (sync_state (k (inr err)) s)
  | _ => fun k => forall o s, keeps_list s (sync_state (k o) s)
  end.

(** A block of an asynchronous call leaves [page] alone or resets it. *)
Definition page_kept_or_reset (s s' : State) : Prop :=
  page s' = page s \/ page s' = 1.

(** The search text and the two selections are as before. *)
Definition keeps_filters (s s' : State) : Prop :=
  searchTerm s' = searchTerm s
  /\ selectedSource s' = selectedSource s
  /\ selectedHours s' = selectedHours s.

(** No request of a fetch call is a [POST /refresh]. *)
Definition not_post (e : Endpoint) (_ : Settled e -> Async unit) : Prop :=
  e <> POST_refresh.

(** *** [loading] and the requests for articles *)

Definition is_articles (e : Endpoint) : bool :=
  match e with GET_articles _ => true | _ => false end.

Definition has_articles (l : list (option Pending)) : Prop :=
  exists i p, nth_error l i = Some (Some p) /\ is_articles (endpoint p) = true.

(** After an [await], a block that ends with [loading] set ends at a
    request for articles, unless [loading] was set before and the settled
    request was not one for articles. *)
Definition loading_await (e : Endpoint) (k : Settled e -> Async unit) : Prop :=
  forall o s,
    loading (sync_state (k o) s) = true ->
    has_articles (suspended (k o))
    \/ (loading s = true /\ is_articles e = false).

(** *** Before the first click on "Load More" *)

(** The page is still 1 and the interval is still the one started at mount,
    whose callback closes over the first render. *)
Definition before_load_more (w : World) : Prop :=
  Reachable w /\ mounted w = true /\ page (st w) = 1
  /\ timer w = Some initial_state.

(** *** The keys of the cards *)

Fixpoint no_dash (s : string) : Prop :=
  match s with
  | EmptyString => True
  | String c s' => c <> "-"%char /\ no_dash s'
  end.

Create HintDb calls.
#[local] Hint Constructors FetchCall RefreshCall : calls.

Arguments articles_params : simpl never.
Arguments keeps_page_ok : simpl never.
Arguments page_ok : simpl never.
Arguments interval_ms : simpl never.

(* ================================================================== *)
(** ** The query object *)

Example parseInt_decimal : JS.parseInt "24" = JS.Num 24.
Proof. reflexivity. Qed.

Example parseInt_prefix : JS.parseInt "  12px" = JS.Num 12.
Proof. reflexivity. Qed.

Example parseInt_hex : JS.parseInt "-0x1F" = JS.Num (-31).
Proof. reflexivity. Qed.

Example parseInt_not_a_number : JS.parseInt "all" = JS.NaN.
Proof. reflexivity. Qed.

Example initial_query :
  articles_params initial_state true
  = [("page", JS.VNumber (JS.Num 1)); ("per_page", JS.VNumber (JS.Num 20));
     ("hours", JS.VNumber (JS.Num 24))].
Proof. reflexivity. Qed.

Example filtered_query :
  articles_params
    (mkState [] false false "rust" "hn" "all" [] None 3 57 true) false
  = [("page", JS.VNumber (JS.Num 3)); ("per_page", JS.VNumber (JS.Num 20));
     ("source", JS.VString "hn"); ("search", JS.VString "rust")].
Proof. reflexivity. Qed.

Lemma articles_params_eq (env : State) (isNewSearch : bool) :
  articles_params env isNewSearch =
  ([("page", JS.VNumber (JS.Num (if isNewSearch then 1 else page env)));
    ("per_page", JS.VNumber (JS.Num 20))]
   ++ (if String.eqb (selectedHours env) "all" then []
       else [("hours", JS.VNumber (JS.parseInt (selectedHours env)))])
   ++ (if String.eqb (selectedSource env) "all" then []
       else [("source", JS.VString (selectedSource env))])
   ++ (if String.eqb (searchTerm env) "" then []
       else [("search", JS.VString (searchTerm env))]))%list.
Proof.
  unfold articles_params, params_literal, remove_undefined.
  generalize (JS.parseInt (selectedHours env)); intro n.
  destruct (String.eqb (selectedHours env) "all");
    destruct (String.eqb (selectedSource env) "all");
    destruct (searchTerm env); reflexivity.
Qed.

(** C8.  The query of [fetchArticles] has the keys [page] and [per_page]
    always, with [per_page] equal to 20 and [page] equal to 1 for a
    replace-fetch and to the closure's page otherwise; [hours] is present
    exactly when the recency selection is not ["all"] and then holds
    [parseInt] of it (the number itself for each item of the select);
    [source] is present exactly when the source selection is not ["all"] and
    then holds it; [search] is present exactly when the search text is not
    empty and then holds it.  There is no other key and no key twice. *)
Theorem articles_query_fields (env : State) (isNewSearch : bool) :
  let q := articles_params env isNewSearch in
  incl (JS.keys q) ["page"; "per_page"; "hours"; "source"; "search"]
  /\ NoDup (JS.keys q)
  /\ JS.has q "page" = true
  /\ JS.get q "page" = JS.VNumber (JS.Num (if isNewSearch then 1 else page env))
  /\ JS.has q "per_page" = true
  /\ JS.get q "per_page" = JS.VNumber (JS.Num 20)
  /\ JS.has q "hours" = negb (String.eqb (selectedHours env) "all")
  /\ JS.get q "hours" = (if String.eqb (selectedHours env) "all"
                         then JS.VUndefined
                         else JS.VNumber (JS.parseInt (selectedHours env)))
  /\ map JS.parseInt hours_items
     = [JS.Num 1; JS.Num 6; JS.Num 24; JS.Num 72; JS.Num 168]
  /\ JS.has q "source" = negb (String.eqb (selectedSource env) "all")
  /\ JS.get q "source" = (if String.eqb (selectedSource env) "all"
                          then JS.VUndefined
                          else JS.VString (selectedSource env))
  /\ JS.has q "search" = negb (String.eqb (searchTerm env) "")
  /\ JS.get q "search" = (if String.eqb (searchTerm env) ""
                          then JS.VUndefined
                          else JS.VString (searchTerm env)).
Proof.
  cbv zeta. rewrite articles_params_eq.
  generalize (JS.parseInt (selectedHours env)); intro n.
  destruct (String.eqb (selectedHours env) "all");
    destruct (String.eqb (selectedSource env) "all");
    destruct (String.eqb (searchTerm env) "");
    cbn;
    (repeat split;
     [ intros k Hk; cbn in Hk |- *; intuition auto
     | repeat constructor; cbn; intuition discriminate ]).
Qed.

(** C10.  The [search] key is absent exactly when the search text is the
    empty string; any other text is the value of the key, unchanged: white
    space is neither trimmed nor treated as empty. *)
Theorem search_sent_verbatim (env : State) (isNewSearch : bool) :
  let q := articles_params env isNewSearch in
  (JS.has q "search" = false <-> searchTerm env = "")
  /\ (JS.has q "search" = true <-> searchTerm env <> "")
  /\ JS.get q "search" = (if String.eqb (searchTerm env) ""
                          then JS.VUndefined
                          else JS.VString (searchTerm env))
  /\ JS.get (articles_params (upd_searchTerm (fun _ => "  ") env) isNewSearch)
       "search" = JS.VString "  "
  /\ JS.get (articles_params (upd_searchTerm (fun _ => " rust ") env)
               isNewSearch) "search" = JS.VString " rust ".
Proof.
  cbv zeta.
  assert (H : JS.has (articles_params env isNewSearch) "search"
              = negb (String.eqb (searchTerm env) "")
            /\ JS.get (articles_params env isNewSearch) "search"
               = (if String.eqb (searchTerm env) "" then JS.VUndefined
                  else JS.VString (searchTerm env))).
  { rewrite articles_params_eq.
    generalize (JS.parseInt (selectedHours env)); intro n.
    destruct (String.eqb (selectedHours env) "all");
      destruct (String.eqb (selectedSource env) "all");
      destruct (String.eqb (searchTerm env) ""); split; reflexivity. }
  destruct H as [Hhas Hget]. rewrite Hhas.
  repeat split.
  - intros H. apply negb_false_iff in H. now apply String.eqb_eq.
  - intros ->. reflexivity.
  - intros H E. rewrite E in H. discriminate.
  - intros H. apply negb_true_iff. now apply String.eqb_neq.
  - exact Hget.
  - rewrite articles_params_eq. cbn.
    destruct (String.eqb (selectedHours env) "all");
      destruct (String.eqb (selectedSource env) "all"); reflexivity.
  - rewrite articles_params_eq. cbn.
    destruct (String.eqb (selectedHours env) "all");
      destruct (String.eqb (selectedSource env) "all"); reflexivity.
Qed.

(* ================================================================== *)
(** ** Running calls and commits *)

Lemma exec_eq (m : Async unit) : forall w,
  exec m w = mkWorld (sync_state m (st w)) (pending w ++ suspended m)
               (timer w) (output w ++ sync_output m) (mounted w).
Proof.
  induction m as [a|err|f k IH|msg err k IH|e k _]; intros [s p t o mt];
    unfold suspended; cbn.
  - now rewrite !app_nil_r.
  - now rewrite !app_nil_r.
  - rewrite IH. reflexivity.
  - rewrite IH. cbn. now rewrite <- app_assoc.
  - reflexivity.
Qed.

Lemma spawn_all_eq (ms : list (Async unit)) : forall w,
  spawn_all ms w =
  mkWorld (sync_state_all ms (st w)) (pending w ++ flat_map suspended ms)
    (timer w) (output w ++ flat_map sync_output ms) (mounted w).
Proof.
  unfold spawn_all, sync_state_all.
  induction ms as [|m ms IH]; intros [s p t o mt]; cbn.
  - now rewrite !app_nil_r.
  - rewrite IH, exec_eq. cbn. now rewrite <- !app_assoc.
Qed.

Lemma spawn_all_app (ms1 ms2 : list (Async unit)) (w : World) :
  spawn_all (ms1 ++ ms2) w = spawn_all ms2 (spawn_all ms1 w).
Proof. unfold spawn_all. apply fold_left_app. Qed.

Lemma run_effects_eq (prev cur : State) (w : World) :
  run_effects prev cur w =
  mkWorld (sync_state_all (effects prev cur) (st w))
    (pending w ++ flat_map suspended (effects prev cur))
    (if page_changed prev cur then Some cur else timer w)
    (output w ++ bracket (page_changed prev cur) ClearInterval
       ++ flat_map sync_output (effects prev cur)
       ++ bracket (page_changed prev cur) (SetInterval interval_ms))
    (mounted w).
Proof.
  unfold run_effects, effects.
  replace (page_changed prev cur || fetchArticles_changed prev cur)%bool
    with (fetchArticles_changed prev cur)
    by (unfold fetchArticles_changed; now destruct (page_changed prev cur)).
  set (E1 := if filters_changed prev cur then effect_filters cur else []).
  set (E2 := if fetchArticles_changed prev cur then effect_page cur else []).
  assert (H1 : forall w0, (if filters_changed prev cur
            then spawn_all (effect_filters cur) w0 else w0) = spawn_all E1 w0).
  { intros. subst E1. now destruct (filters_changed prev cur). }
  assert (H2 : forall w0, (if fetchArticles_changed prev cur
            then spawn_all (effect_page cur) w0 else w0) = spawn_all E2 w0).
  { intros. subst E2. now destruct (fetchArticles_changed prev cur). }
  cbv zeta. rewrite H1, H2, <- spawn_all_app, spawn_all_eq.
  destruct w as [s p t o mt].
  unfold effect_interval, cleanup_interval, with_timer, emit, bracket.
  destruct (page_changed prev cur); cbn [st pending timer output mounted];
    rewrite <- ?app_assoc; cbn [app]; rewrite ?app_nil_r; reflexivity.
Qed.

Lemma effects_eq (prev cur : State) :
  effects prev cur =
  ((if replaces prev cur then [fetchArticles cur true] else [])
   ++ (if appends prev cur then [fetchArticles cur false] else []))%list.
Proof.
  unfold effects, replaces, appends, effect_filters, effect_page.
  destruct (filters_changed prev cur), (fetchArticles_changed prev cur),
    (loading cur), (1 <? page cur); reflexivity.
Qed.

Lemma sync_state_effects (prev cur s : State) :
  sync_state_all (effects prev cur) s =
  if replaces prev cur then begin_replace s else s.
Proof.
  rewrite effects_eq.
  destruct (replaces prev cur), (appends prev cur); reflexivity.
Qed.

Lemma filters_changed_refl (s : State) : filters_changed s s = false.
Proof. unfold filters_changed. now rewrite !String.eqb_refl. Qed.

Lemma page_changed_refl (s : State) : page_changed s s = false.
Proof. unfold page_changed. now rewrite Z.eqb_refl. Qed.

Lemma fetchArticles_changed_refl (s : State) : fetchArticles_changed s s = false.
Proof.
  unfold fetchArticles_changed.
  now rewrite page_changed_refl, filters_changed_refl, String.eqb_refl.
Qed.

Lemma effects_refl (s : State) : effects s s = [].
Proof.
  unfold effects.
  now rewrite filters_changed_refl, fetchArticles_changed_refl.
Qed.

Lemma run_effects_refl (s : State) (w : World) : run_effects s s w = w.
Proof.
  rewrite run_effects_eq, effects_refl, page_changed_refl.
  destruct w; cbn. now rewrite !app_nil_r.
Qed.

Lemma filters_changed_begin (s : State) :
  filters_changed s (begin_replace s) = false.
Proof. unfold filters_changed. cbn. now rewrite !String.eqb_refl. Qed.

(** In the second commit of a step only [page] can have changed, and then
    it is 1: no request goes out. *)
Lemma effects_settled (prev cur : State) :
  effects cur (settled_state prev cur) = [].
Proof.
  unfold settled_state. destruct (replaces prev cur).
  - unfold effects. rewrite filters_changed_begin.
    unfold effect_page. cbn.
    now destruct (fetchArticles_changed _ _).
  - apply effects_refl.
Qed.

Lemma commit_eq (prev : State) (w : World) :
  let cur := st w in
  let cur' := settled_state prev cur in
  commit prev w =
  mkWorld cur'
    (pending w ++ flat_map suspended (effects prev cur))
    (if page_changed cur cur' then Some cur'
     else if page_changed prev cur then Some cur else timer w)
    (output w
       ++ bracket (page_changed prev cur) ClearInterval
       ++ flat_map sync_output (effects prev cur)
       ++ bracket (page_changed prev cur) (SetInterval interval_ms)
       ++ bracket (page_changed cur cur') ClearInterval
       ++ bracket (page_changed cur cur') (SetInterval interval_ms))
    (mounted w).
Proof.
  intros cur cur'. unfold commit.
  rewrite (run_effects_eq prev (st w) w). cbn [st]. fold cur.
  rewrite (sync_state_effects prev cur cur).
  change (if replaces prev cur then begin_replace cur else cur) with cur'.
  rewrite run_effects_eq. cbn [st pending timer output mounted].
  assert (E : effects cur cur' = []) by apply effects_settled.
  rewrite E. cbn [flat_map sync_state_all fold_left]. rewrite !app_nil_r.
  rewrite <- !app_assoc. cbn [app]. reflexivity.
Qed.

(** Two commits settle a step: a third one would run no effect. *)
Lemma commit_quiescent (prev : State) (w : World) :
  let w1 := run_effects prev (st w) w in
  let w2 := commit prev w in
  run_effects (st w1) (st w2) w2 = w2.
Proof.
  cbv zeta.
  assert (E1 : st (run_effects prev (st w) w) = settled_state prev (st w)).
  { rewrite run_effects_eq. cbn [st]. apply sync_state_effects. }
  assert (E2 : st (commit prev w) = settled_state prev (st w)).
  { now rewrite commit_eq. }
  rewrite E1, E2. apply run_effects_refl.
Qed.

Lemma commit_unchanged (prev : State) (w : World) :
  fetchArticles_changed prev (st w) = false -> commit prev w = w.
Proof.
  intros H. rewrite commit_eq.
  unfold fetchArticles_changed in H.
  apply orb_false_iff in H as [H Hf]. apply orb_false_iff in H as [Hp Hs].
  unfold settled_state, replaces, effects, fetchArticles_changed.
  rewrite Hp, Hf, Hs. cbn. rewrite page_changed_refl.
  destruct w; cbn. now rewrite !app_nil_r.
Qed.

Lemma same_deps (s s' : State) :
  page s' = page s -> searchTerm s' = searchTerm s ->
  selectedSource s' = selectedSource s -> selectedHours s' = selectedHours s ->
  fetchArticles_changed s s' = false.
Proof.
  intros Hp Hs Hc Hh.
  unfold fetchArticles_changed, page_changed, filters_changed.
  now rewrite Hp, Hs, Hc, Hh, Z.eqb_refl, !String.eqb_refl.
Qed.

Lemma deliver_eq (w : World) (i : nat) (p : Pending) (r : Reply)
    (o : Settled (endpoint p)) :
  nth_error (pending w) i = Some (Some p) ->
  settled (endpoint p) r = Some o ->
  deliver i r w = exec (resume p o) (with_pending (settle i) w).
Proof. intros Hn Hs. unfold deliver. now rewrite Hn, Hs. Qed.

(** The request a call stops at is in flight in the slot after the last. *)
Lemma in_flight_exec (m : Async unit) (p : Pending) (w : World) :
  first_await m = Some p ->
  nth_error (pending (exec m w)) (List.length (pending w)) = Some (Some p).
Proof.
  intros H. rewrite exec_eq. cbn [pending]. unfold suspended. rewrite H.
  rewrite nth_error_app2 by lia. now rewrite Nat.sub_diag.
Qed.

(** What [mount] sends: the three initial requests, and the interval. *)
Example mount_output :
  output mount
  = [Sent GET_sources; Sent GET_stats;
     Sent (GET_articles (articles_params initial_state true));
     SetInterval interval_ms].
Proof. reflexivity. Qed.

(** A whole call under an oracle is its synchronous prefix followed by the
    whole of what resumes when its request settles as the oracle says: the
    oracle reading iterates [exec] and [deliver]. *)
Lemma requests_unfold (m : Async unit) (oracle : Oracle) :
  requests m oracle
  = match first_await m with
    | Some p => endpoint p :: requests (resume p (oracle (endpoint p))) oracle
    | None => []
    end.
Proof.
  induction m as [a|err|f k IH|msg err k IH|e k _]; cbn; auto.
Qed.

Lemma final_state_unfold (m : Async unit) (oracle : Oracle) : forall s,
  final_state m oracle s
  = match first_await m with
    | Some p =>
        final_state (resume p (oracle (endpoint p))) oracle (sync_state m s)
    | None => sync_state m s
    end.
Proof.
  induction m as [a|err|f k IH|msg err k IH|e k _]; cbn; auto.
Qed.

Lemma states_at_requests_unfold (m : Async unit) (oracle : Oracle) : forall s,
  states_at_requests m oracle s
  = match first_await m with
    | Some p =>
        sync_state m s
        :: states_at_requests (resume p (oracle (endpoint p))) oracle
             (sync_state m s)
    | None => []
    end.
Proof.
  induction m as [a|err|f k IH|msg err k IH|e k _]; cbn; auto.
Qed.

(* ================================================================== *)
(** ** A request of [fetchArticles] settles *)

(** A step that settles a request without touching a dependency of an
    effect: the continuation runs and nothing else happens. *)
Lemma step_deliver_quiet (w : World) (i : nat) (p : Pending) (r : Reply)
    (o : Settled (endpoint p)) :
  mounted w = true ->
  nth_error (pending w) i = Some (Some p) ->
  settled (endpoint p) r = Some o ->
  fetchArticles_changed (st w) (sync_state (resume p o) (st w)) = false ->
  step (Deliver i r) w =
  mkWorld (sync_state (resume p o) (st w))
    (settle i (pending w) ++ suspended (resume p o))
    (timer w) (output w ++ sync_output (resume p o)) true.
Proof.
  intros Hm Hn Hs Hd. unfold step. rewrite Hm. unfold handler.
  rewrite (deliver_eq w i p r o Hn Hs), exec_eq.
  cbn [st pending timer output mounted with_pending].
  rewrite commit_unchanged by exact Hd. now rewrite Hm.
Qed.

Lemma fetchArticles_fulfilled (env : State) (isNewSearch : bool) (w : World)
    (i : nat) (d : ArticlesData) :
  mounted w = true ->
  in_flight w i (fetchArticles env isNewSearch) ->
  step (Deliver i (Articles_ok d)) w =
  mkWorld
    (upd_loading (fun _ => false)
       (upd_hasMore (fun _ => Nat.eqb (List.length (data_articles d)) 20)
          (upd_totalArticles (fun _ => data_total d)
             (upd_articles
                (fun prev => if isNewSearch then data_articles d
                             else (prev ++ data_articles d)%list)
                (st w)))))
    (settle i (pending w)) (timer w) (output w) true.
Proof.
  intros Hm [p [Hp Hn]].
  destruct isNewSearch; cbn in Hp; injection Hp as <-;
    pose proof (fun r o => step_deliver_quiet w i _ r o Hm Hn) as S;
    cbn [endpoint resume] in S;
    (rewrite (S (Articles_ok d) (inl d) eq_refl);
     [cbn; now rewrite !app_nil_r | apply same_deps; reflexivity]).
Qed.

Lemma fetchArticles_rejected (env : State) (isNewSearch : bool) (w : World)
    (i : nat) (err : Error) :
  mounted w = true ->
  in_flight w i (fetchArticles env isNewSearch) ->
  step (Deliver i (Rejected err)) w =
  mkWorld (upd_loading (fun _ => false) (st w))
    (settle i (pending w)) (timer w)
    (output w ++ [Logged "Error fetching articles:" err]) true.
Proof.
  intros Hm [p [Hp Hn]].
  destruct isNewSearch; cbn in Hp; injection Hp as <-;
    pose proof (fun r o => step_deliver_quiet w i _ r o Hm Hn) as S;
    cbn [endpoint resume] in S;
    (rewrite (S (Rejected err) (inr err) eq_refl);
     [cbn; now rewrite !app_nil_r | apply same_deps; reflexivity]).
Qed.

(** The call itself: the synchronous prefix of [fetchArticles]. *)
Lemma exec_fetchArticles (env : State) (isNewSearch : bool) (w : World) :
  exec (fetchArticles env isNewSearch) w =
  mkWorld (if isNewSearch then begin_replace (st w) else st w)
    (pending w ++ suspended (fetchArticles env isNewSearch))
    (timer w)
    (output w ++ [Sent (GET_articles (articles_params env isNewSearch))])
    (mounted w).
Proof. rewrite exec_eq. now destruct isNewSearch. Qed.

Lemma in_flight_fetchArticles (env : State) (isNewSearch : bool) (w : World) :
  in_flight (exec (fetchArticles env isNewSearch) w)
    (List.length (pending w)) (fetchArticles env isNewSearch).
Proof.
  assert (H : exists p, first_await (fetchArticles env isNewSearch) = Some p)
    by (destruct isNewSearch; eexists; reflexivity).
  destruct H as [p Hp]. exists p. split; [exact Hp|].
  now apply in_flight_exec.
Qed.

(** Closed goals about a concrete run are settled by evaluation. *)
Ltac by_computation := vm_compute; reflexivity.

Ltac in_flight_by_computation :=
  eexists; split; [reflexivity | vm_compute; reflexivity].

(** C9.  A replace-fetch sets [loading] and resets [page] to 1 before its
    request is sent; when the request is rejected, [page] stays 1 whatever
    it was before the call, while the article list, the total count and
    [hasMore] are those from before the call. *)
Theorem replace_fetch_failure_keeps_page_reset (env : State) (w : World)
    (err : Error) :
  mounted w = true ->
  let w1 := exec (fetchArticles env true) w in
  let w2 := step (Deliver (List.length (pending w)) (Rejected err)) w1 in
  (page (st w1) = 1 /\ loading (st w1) = true
   /\ in_flight w1 (List.length (pending w)) (fetchArticles env true))
  /\ page (st w2) = 1
  /\ loading (st w2) = false
  /\ articles (st w2) = articles (st w)
  /\ totalArticles (st w2) = totalArticles (st w)
  /\ hasMore (st w2) = hasMore (st w).
Proof.
  intros Hm w1 w2.
  assert (F : in_flight w1 (List.length (pending w)) (fetchArticles env true))
    by apply in_flight_fetchArticles.
  assert (Hm1 : mounted w1 = true)
    by (subst w1; now rewrite exec_fetchArticles).
  split.
  - split; [|split; [|exact F]]; subst w1; now rewrite exec_fetchArticles.
  - subst w2.
    rewrite (fetchArticles_rejected env true w1 _ err Hm1 F).
    subst w1. rewrite exec_fetchArticles. cbn [st].
    repeat split; reflexivity.
Qed.

Lemma replace_fetch_failure_keeps_page_reset_witness :
  let w := run [Deliver 2 (Articles_ok (sample_page 20 57)); ClickLoadMore;
                Deliver 3 (Articles_ok (sample_page 20 57))] mount in
  let w1 := exec (fetchArticles (st w) true) w in
  let w2 := step (Deliver (List.length (pending w)) (Rejected "Network Error"))
              w1 in
  mounted w = true
  /\ page (st w) = 2
  /\ page (st w2) = 1
  /\ List.length (articles (st w2)) = 40%nat.
Proof.
  cbv zeta.
  set (w := run [Deliver 2 (Articles_ok (sample_page 20 57)); ClickLoadMore;
                 Deliver 3 (Articles_ok (sample_page 20 57))] mount).
  assert (M : mounted w = true) by by_computation.
  split; [exact M|]. split; [by_computation|].
  destruct (replace_fetch_failure_keeps_page_reset (st w) w "Network Error" M)
    as (_ & Hp & _ & Ha & _).
  split; [exact Hp|]. rewrite Ha. by_computation.
Defined.

(* ================================================================== *)
(** ** Steps that start a fetch *)

Lemma step_eq (e : Event) (w : World) :
  mounted w = true -> e <> Unmount ->
  step e w = commit (st w) (handler e w).
Proof. intros Hm He. unfold step. rewrite Hm. destruct e; congruence. Qed.

Lemma load_more_button_true (s : State) :
  load_more_button (render s) = true ->
  hasMore s = true /\ loading s = false /\ articles s <> [].
Proof.
  unfold render. cbn. intros H.
  destruct (hasMore s), (loading s), (articles s); cbn in H;
    try discriminate; try (destruct (page s =? 1); discriminate).
  repeat split. discriminate.
Qed.

Lemma filters_changed_same (s s' : State) :
  selectedSource s' = selectedSource s -> selectedHours s' = selectedHours s ->
  filters_changed s s' = false.
Proof.
  intros H1 H2. unfold filters_changed. now rewrite H1, H2, !String.eqb_refl.
Qed.

Lemma step_loadMore (w : World) :
  mounted w = true ->
  load_more_button (render (st w)) = true ->
  1 <= page (st w) ->
  let s' := upd_page (fun prev => prev + 1) (st w) in
  step ClickLoadMore w =
  mkWorld s' (pending w ++ suspended (fetchArticles s' false)) (Some s')
    (output w ++ [ClearInterval;
                  Sent (GET_articles (articles_params s' false));
                  SetInterval interval_ms])
    true.
Proof.
  intros Hm Hb Hp s'.
  rewrite step_eq by (assumption || discriminate).
  unfold handler. rewrite Hb.
  destruct (load_more_button_true _ Hb) as (Hh & Hl & _).
  unfold loadMore. rewrite Hh, Hl. cbn [andb negb].
  rewrite exec_eq. cbn [sync_state setPage sync_output suspended first_await].
  rewrite commit_eq. cbn [st pending timer output mounted]. fold s'.
  assert (Hf : filters_changed (st w) s' = false)
    by (apply filters_changed_same; reflexivity).
  assert (Hpc : page_changed (st w) s' = true).
  { unfold page_changed. cbn. apply negb_true_iff, Z.eqb_neq. lia. }
  assert (Hfa : fetchArticles_changed (st w) s' = true).
  { unfold fetchArticles_changed. now rewrite Hpc. }
  assert (Hs : settled_state (st w) s' = s').
  { unfold settled_state, replaces. now rewrite Hf. }
  assert (He : effects (st w) s' = [fetchArticles s' false]).
  { unfold effects, effect_page. rewrite Hf, Hfa. cbn.
    replace (1 <? page (st w) + 1) with true; [reflexivity|].
    symmetry. apply Z.ltb_lt. lia. }
  rewrite Hs, He, Hpc, page_changed_refl, Hm. cbn.
  now rewrite !app_nil_r.
Qed.

(** A commit after a block that reset [page] to 1 and changed no filter and
    no search text: the interval is restarted if [page] was not 1. *)
Lemma commit_page_reset (prev : State) (w : World) :
  selectedSource (st w) = selectedSource prev ->
  selectedHours (st w) = selectedHours prev ->
  searchTerm (st w) = searchTerm prev ->
  page (st w) = 1 ->
  commit prev w =
  mkWorld (st w) (pending w)
    (if negb (page prev =? 1) then Some (st w) else timer w)
    (output w ++ bracket (negb (page prev =? 1)) ClearInterval
       ++ bracket (negb (page prev =? 1)) (SetInterval interval_ms))
    (mounted w).
Proof.
  intros Hc Hh Hs Hp. rewrite commit_eq. cbv zeta.
  assert (Hf : filters_changed prev (st w) = false)
    by now apply filters_changed_same.
  assert (Hpc : page_changed prev (st w) = negb (page prev =? 1))
    by (unfold page_changed; now rewrite Hp).
  assert (Hset : settled_state prev (st w) = st w)
    by (unfold settled_state, replaces; now rewrite Hf).
  assert (He : effects prev (st w) = []).
  { unfold effects, effect_page. rewrite Hf, Hp. cbn.
    now destruct (fetchArticles_changed prev (st w)). }
  rewrite Hset, He, Hpc, page_changed_refl. cbn [flat_map bracket app].
  destruct (negb (page prev =? 1)); cbn; now rewrite ?app_nil_r.
Qed.

(** A commit after the source or the recency selection changed, with
    [loading] false: the filter effect calls [fetchArticles(true)], and the
    page effect, whose dependency [fetchArticles] is new, calls
    [fetchArticles()] if [page] is beyond 1. *)
Lemma commit_filters_changed (prev : State) (w : World) :
  filters_changed prev (st w) = true ->
  loading (st w) = false ->
  page (st w) = page prev ->
  let cur := st w in
  let restart := negb (page cur =? 1) in
  commit prev w =
  mkWorld (begin_replace cur)
    (pending w ++ suspended (fetchArticles cur true)
       ++ (if 1 <? page cur then suspended (fetchArticles cur false) else []))
    (if restart then Some (begin_replace cur) else timer w)
    (output w ++ Sent (GET_articles (articles_params cur true))
       :: (if 1 <? page cur
           then [Sent (GET_articles (articles_params cur false))] else [])
       ++ bracket restart ClearInterval
       ++ bracket restart (SetInterval interval_ms))
    (mounted w).
Proof.
  intros Hf Hl Hp cur restart. rewrite commit_eq. cbv zeta. fold cur.
  assert (Hpc : page_changed prev cur = false)
    by (unfold page_changed; subst cur; now rewrite Hp, Z.eqb_refl).
  assert (Hfa : fetchArticles_changed prev cur = true)
    by (unfold fetchArticles_changed; subst cur; rewrite Hf;
        now rewrite !orb_true_r).
  assert (Hset : settled_state prev cur = begin_replace cur)
    by (unfold settled_state, replaces; subst cur; now rewrite Hf, Hl).
  assert (He : effects prev cur
               = (fetchArticles cur true
                  :: (if 1 <? page cur then [fetchArticles cur false] else []))).
  { unfold effects, effect_filters, effect_page. subst cur.
    now rewrite Hf, Hfa, Hl. }
  rewrite Hset, He, Hpc.
  assert (Hpc2 : page_changed cur (begin_replace cur) = restart) by reflexivity.
  rewrite Hpc2. cbn [bracket app flat_map].
  destruct (1 <? page cur); cbn; rewrite ?app_nil_r; reflexivity.
Qed.

Lemma step_triggers_replace (e : Event) (w : World) :
  mounted w = true ->
  triggers_replace w e ->
  let env := closure_env e w in
  let extra := match e with SubmitSearch => false | _ => 1 <? page (st w) end in
  let restart := negb (page (st w) =? 1) in
  step e w =
  mkWorld (begin_replace env)
    (pending w ++ suspended (fetchArticles env true)
       ++ (if extra then suspended (fetchArticles env false) else []))
    (if restart then Some (begin_replace env) else timer w)
    (output w ++ Sent (GET_articles (articles_params env true))
       :: (if extra
           then [Sent (GET_articles (articles_params env false))] else [])
       ++ bracket restart ClearInterval
       ++ bracket restart (SetInterval interval_ms))
    true.
Proof.
  intros Hm Ht.
  destruct e; cbn in Ht; try contradiction; cbv zeta;
    (rewrite step_eq by (assumption || discriminate));
    unfold handler, closure_env.
  - destruct Ht as [Hl Hne].
    rewrite exec_eq. cbn [sync_state setSelectedSource sync_output suspended first_await].
    rewrite commit_filters_changed; cbn [st pending timer output mounted].
    + now rewrite Hm, !app_nil_r.
    + unfold filters_changed. cbn.
      apply orb_true_iff. left. apply negb_true_iff, String.eqb_neq. congruence.
    + exact Hl.
    + reflexivity.
  - destruct Ht as [Hl Hne].
    rewrite exec_eq. cbn [sync_state setSelectedHours sync_output suspended first_await].
    rewrite commit_filters_changed; cbn [st pending timer output mounted].
    + now rewrite Hm, !app_nil_r.
    + unfold filters_changed. cbn.
      apply orb_true_iff. right. apply negb_true_iff, String.eqb_neq. congruence.
    + exact Hl.
    + reflexivity.
  - unfold handleSearch, spawn_all. cbn [fold_left].
    rewrite exec_fetchArticles.
    rewrite commit_page_reset; cbn [st pending timer output mounted];
      try reflexivity.
    rewrite Hm, <- !app_assoc. reflexivity.
Qed.

Lemma suspended_fetchArticles (env : State) (isNewSearch : bool) :
  exists p, suspended (fetchArticles env isNewSearch) = [Some p]
            /\ first_await (fetchArticles env isNewSearch) = Some p.
Proof. destruct isNewSearch; eexists; split; reflexivity. Qed.

Lemma in_flight_app (m : Async unit) (l rest : list (option Pending))
    (w : World) :
  (exists p, suspended m = [Some p] /\ first_await m = Some p) ->
  pending w = (l ++ suspended m ++ rest)%list ->
  in_flight w (List.length l) m.
Proof.
  intros (p & Hs & Hp) Hw. exists p. split; [exact Hp|].
  rewrite Hw, Hs, nth_error_app2 by lia. now rewrite Nat.sub_diag.
Qed.

(** C1, as the code has it.  After a submitted search, and after a change
    of the selected source or recency window made while [loading] is false,
    [page] is 1 and [loading] is set, the first request sent is a
    [GET /articles] with [page] 1 built from the new selection, the list is
    untouched until that request settles, and when it is fulfilled the
    list is the returned page. *)
Theorem filter_change_replace_fetch (e : Event) (w : World)
    (d : ArticlesData) :
  mounted w = true ->
  triggers_replace w e ->
  let env := closure_env e w in
  let w1 := step e w in
  let i := List.length (pending w) in
  let w2 := step (Deliver i (Articles_ok d)) w1 in
  page (st w1) = 1
  /\ loading (st w1) = true
  /\ (selectedSource (st w1) = selectedSource env
      /\ selectedHours (st w1) = selectedHours env
      /\ searchTerm (st w1) = searchTerm env)
  /\ in_flight w1 i (fetchArticles env true)
  /\ (exists rest,
        output w1 = (output w ++ Sent (GET_articles (articles_params env true))
                       :: rest)%list)
  /\ JS.get (articles_params env true) "page" = JS.VNumber (JS.Num 1)
  /\ articles (st w1) = articles (st w)
  /\ articles (st w2) = data_articles d
  /\ page (st w2) = 1
  /\ (forall w' j,
        mounted w' = true -> in_flight w' j (fetchArticles env true) ->
        articles (st (step (Deliver j (Articles_ok d)) w')) = data_articles d).
Proof.
  intros Hm Ht env w1 i w2.
  assert (G : forall w' j,
             mounted w' = true -> in_flight w' j (fetchArticles env true) ->
             articles (st (step (Deliver j (Articles_ok d)) w'))
             = data_articles d).
  { intros w' j Hm' F'.
    now rewrite (fetchArticles_fulfilled env true w' j d Hm' F'). }
  pose proof (step_triggers_replace e w Hm Ht) as S. cbv zeta in S.
  fold env in S. fold w1 in S.
  assert (F : in_flight w1 i (fetchArticles env true)).
  { eapply in_flight_app; [apply suspended_fetchArticles|].
    rewrite S. reflexivity. }
  assert (Hm1 : mounted w1 = true) by now rewrite S.
  assert (Hst : st w1 = begin_replace env) by now rewrite S.
  assert (Hart : articles (st w1) = articles (st w)).
  { rewrite Hst. cbn. unfold env, closure_env. now destruct e. }
  assert (Hout : exists rest,
             output w1
             = (output w ++ Sent (GET_articles (articles_params env true))
                  :: rest)%list)
    by (rewrite S; eexists; reflexivity).
  subst w2. rewrite (fetchArticles_fulfilled env true w1 i d Hm1 F).
  cbn [st]. rewrite Hst in *. clear S.
  split; [reflexivity|]. split; [reflexivity|].
  split; [repeat split|]. split; [exact F|]. split; [exact Hout|].
  split; [rewrite articles_params_eq; reflexivity|].
  split; [exact Hart|]. split; [reflexivity|]. split; [reflexivity|].
  exact G.
Qed.

Lemma filter_change_replace_fetch_witness :
  let w := run [Deliver 2 (Articles_ok (sample_page 20 57)); ClickLoadMore;
                Deliver 3 (Articles_ok (sample_page 20 57))] mount in
  let w1 := step (SelectSource "techcrunch") w in
  let w2 := step (Deliver (List.length (pending w))
                    (Articles_ok (sample_page 5 5))) w1 in
  mounted w = true
  /\ triggers_replace w (SelectSource "techcrunch")
  /\ page (st w) = 2
  /\ List.length (articles (st w)) = 40%nat
  /\ page (st w1) = 1
  /\ articles (st w2) = data_articles (sample_page 5 5).
Proof.
  cbv zeta.
  set (w := run [Deliver 2 (Articles_ok (sample_page 20 57)); ClickLoadMore;
                 Deliver 3 (Articles_ok (sample_page 20 57))] mount).
  assert (M : mounted w = true) by by_computation.
  assert (T : triggers_replace w (SelectSource "techcrunch"))
    by (split; [by_computation | vm_compute; discriminate]).
  split; [exact M|]. split; [exact T|].
  split; [by_computation|]. split; [by_computation|].
  destruct (filter_change_replace_fetch (SelectSource "techcrunch") w
              (sample_page 5 5) M T)
    as (Hp & _ & _ & _ & _ & _ & _ & Ha & _).
  split; [exact Hp | exact Ha].
Defined.

(** C1 as stated fails: a change of the selected source made while
    [loading] is true (here, during the initial load) sends nothing, and
    nothing is sent for it when the load completes either. *)
Lemma filter_change_while_loading_sends_nothing :
  ~ (forall (w : World) (src : string),
        Reachable w -> mounted w = true -> src <> selectedSource (st w) ->
        exists q rest,
          output (step (SelectSource src) w)
          = (output w ++ Sent (GET_articles q) :: rest)%list).
Proof.
  intros H.
  assert (M : mounted mount = true) by by_computation.
  assert (N : "techcrunch" <> selectedSource (st mount))
    by (vm_compute; discriminate).
  destruct (H mount "techcrunch" reach_mount M N) as (q & rest & E).
  apply (f_equal (@List.length Output)) in E.
  vm_compute in E. discriminate.
Qed.

Lemma load_more_from_page (w : World) (d : ArticlesData) :
  mounted w = true ->
  load_more_button (render (st w)) = true ->
  1 <= page (st w) ->
  let w1 := step ClickLoadMore w in
  let i := List.length (pending w) in
  let w2 := step (Deliver i (Articles_ok d)) w1 in
  page (st w1) = page (st w) + 1
  /\ in_flight w1 i (fetchArticles (st w1) false)
  /\ output w1 = (output w
                  ++ [ClearInterval;
                      Sent (GET_articles (articles_params (st w1) false));
                      SetInterval interval_ms])%list
  /\ JS.get (articles_params (st w1) false) "page"
     = JS.VNumber (JS.Num (page (st w) + 1))
  /\ articles (st w1) = articles (st w)
  /\ articles (st w2) = (articles (st w) ++ data_articles d)%list
  /\ List.length (articles (st w2))
     = (List.length (articles (st w)) + List.length (data_articles d))%nat
  /\ (forall w' j,
        mounted w' = true -> in_flight w' j (fetchArticles (st w1) false) ->
        articles (st (step (Deliver j (Articles_ok d)) w'))
        = (articles (st w') ++ data_articles d)%list).
Proof.
  intros Hm Hb Hp w1 i w2.
  assert (G : forall w' j,
             mounted w' = true ->
             in_flight w' j (fetchArticles (st w1) false) ->
             articles (st (step (Deliver j (Articles_ok d)) w'))
             = (articles (st w') ++ data_articles d)%list).
  { intros w' j Hm' F'.
    now rewrite (fetchArticles_fulfilled (st w1) false w' j d Hm' F'). }
  pose proof (step_loadMore w Hm Hb Hp) as S. cbv zeta in S. fold w1 in S.
  assert (Hst : st w1 = upd_page (fun prev => prev + 1) (st w))
    by now rewrite S.
  assert (F : in_flight w1 i (fetchArticles (st w1) false)).
  { apply in_flight_app with (rest := []);
      [apply suspended_fetchArticles|].
    rewrite Hst, S, app_nil_r. reflexivity. }
  assert (Hm1 : mounted w1 = true) by now rewrite S.
  split; [now rewrite Hst|]. split; [exact F|].
  split; [rewrite Hst, S; reflexivity|].
  split; [rewrite articles_params_eq, Hst; reflexivity|].
  split; [now rewrite Hst|].
  subst w2. rewrite (fetchArticles_fulfilled (st w1) false w1 i d Hm1 F).
  cbn [st articles upd_articles upd_loading upd_hasMore upd_totalArticles].
  refine (conj _ (conj _ G)); rewrite Hst; cbn [articles upd_page];
    [reflexivity | apply length_app].
Qed.

(** *** [loadMore] and its guard *)

Lemma loadMore_guard (env s : State) :
  sync_state (loadMore env) s
  = (if (hasMore env && negb (loading env))%bool
     then upd_page (fun prev => prev + 1) s else s)
  /\ first_await (loadMore env) = None
  /\ sync_output (loadMore env) = [].
Proof.
  unfold loadMore. now destruct (hasMore env && negb (loading env))%bool.
Qed.

Lemma load_more_noop (w : World) :
  mounted w = true ->
  hasMore (st w) = false \/ loading (st w) = true ->
  step ClickLoadMore w = w.
Proof.
  intros Hm H. rewrite step_eq by (assumption || discriminate).
  unfold handler.
  assert (Hb : load_more_button (render (st w)) = false).
  { unfold render. cbn. destruct H as [-> | ->]; cbn.
    - now rewrite andb_false_r.
    - now rewrite !andb_false_r. }
  rewrite Hb. apply commit_unchanged, fetchArticles_changed_refl.
Qed.

(** C4 fails on the code: with an append-fetch in flight [loading] is
    false, the button is shown, and a second click increments [page] again
    and sends a second request. *)
Theorem loadMore_during_append_fetch :
  let w := run [Deliver 2 (Articles_ok (sample_page 20 57)); ClickLoadMore]
             mount in
  let w' := step ClickLoadMore w in
  in_flight w 3 (fetchArticles (st w) false)
  /\ loading (st w) = false
  /\ hasMore (st w) = true
  /\ load_more_button (render (st w)) = true
  /\ page (st w) = 2
  /\ page (st w') = 3
  /\ in_flight w' 3 (fetchArticles (st w) false)
  /\ in_flight w' 4 (fetchArticles (st w') false)
  /\ output w' = (output w
                  ++ [ClearInterval;
                      Sent (GET_articles (articles_params (st w') false));
                      SetInterval interval_ms])%list.
Proof.
  cbv zeta.
  split; [in_flight_by_computation|].
  do 5 (split; [by_computation|]).
  split; [in_flight_by_computation|].
  split; [in_flight_by_computation | by_computation].
Qed.

(* ================================================================== *)
(** ** The whole transition system *)

Lemma world_eta (w : World) :
  w = mkWorld (st w) (pending w) (timer w) (output w) (mounted w).
Proof. now destruct w. Qed.

Lemma handler_eq (e : Event) (w : World) :
  handler e w =
  mkWorld (sync_state_all (calls e w) (st w))
    (settles e w (pending w) ++ flat_map suspended (calls e w))
    (timer w) (output w ++ flat_map sync_output (calls e w)) (mounted w).
Proof.
  assert (N : w = mkWorld (sync_state_all [] (st w))
                (pending w ++ flat_map suspended []) (timer w)
                (output w ++ flat_map sync_output []) (mounted w)).
  { cbn. rewrite !app_nil_r. apply world_eta. }
  assert (O : forall m, exec m w = spawn_all [m] w) by reflexivity.
  destruct e; unfold handler, calls, settles; rewrite ?O;
    try apply spawn_all_eq; try exact N.
  - destruct (refresh_disabled (render (st w)));
      [exact N | apply spawn_all_eq].
  - destruct (load_more_button (render (st w)));
      [apply spawn_all_eq | exact N].
  - destruct (timer w) as [cl|] eqn:T;
      [rewrite spawn_all_eq; now rewrite T | exact N].
  - unfold deliver.
    destruct (nth_error (pending w) i) as [[p|]|]; try exact N.
    destruct (settled (endpoint p) r) as [o|]; try exact N.
    change (exec (resume p o) (with_pending (settle i) w))
      with (spawn_all [resume p o] (with_pending (settle i) w)).
    rewrite spawn_all_eq. reflexivity.
Qed.

Lemma step_closed_form (e : Event) (w : World) :
  mounted w = true -> e <> Unmount ->
  let cur := sync_state_all (calls e w) (st w) in
  let cur' := settled_state (st w) cur in
  step e w =
  mkWorld cur'
    (settles e w (pending w) ++ flat_map suspended (calls e w)
       ++ flat_map suspended (effects (st w) cur))
    (if page_changed cur cur' then Some cur'
     else if page_changed (st w) cur then Some cur else timer w)
    (output w ++ flat_map sync_output (calls e w)
       ++ bracket (page_changed (st w) cur) ClearInterval
       ++ flat_map sync_output (effects (st w) cur)
       ++ bracket (page_changed (st w) cur) (SetInterval interval_ms)
       ++ bracket (page_changed cur cur') ClearInterval
       ++ bracket (page_changed cur cur') (SetInterval interval_ms))
    true.
Proof.
  intros Hm He cur cur'. rewrite step_eq by assumption.
  rewrite commit_eq, handler_eq. cbn [st pending timer output mounted].
  fold cur. fold cur'. rewrite Hm, <- !app_assoc. reflexivity.
Qed.

(** After the unmount a step is the synchronous block of a continuation, or
    nothing at all; there is no commit. *)
Lemma step_unmounted (e : Event) (w : World) :
  mounted w = false ->
  step e w = w
  \/ step e w =
     mkWorld (sync_state_all (calls e w) (st w))
       (settles e w (pending w) ++ flat_map suspended (calls e w))
       (timer w) (output w ++ flat_map sync_output (calls e w)) false.
Proof.
  intros Hm. unfold step. rewrite Hm. destruct e; try (now left).
  right. change (deliver i r w) with (handler (Deliver i r) w).
  now rewrite handler_eq, Hm.
Qed.

(** ** Properties of a call, block by block *)

Section Blocks.

Variable R : State -> State -> Prop.

Lemma blocks_sync (m : Async unit) :
  forall acc, blocks R acc m -> forall s, R s (sync_state m (acc s)).
Proof.
  induction m as [a|err|f k IH|msg err k IH|e k _]; cbn; intros acc H s.
  - apply H.
  - apply H.
  - apply (IH (fun s => f (acc s)) H).
  - apply (IH acc H).
  - apply H.
Qed.

Lemma blocks_next (m : Async unit) :
  forall acc p, blocks R acc m -> first_await m = Some p ->
  forall o, blocks R (fun s => s) (resume p o).
Proof.
  induction m as [a|err|f k IH|msg err k IH|e k _]; cbn; intros acc p H E;
    try discriminate.
  - eapply IH; eassumption.
  - eapply IH; eassumption.
  - injection E as <-. apply H.
Qed.

(** What holds of the blocks of the calls in [P] holds of the blocks that
    run when one of their requests settles. *)
Lemma blocks_issued (P : Async unit -> Prop) (p : Pending) :
  (forall m, P m -> blocks R (fun s => s) m) ->
  IssuedFrom P p ->
  forall o, blocks R (fun s => s) (resume p o).
Proof.
  intros HP. induction 1 as [m p Hm Hp | p o p' _ IH Hp].
  - eapply blocks_next; [apply HP|]; eassumption.
  - eapply blocks_next; [apply IH | exact Hp].
Qed.

End Blocks.

Section Awaits.

Variable Q : forall e : Endpoint, (Settled e -> Async unit) -> Prop.

Lemma awaits_next (m : Async unit) (p : Pending) :
  awaits Q m -> first_await m = Some p ->
  Q (endpoint p) (resume p) /\ forall o, awaits Q (resume p o).
Proof.
  induction m as [a|err|f k IH|msg err k IH|e k _]; cbn; intros H E;
    try discriminate; auto.
  injection E as <-. exact H.
Qed.

Lemma issued_awaits (P : Async unit -> Prop) (p : Pending) :
  (forall m, P m -> awaits Q m) -> IssuedFrom P p ->
  Q (endpoint p) (resume p) /\ forall o, awaits Q (resume p o).
Proof.
  intros HP. induction 1 as [m p Hm Hp | p o p' _ IH Hp].
  - eapply awaits_next; [apply HP|]; eassumption.
  - eapply awaits_next; [apply IH | exact Hp].
Qed.

End Awaits.

Lemma finishes_sync (m : Async unit) :
  forall acc, finishes acc m -> forall s,
  refreshing (sync_state m (acc s))
  = match first_await m with Some _ => refreshing s | None => false end.
Proof.
  induction m as [a|err|f k IH|msg err k IH|e k _]; cbn; intros acc H s.
  - apply H.
  - apply H.
  - apply (IH (fun s => f (acc s)) H).
  - apply (IH acc H).
  - apply H.
Qed.

Lemma finishes_next (m : Async unit) :
  forall acc p, finishes acc m -> first_await m = Some p ->
  forall o, finishes (fun s => s) (resume p o).
Proof.
  induction m as [a|err|f k IH|msg err k IH|e k _]; cbn; intros acc p H E;
    try discriminate.
  - eapply IH; eassumption.
  - eapply IH; eassumption.
  - injection E as <-. apply H.
Qed.

(** A program cannot both keep [refreshing] and end by clearing it. *)
Lemma keeps_not_finishes (m : Async unit) :
  forall acc, (exists s, refreshing s = true) ->
  blocks keeps_refreshing acc m -> finishes acc m -> False.
Proof.
  induction m as [a|err|f k IH|msg err k IH|e k IH]; cbn;
    intros acc [s0 Hs0] B F.
  - specialize (B s0). specialize (F s0). unfold keeps_refreshing in B. congruence.
  - specialize (B s0). specialize (F s0). unfold keeps_refreshing in B. congruence.
  - eapply IH; eauto.
  - eapply IH; eauto.
  - destruct B as [_ B], F as [_ F].
    eapply (IH (inr "")); eauto.
Qed.

(** ** The interval *)

Lemma intervals_started_app (l1 l2 : list Output) :
  intervals_started (l1 ++ l2)
  = (intervals_started l1 + intervals_started l2)%nat.
Proof. unfold intervals_started. now rewrite filter_app, length_app. Qed.

Lemma intervals_cleared_app (l1 l2 : list Output) :
  intervals_cleared (l1 ++ l2)
  = (intervals_cleared l1 + intervals_cleared l2)%nat.
Proof. unfold intervals_cleared. now rewrite filter_app, length_app. Qed.

Lemma sync_output_no_interval (m : Async unit) :
  intervals_started (sync_output m) = 0%nat
  /\ intervals_cleared (sync_output m) = 0%nat.
Proof.
  induction m as [a|err|f k IH|msg err k IH|e k _]; cbn; auto.
Qed.

Lemma calls_no_interval (ms : list (Async unit)) :
  intervals_started (flat_map sync_output ms) = 0%nat
  /\ intervals_cleared (flat_map sync_output ms) = 0%nat.
Proof.
  induction ms as [|m ms [IH1 IH2]]; cbn [flat_map]; [auto|].
  rewrite intervals_started_app, intervals_cleared_app, IH1, IH2.
  destruct (sync_output_no_interval m) as [-> ->]. auto.
Qed.

Lemma page_changed_false (s s' : State) :
  page_changed s s' = false -> page s = page s'.
Proof.
  unfold page_changed. intros H. apply negb_false_iff in H.
  now apply Z.eqb_eq.
Qed.

Lemma timer_ok_mount : timer_ok mount.
Proof. split; [exists initial_state; split; reflexivity | reflexivity]. Qed.

Lemma timer_ok_step (e : Event) (w : World) :
  timer_ok w -> timer_ok (step e w).
Proof.
  intros [Ht Hc]. destruct (mounted w) eqn:Hm.
  2:{ destruct (step_unmounted e w Hm) as [-> | ->];
        [split; now rewrite Hm|].
      unfold timer_ok. cbn [timer output mounted]. split; [exact Ht|].
      rewrite intervals_started_app, intervals_cleared_app.
      destruct (calls_no_interval (calls e w)) as [-> ->]. lia. }
  destruct Ht as (cl & Ht & Hp).
  assert (D : e = Unmount \/ e <> Unmount)
    by (destruct e; (now left) || (right; discriminate)).
  destruct D as [-> | He].
  - unfold step. rewrite Hm.
    unfold timer_ok, unmount, cleanup_interval, with_timer, emit.
    cbn [st pending timer output mounted].
    split; [reflexivity|].
    rewrite intervals_started_app, intervals_cleared_app, Hc. cbn. lia.
  - rewrite step_closed_form by assumption. cbv zeta.
    set (cur := sync_state_all (calls e w) (st w)).
    set (cur' := settled_state (st w) cur).
    unfold timer_ok. cbn [st timer output mounted]. split.
    + destruct (page_changed cur cur') eqn:P2.
      * eexists; split; reflexivity.
      * apply page_changed_false in P2.
        destruct (page_changed (st w) cur) eqn:P1.
        -- exists cur; split; [reflexivity | exact P2].
        -- apply page_changed_false in P1. exists cl. split; [exact Ht|].
           congruence.
    + rewrite !intervals_started_app, !intervals_cleared_app, Hc.
      destruct (calls_no_interval (calls e w)) as [-> ->].
      destruct (calls_no_interval (effects (st w) cur)) as [-> ->].
      destruct (page_changed cur cur'), (page_changed (st w) cur); cbn; lia.
Qed.

Lemma reachable_timer_ok (w : World) : Reachable w -> timer_ok w.
Proof.
  induction 1 as [|e w _ IH]; [apply timer_ok_mount | now apply timer_ok_step].
Qed.

Lemma step_tick (w : World) (closure : State) :
  mounted w = true -> timer w = Some closure -> page closure = page (st w) ->
  step Tick w =
  mkWorld (if page (st w) =? 1 then begin_replace (st w) else st w)
    (pending w ++ suspended fetchStats
       ++ (if page (st w) =? 1
           then suspended (fetchArticles closure true) else []))
    (Some closure)
    (output w ++ Sent GET_stats
       :: (if page (st w) =? 1
           then [Sent (GET_articles (articles_params closure true))] else []))
    true.
Proof.
  intros Hm Ht Hp. rewrite step_eq by (assumption || discriminate).
  unfold handler. rewrite Ht. unfold interval_callback. rewrite Hp.
  rewrite spawn_all_eq.
  destruct (page (st w) =? 1) eqn:E.
  - apply Z.eqb_eq in E.
    rewrite commit_page_reset; cbn [st pending timer output mounted];
      try reflexivity.
    rewrite E. cbn. rewrite Hm, ?app_nil_r, ?Ht. reflexivity.
  - rewrite commit_unchanged; cbn [st pending timer output mounted].
    + now rewrite Hm, Ht.
    + apply fetchArticles_changed_refl.
Qed.

Lemma reachable_run (es : list Event) : forall w,
  Reachable w -> Reachable (run es w).
Proof.
  induction es as [|e es IH]; intros w H; [exact H|].
  apply IH. now constructor.
Qed.

Lemma interval_restarts_on_page_change (e : Event) (w : World) :
  mounted w = true -> e <> Unmount ->
  page (st (step e w)) <> page (st w) ->
  exists l, output (step e w) = (output w ++ l)%list
            /\ In ClearInterval l /\ In (SetInterval interval_ms) l.
Proof.
  intros Hm He. rewrite step_closed_form by assumption. cbv zeta.
  set (cur := sync_state_all (calls e w) (st w)).
  set (cur' := settled_state (st w) cur).
  cbn [st output]. intros Hp.
  eexists. split; [reflexivity|].
  rewrite !in_app_iff.
  destruct (page_changed (st w) cur) eqn:P1;
    [cbn [bracket In]; intuition auto|].
  destruct (page_changed cur cur') eqn:P2;
    [cbn [bracket In]; intuition auto|].
  apply page_changed_false in P1, P2. congruence.
Qed.

(** What a call of [fetchStats] made for itself does when its request
    settles. *)
Lemma fetchStats_fulfilled (w : World) (i : nat) (x : Stats) :
  mounted w = true ->
  in_flight w i fetchStats ->
  step (Deliver i (Stats_ok x)) w =
  mkWorld (upd_stats (fun _ => Some x) (st w))
    (settle i (pending w)) (timer w) (output w) true.
Proof.
  intros Hm [p [Hp Hn]]. cbn in Hp. injection Hp as <-.
  pose proof (fun r o => step_deliver_quiet w i _ r o Hm Hn) as S.
  cbn [endpoint resume] in S.
  rewrite (S (Stats_ok x) (inl x) eq_refl);
    [cbn; now rewrite !app_nil_r | apply same_deps; reflexivity].
Qed.

Lemma fetchStats_rejected (w : World) (i : nat) (err : Error) :
  mounted w = true ->
  in_flight w i fetchStats ->
  step (Deliver i (Rejected err)) w =
  mkWorld (st w) (settle i (pending w)) (timer w)
    (output w ++ [Logged "Error fetching stats:" err]) true.
Proof.
  intros Hm [p [Hp Hn]]. cbn in Hp. injection Hp as <-.
  pose proof (fun r o => step_deliver_quiet w i _ r o Hm Hn) as S.
  cbn [endpoint resume] in S.
  rewrite (S (Rejected err) (inr err) eq_refl);
    [cbn; now rewrite !app_nil_r | apply same_deps; reflexivity].
Qed.

(** After the unmount no step starts an interval. *)
Lemma unmounted_step (e : Event) (w : World) :
  mounted w = false ->
  mounted (step e w) = false
  /\ timer (step e w) = timer w
  /\ intervals_started (output (step e w)) = intervals_started (output w).
Proof.
  intros Hm. destruct (step_unmounted e w Hm) as [-> | ->]; [auto|].
  cbn [mounted timer output]. repeat split.
  rewrite intervals_started_app.
  destruct (calls_no_interval (calls e w)) as [-> _]. lia.
Qed.

Lemma unmounted_run (es : list Event) : forall w,
  mounted w = false ->
  mounted (run es w) = false
  /\ timer (run es w) = timer w
  /\ intervals_started (output (run es w)) = intervals_started (output w).
Proof.
  induction es as [|e es IH]; intros w Hm; [auto|].
  destruct (unmounted_step e w Hm) as (H1 & H2 & H3).
  destruct (IH (step e w) H1) as (I1 & I2 & I3).
  change (run (e :: es) w) with (run es (step e w)).
  split; [exact I1|]. split; [now rewrite I2 | now rewrite I3].
Qed.

(** C7, as the code has it.  The interval has a period of 5 minutes and is
    started at mount.  While the component is mounted exactly one interval is
    active: the effect that starts it depends on [page], so every step that
    changes [page] cancels it and starts a new one, whose callback reads the
    new page.  A tick always calls [fetchStats], whose response becomes the
    statistics shown, and, exactly when the current page is 1, also calls
    [fetchArticles(true)]: [loading] is set, a [GET /articles] with [page] 1
    is sent, and its response replaces the list.  On another page the tick
    does nothing else.  Unmounting cancels the interval, and none is started
    afterwards, whatever still settles. *)
Theorem polling_interval (w : World) :
  Reachable w -> mounted w = true ->
  interval_ms = 5 * 60 * 1000
  /\ output mount
     = [Sent GET_sources; Sent GET_stats;
        Sent (GET_articles (articles_params initial_state true));
        SetInterval interval_ms]
  /\ intervals_started (output w) = S (intervals_cleared (output w))
  /\ (forall e, e <> Unmount -> page (st (step e w)) <> page (st w) ->
      exists l, output (step e w) = (output w ++ l)%list
                /\ In ClearInterval l /\ In (SetInterval interval_ms) l)
  /\ (exists closure,
        timer w = Some closure
        /\ page closure = page (st w)
        /\ step Tick w
           = mkWorld
               (if page (st w) =? 1 then begin_replace (st w) else st w)
               (pending w ++ suspended fetchStats
                  ++ (if page (st w) =? 1
                      then suspended (fetchArticles closure true) else []))
               (Some closure)
               (output w ++ Sent GET_stats
                  :: (if page (st w) =? 1
                      then [Sent (GET_articles (articles_params closure true))]
                      else []))
               true
        /\ output (step Tick w)
           = (output w ++ Sent GET_stats
                :: (if page (st w) =? 1
                    then [Sent (GET_articles (articles_params closure true))]
                    else []))%list
        /\ JS.get (articles_params closure true) "page"
           = JS.VNumber (JS.Num 1)
        /\ in_flight (step Tick w) (List.length (pending w)) fetchStats
        /\ (page (st w) = 1 ->
            in_flight (step Tick w) (S (List.length (pending w)))
              (fetchArticles closure true)
            /\ loading (st (step Tick w)) = true
            /\ page (st (step Tick w)) = 1)
        /\ (page (st w) <> 1 ->
            st (step Tick w) = st w
            /\ pending (step Tick w) = (pending w ++ suspended fetchStats)%list)
        /\ (forall w' j d,
              mounted w' = true ->
              in_flight w' j (fetchArticles closure true) ->
              step (Deliver j (Articles_ok d)) w'
              = mkWorld (fulfilled_state true d (st w'))
                  (settle j (pending w')) (timer w') (output w') true))
  /\ (forall w' j x,
        mounted w' = true -> in_flight w' j fetchStats ->
        step (Deliver j (Stats_ok x)) w'
        = mkWorld (upd_stats (fun _ => Some x) (st w'))
            (settle j (pending w')) (timer w') (output w') true)
  /\ timer (step Unmount w) = None
  /\ output (step Unmount w) = (output w ++ [ClearInterval])%list
  /\ (forall es,
        let w' := run es (step Unmount w) in
        mounted w' = false
        /\ timer w' = None
        /\ intervals_started (output w') = intervals_started (output w)
        /\ step Tick w' = w').
Proof.
  intros Hr Hm.
  destruct (reachable_timer_ok w Hr) as [Ht Hc]. rewrite Hm in Ht, Hc.
  destruct Ht as (cl & Ht & Hp).
  split; [reflexivity|]. split; [reflexivity|]. split; [rewrite Hc; lia|].
  split; [intros e He; now apply interval_restarts_on_page_change|].
  assert (U : step Unmount w = unmount w)
    by (unfold step; now rewrite Hm).
  split; [|split; [|split; [|split]]].
  - exists cl. pose proof (step_tick w cl Hm Ht Hp) as T.
    assert (Fs : exists p, suspended fetchStats = [Some p]
                           /\ first_await fetchStats = Some p)
      by (eexists; split; reflexivity).
    split; [exact Ht|]. split; [exact Hp|]. split; [exact T|].
    split; [now rewrite T|].
    split; [rewrite articles_params_eq; reflexivity|].
    split; [|split; [|split]].
    + apply (in_flight_app fetchStats (pending w)
               (if page (st w) =? 1
                then suspended (fetchArticles cl true) else []) _ Fs).
      now rewrite T.
    + intros P1. rewrite P1 in T. cbn [Z.eqb Pos.eqb] in T.
      split; [|split; now rewrite T].
      destruct Fs as (q & Sq & _).
      assert (E : S (List.length (pending w))
                  = List.length (pending w ++ suspended fetchStats)).
      { rewrite Sq, length_app. cbn. lia. }
      rewrite E. apply (in_flight_app _ _ []);
        [apply suspended_fetchArticles|].
      rewrite T. cbn [pending]. now rewrite app_nil_r, <- app_assoc.
    + intros P1. apply Z.eqb_neq in P1. rewrite P1 in T.
      split; rewrite T; cbn [st pending]; [reflexivity|].
      now rewrite app_nil_r.
    + intros w' j d Hm' I. apply (fetchArticles_fulfilled cl true w' j d Hm' I).
  - intros w' j x Hm' I. now apply fetchStats_fulfilled.
  - now rewrite U.
  - now rewrite U.
  - intros es w'. subst w'.
    assert (M : mounted (step Unmount w) = false) by now rewrite U.
    destruct (unmounted_run es (step Unmount w) M) as (H1 & H2 & H3).
    split; [exact H1|]. split; [rewrite H2; now rewrite U|].
    split.
    + rewrite H3, U. unfold unmount, cleanup_interval, with_timer, emit.
      cbn [output]. rewrite intervals_started_app. cbn. lia.
    + set (v := run es (step Unmount w)) in *. unfold step. now rewrite H1.
Qed.

Lemma polling_interval_witness :
  let w := run [Deliver 2 (Articles_ok (sample_page 20 57)); ClickLoadMore]
             mount in
  Reachable w /\ mounted w = true
  /\ intervals_started (output w) = 2%nat
  /\ intervals_cleared (output w) = 1%nat
  /\ output (step Tick w) = (output w ++ [Sent GET_stats])%list
  /\ stats (st (step (Deliver 4 (Stats_ok (mkStats 57 3))) (step Tick w)))
     = Some (mkStats 57 3)
  /\ intervals_started
       (output (run [Deliver 3 (Articles_ok (sample_page 20 57))]
                  (step Unmount w)))
     = 2%nat.
Proof.
  cbv zeta.
  set (w := run [Deliver 2 (Articles_ok (sample_page 20 57)); ClickLoadMore]
              mount).
  assert (R : Reachable w) by (apply reachable_run; constructor).
  assert (M : mounted w = true) by by_computation.
  split; [exact R|]. split; [exact M|].
  destruct (polling_interval w R M)
    as (_ & _ & Hs & _ & (cl & _ & _ & _ & Ho & _ & If & _) & Hst & _ & _ & Hu).
  split; [by_computation|]. split; [by_computation|].
  split; [rewrite Ho; by_computation|].
  assert (L : List.length (pending w) = 4%nat) by by_computation.
  rewrite L in If. split.
  - rewrite (Hst (step Tick w) 4%nat (mkStats 57 3)); [reflexivity| |exact If].
    by_computation.
  - destruct (Hu [Deliver 3 (Articles_ok (sample_page 20 57))])
      as (_ & _ & H & _).
    rewrite H. by_computation.
Defined.

(** C7 as stated fails: the interval is not started once for the lifetime
    of the component; after one "Load More" a second interval has been
    started and the first one cancelled. *)
Lemma interval_started_more_than_once :
  ~ (forall w, Reachable w -> mounted w = true ->
               intervals_started (output w) = 1%nat
               /\ intervals_cleared (output w) = 0%nat).
Proof.
  intros H.
  set (w := run [Deliver 2 (Articles_ok (sample_page 20 57)); ClickLoadMore]
              mount).
  assert (R : Reachable w) by (apply reachable_run; constructor).
  assert (M : mounted w = true) by by_computation.
  destruct (H w R M) as [E _]. vm_compute in E. discriminate.
Qed.

(** ** The refreshing flag *)

Ltac run_blocks :=
  repeat (cbn; first [ split | intros [?|?] | intros ? ]); try reflexivity.

Lemma fetchCall_keeps (m : Async unit) :
  FetchCall m -> blocks keeps_refreshing (fun s => s) m.
Proof. intros [| |env [|]]; run_blocks. Qed.

Lemma fetch_issued_keeps (p : Pending) :
  IssuedFrom FetchCall p ->
  forall o, blocks keeps_refreshing (fun s => s) (resume p o).
Proof. apply blocks_issued, fetchCall_keeps. Qed.

Lemma refresh_issued_finishes (p : Pending) :
  IssuedFrom RefreshCall p ->
  forall o, finishes (fun s => s) (resume p o).
Proof.
  induction 1 as [m p Hm Hp | p o p' _ IH Hp].
  - destruct Hm as [env]. cbn in Hp. injection Hp as <-. run_blocks.
  - eapply finishes_next; [apply IH | exact Hp].
Qed.

Lemma neutral_fetchCall (m : Async unit) : FetchCall m -> neutral m.
Proof.
  intros H. split; [now apply fetchCall_keeps|].
  intros p Hp. now apply issued_first with m.
Qed.

Lemma neutral_resume (p : Pending) (o : Settled (endpoint p)) :
  IssuedFrom FetchCall p -> neutral (resume p o).
Proof.
  intros H. split; [now apply fetch_issued_keeps|].
  intros p' Hp. now apply issued_next with p o.
Qed.

Lemma neutral_sync (m : Async unit) (s : State) :
  neutral m -> refreshing (sync_state m s) = refreshing s.
Proof. intros [H _]. apply (blocks_sync keeps_refreshing m _ H s). Qed.

Lemma count_true_app (l1 l2 : list bool) :
  count_true (l1 ++ l2) = (count_true l1 + count_true l2)%nat.
Proof. unfold count_true. now rewrite filter_app, length_app. Qed.

Lemma refresh_ok_neutral (m : Async unit) (s : State)
    (l : list (option Pending)) :
  neutral m -> refresh_ok s l ->
  refresh_ok (sync_state m s) (l ++ suspended m).
Proof.
  intros N (roles & HF & HC). pose proof (neutral_sync m s N) as E.
  destruct N as [_ N]. unfold suspended.
  destruct (first_await m) as [p|].
  - exists (roles ++ [false])%list. split.
    + apply Forall2_app; [exact HF|]. repeat constructor. cbn. now apply N.
    + rewrite count_true_app, HC, E. cbn. lia.
  - exists roles. rewrite app_nil_r, E. now split.
Qed.

Lemma refresh_ok_neutral_all (ms : list (Async unit)) : forall s l,
  Forall neutral ms -> refresh_ok s l ->
  refresh_ok (sync_state_all ms s) (l ++ flat_map suspended ms).
Proof.
  induction ms as [|m ms IH]; intros s l HN H; cbn.
  - now rewrite app_nil_r.
  - inversion HN as [|? ? Hm Hms]; subst.
    rewrite app_assoc. apply IH; [exact Hms|].
    now apply refresh_ok_neutral.
Qed.

Lemma refresh_ok_click (env s : State) (l : list (option Pending)) :
  refreshing s = false -> refresh_ok s l ->
  refresh_ok (sync_state (handleRefresh env) s)
    (l ++ suspended (handleRefresh env)).
Proof.
  intros Hr (roles & HF & HC). rewrite Hr in HC.
  exists (roles ++ [true])%list. split.
  - apply Forall2_app; [exact HF|]. repeat constructor. cbn.
    apply issued_first with (handleRefresh env); [constructor | reflexivity].
  - rewrite count_true_app, HC. reflexivity.
Qed.

Lemma Forall2_settle (l : list (option Pending)) : forall roles i,
  Forall2 slot_role l roles ->
  Forall2 slot_role (settle i l) (clear_role i roles).
Proof.
  induction l as [|x l IH]; intros roles i H; inversion H; subst;
    destruct i; cbn; constructor; auto.
  reflexivity.
Qed.

Lemma role_at (l : list (option Pending)) : forall roles i p,
  Forall2 slot_role l roles -> nth_error l i = Some (Some p) ->
  exists r, nth_error roles i = Some r
            /\ (if r then IssuedFrom RefreshCall p else IssuedFrom FetchCall p).
Proof.
  induction l as [|x l IH]; intros roles i p H E; inversion H; subst.
  - destruct i; discriminate.
  - destruct i; cbn in E.
    + injection E as ->. eexists. split; [reflexivity|]. assumption.
    + cbn. eapply IH; eassumption.
Qed.

Lemma count_true_clear (roles : list bool) : forall i r,
  nth_error roles i = Some r ->
  (count_true (clear_role i roles) + (if r then 1 else 0))%nat
  = count_true roles.
Proof.
  induction roles as [|b roles IH]; intros [|i] r E; cbn in E; try discriminate.
  - injection E as ->. unfold count_true. cbn [clear_role filter].
    destruct r; cbn [List.length]; lia.
  - specialize (IH i r E). unfold count_true in *. cbn [clear_role filter].
    destruct b, r; cbn [List.length] in *; lia.
Qed.

Lemma count_true_le_role (roles : list bool) : forall i,
  nth_error roles i = Some true -> (1 <= count_true roles)%nat.
Proof.
  intros i E. pose proof (count_true_clear roles i true E) as H.
  cbn iota in H. lia.
Qed.

Lemma refresh_ok_deliver (s : State) (l : list (option Pending)) (i : nat)
    (p : Pending) (o : Settled (endpoint p)) :
  nth_error l i = Some (Some p) -> refresh_ok s l ->
  refresh_ok (sync_state (resume p o) s)
    (settle i l ++ suspended (resume p o)).
Proof.
  intros E (roles & HF & HC).
  destruct (role_at l roles i p HF E) as (r & Er & Hr).
  pose proof (count_true_clear roles i r Er) as Hcl.
  pose proof (Forall2_settle l roles i HF) as HF'.
  destruct r; cbn iota in Hcl.
  - pose proof (refresh_issued_finishes p Hr o) as F.
    pose proof (finishes_sync _ _ F s) as Es. cbn beta in Es.
    assert (Hs : refreshing s = true).
    { destruct (refreshing s); [reflexivity|]. lia. }
    rewrite Hs in HC. unfold suspended.
    destruct (first_await (resume p o)) as [p'|] eqn:Ep.
    + exists (clear_role i roles ++ [true])%list. split.
      * apply Forall2_app; [exact HF'|]. repeat constructor. cbn.
        now apply issued_next with p o.
      * rewrite count_true_app, Es, Hs. cbn. lia.
    + exists (clear_role i roles). rewrite app_nil_r, Es. split; [exact HF'|].
      lia.
  - apply refresh_ok_neutral; [now apply neutral_resume|].
    exists (clear_role i roles). split; [exact HF'|]. lia.
Qed.

Lemma neutral_sync_only (m : Async unit) :
  blocks keeps_refreshing (fun s => s) m -> first_await m = None -> neutral m.
Proof. intros B E. split; [exact B|]. intros p Hp. congruence. Qed.

Lemma neutral_loadMore (env : State) : neutral (loadMore env).
Proof.
  unfold loadMore.
  destruct (hasMore env && negb (loading env))%bool;
    apply neutral_sync_only; run_blocks.
Qed.

Ltac each_call tac :=
  repeat first [ apply Forall_nil | apply Forall_cons; [tac|] ].

Lemma neutral_effects (prev cur : State) : Forall neutral (effects prev cur).
Proof.
  rewrite effects_eq.
  destruct (replaces prev cur), (appends prev cur);
    each_call ltac:(apply neutral_fetchCall; auto with calls).
Qed.

Lemma refresh_ok_handler (e : Event) (w : World) :
  refresh_ok (st w) (pending w) ->
  refresh_ok (sync_state_all (calls e w) (st w))
    (settles e w (pending w) ++ flat_map suspended (calls e w)).
Proof.
  intros H.
  assert (N : refresh_ok (sync_state_all [] (st w))
                (pending w ++ flat_map suspended []))
    by (cbn; now rewrite app_nil_r).
  destruct e; unfold calls, settles.
  - apply refresh_ok_neutral_all; [|exact H].
    each_call ltac:(apply neutral_sync_only; run_blocks).
  - apply refresh_ok_neutral_all; [|exact H].
    each_call ltac:(apply neutral_sync_only; run_blocks).
  - apply refresh_ok_neutral_all; [|exact H].
    each_call ltac:(apply neutral_sync_only; run_blocks).
  - apply refresh_ok_neutral_all; [|exact H].
    each_call ltac:(apply neutral_fetchCall; auto with calls).
  - cbn [render refresh_disabled].
    destruct (refreshing (st w)) eqn:Hr; [exact N|].
    cbn [flat_map sync_state_all fold_left]. rewrite app_nil_r.
    now apply refresh_ok_click.
  - destruct (load_more_button (render (st w))); [|exact N].
    apply refresh_ok_neutral_all; [|exact H].
    each_call ltac:(apply neutral_loadMore).
  - destruct (timer w) as [cl|]; [|exact N].
    apply refresh_ok_neutral_all; [|exact H].
    unfold interval_callback.
    destruct (page cl =? 1);
      each_call ltac:(apply neutral_fetchCall; auto with calls).
  - destruct (nth_error (pending w) i) as [[p|]|] eqn:E; try exact N.
    destruct (settled (endpoint p) r) as [o|]; [|exact N].
    cbn [flat_map sync_state_all fold_left]. rewrite app_nil_r.
    now apply refresh_ok_deliver.
  - exact N.
Qed.

Lemma refresh_ok_step (e : Event) (w : World) :
  refresh_ok (st w) (pending w) ->
  refresh_ok (st (step e w)) (pending (step e w)).
Proof.
  intros H. destruct (mounted w) eqn:Hm.
  2:{ destruct (step_unmounted e w Hm) as [-> | ->]; [exact H|].
      now apply refresh_ok_handler. }
  assert (D : e = Unmount \/ e <> Unmount)
    by (destruct e; (now left) || (right; discriminate)).
  destruct D as [-> | He].
  - unfold step. rewrite Hm. exact H.
  - rewrite step_closed_form by assumption. cbv zeta.
    cbn [st pending]. unfold settled_state.
    rewrite <- sync_state_effects, app_assoc.
    apply refresh_ok_neutral_all; [apply neutral_effects|].
    now apply refresh_ok_handler.
Qed.

Lemma refresh_ok_mount : refresh_ok (st mount) (pending mount).
Proof.
  exists [false; false; false]. split; [|reflexivity].
  repeat constructor; cbn.
  - apply issued_first with fetchSources; [constructor | reflexivity].
  - apply issued_first with fetchStats; [constructor | reflexivity].
  - apply issued_first with (fetchArticles initial_state true);
      [constructor | reflexivity].
Qed.

Lemma reachable_refresh_ok (w : World) :
  Reachable w -> refresh_ok (st w) (pending w).
Proof.
  induction 1 as [|e w _ IH]; [apply refresh_ok_mount|].
  now apply refresh_ok_step.
Qed.

Lemma fetch_issued_not_refresh (p : Pending) :
  IssuedFrom FetchCall p -> IssuedFrom RefreshCall p -> False.
Proof.
  intros HF HR.
  apply (keeps_not_finishes (resume p (inr "")) (fun s => s)).
  - exists (upd_refreshing (fun _ => true) initial_state). reflexivity.
  - now apply fetch_issued_keeps.
  - now apply refresh_issued_finishes.
Qed.

Lemma role_true_slot (l : list (option Pending)) : forall roles,
  Forall2 slot_role l roles -> (1 <= count_true roles)%nat ->
  exists i p, nth_error l i = Some (Some p) /\ IssuedFrom RefreshCall p.
Proof.
  induction 1 as [|slot r l roles Hs HF IH]; intros Hc.
  - cbn in Hc. lia.
  - destruct r.
    + destruct slot as [p|]; [|discriminate Hs].
      exists 0%nat, p. split; [reflexivity | exact Hs].
    + destruct (IH Hc) as (i & p & E & Hp).
      exists (S i), p. split; assumption.
Qed.

Lemma refreshing_iff_in_flight (w : World) :
  Reachable w -> (refreshing (st w) = true <-> refresh_in_flight w).
Proof.
  intros Hr. destruct (reachable_refresh_ok w Hr) as (roles & HF & HC).
  split.
  - intros E. rewrite E in HC. apply (role_true_slot _ _ HF). lia.
  - intros (i & p & E & Hp).
    destruct (role_at _ _ _ _ HF E) as (r & Er & Hrole).
    destruct r.
    + apply count_true_le_role in Er.
      destruct (refreshing (st w)); [reflexivity | lia].
    + exfalso. now apply (fetch_issued_not_refresh p).
Qed.

(** ** [page] and [loading] *)

Ltac page_leaf :=
  let s := fresh "s" in
  let H1 := fresh "H" in
  let H2 := fresh "H" in
  intros s [H1 H2]; split; cbn in *;
  [ lia | intros; first [ discriminate | reflexivity | auto ] ].

Ltac run_page_blocks :=
  cbn;
  repeat match goal with
         | |- _ /\ _ => split
         | |- forall o : Settled _, _ => intros [?|?]; cbn
         | |- forall s : State, keeps_page_ok _ _ => page_leaf
         end.

Lemma fetchCall_page (m : Async unit) :
  FetchCall m -> blocks keeps_page_ok (fun s => s) m.
Proof. intros [| |env [|]]; run_page_blocks. Qed.

Lemma refreshCall_page (m : Async unit) :
  RefreshCall m -> blocks keeps_page_ok (fun s => s) m.
Proof. intros [env]; run_page_blocks. Qed.

Lemma page_ok_all (ms : list (Async unit)) : forall s,
  Forall (blocks keeps_page_ok (fun s => s)) ms ->
  page_ok s -> page_ok (sync_state_all ms s).
Proof.
  induction ms as [|m ms IH]; intros s HF H; [exact H|].
  inversion HF as [|? ? Hm Hms]; subst. cbn.
  apply IH; [exact Hms|].
  exact (blocks_sync keeps_page_ok m _ Hm s H).
Qed.

Lemma page_ok_handler (e : Event) (w : World) :
  refresh_ok (st w) (pending w) -> page_ok (st w) ->
  page_ok (sync_state_all (calls e w) (st w)).
Proof.
  intros (roles & HF & _) H.
  destruct e; unfold calls.
  - apply page_ok_all; [|exact H].
    each_call ltac:(run_page_blocks).
  - apply page_ok_all; [|exact H].
    each_call ltac:(run_page_blocks).
  - apply page_ok_all; [|exact H].
    each_call ltac:(run_page_blocks).
  - apply page_ok_all; [|exact H].
    each_call ltac:(apply fetchCall_page; auto with calls).
  - destruct (refresh_disabled (render (st w))); [exact H|].
    apply page_ok_all; [|exact H].
    each_call ltac:(apply refreshCall_page; auto with calls).
  - destruct (load_more_button (render (st w))) eqn:B; [|exact H].
    destruct (load_more_button_true _ B) as (Hh & Hl & _).
    unfold loadMore. rewrite Hh, Hl. destruct H as [H1 H2].
    split; cbn; [lia | congruence].
  - destruct (timer w) as [cl|]; [|exact H].
    apply page_ok_all; [|exact H]. unfold interval_callback.
    destruct (page cl =? 1);
      each_call ltac:(apply fetchCall_page; auto with calls).
  - destruct (nth_error (pending w) i) as [[p|]|] eqn:E; try exact H.
    destruct (settled (endpoint p) r) as [o|]; [|exact H].
    apply page_ok_all; [|exact H].
    destruct (role_at _ _ _ _ HF E) as (r0 & _ & Hrole).
    each_call ltac:(destruct r0;
                    [ apply (blocks_issued keeps_page_ok RefreshCall p refreshCall_page Hrole)
                    | apply (blocks_issued keeps_page_ok FetchCall p fetchCall_page Hrole) ]).
  - exact H.
Qed.

Lemma page_ok_step (e : Event) (w : World) :
  refresh_ok (st w) (pending w) -> page_ok (st w) -> page_ok (st (step e w)).
Proof.
  intros HR H. destruct (mounted w) eqn:Hm.
  2:{ destruct (step_unmounted e w Hm) as [-> | ->]; [exact H|].
      now apply page_ok_handler. }
  assert (D : e = Unmount \/ e <> Unmount)
    by (destruct e; (now left) || (right; discriminate)).
  destruct D as [-> | He].
  - unfold step. rewrite Hm. exact H.
  - rewrite step_closed_form by assumption. cbv zeta. cbn [st].
    pose proof (page_ok_handler e w HR H) as Hc.
    unfold settled_state. destruct (replaces _ _); [|exact Hc].
    split; cbn; [lia | reflexivity].
Qed.

Lemma reachable_page_ok (w : World) : Reachable w -> page_ok (st w).
Proof.
  induction 1 as [|e w Hr IH].
  - split; cbn; [lia | reflexivity].
  - apply page_ok_step; [now apply reachable_refresh_ok | exact IH].
Qed.

(** The "Loading more articles..." indicator (lines 387-394) is never
    rendered. *)
Lemma loading_more_never_rendered (w : World) :
  Reachable w -> loading_more (render (st w)) = false.
Proof.
  intros Hr. destruct (reachable_page_ok w Hr) as [_ H].
  unfold render. cbn. destruct (loading (st w)); [|reflexivity].
  rewrite (H eq_refl). reflexivity.
Qed.

(** ** Manual refresh *)

Lemma handleRefresh_requests (env : State) (oracle : Oracle) :
  requests (handleRefresh env) oracle
  = POST_refresh
      :: match oracle POST_refresh with
         | inl _ => [GET_articles (articles_params env true); GET_stats]
         | inr _ => []
         end.
Proof.
  cbn. destruct (oracle POST_refresh) as [[]|err]; cbn; [|reflexivity].
  destruct (oracle (GET_articles (articles_params env true))) as [d|err]; cbn;
    destruct (oracle GET_stats) as [x|err']; reflexivity.
Qed.

Lemma handleRefresh_flag (env s : State) (oracle : Oracle) :
  Forall (fun s' => refreshing s' = true)
    (states_at_requests (handleRefresh env) oracle s)
  /\ refreshing (final_state (handleRefresh env) oracle s) = false.
Proof.
  cbn. destruct (oracle POST_refresh) as [[]|err]; cbn;
    [|split; [repeat constructor | reflexivity]].
  destruct (oracle (GET_articles (articles_params env true))) as [d|err]; cbn;
    destruct (oracle GET_stats) as [x|err']; cbn;
    (split; [repeat constructor | reflexivity]).
Qed.

Lemma step_click_refresh (w : World) :
  mounted w = true -> refreshing (st w) = false ->
  step ClickRefresh w =
  mkWorld (upd_refreshing (fun _ => true) (st w))
    (pending w ++ suspended (handleRefresh (st w)))
    (timer w) (output w ++ [Sent POST_refresh]) true.
Proof.
  intros Hm Hr. rewrite step_eq by (assumption || discriminate).
  unfold handler. cbn [render refresh_disabled]. rewrite Hr.
  rewrite exec_eq, commit_unchanged; cbn [st pending timer output mounted].
  - now rewrite Hm.
  - apply same_deps; reflexivity.
Qed.

Lemma step_click_refresh_disabled (w : World) :
  refreshing (st w) = true -> step ClickRefresh w = w.
Proof.
  intros Hr. unfold step. destruct (mounted w); [|reflexivity].
  unfold handler. cbn [render refresh_disabled]. rewrite Hr.
  apply commit_unchanged, fetchArticles_changed_refl.
Qed.

(** *** The three requests of a manual refresh, settling one by one *)

Lemma settle_length (l : list (option Pending)) : forall i,
  List.length (settle i l) = List.length l.
Proof.
  induction l as [|x l IH]; intros [|i]; cbn; try reflexivity.
  now rewrite IH.
Qed.

(** The request at which the rest of a call suspends is in flight once the
    step that resumes the call is over. *)
Lemma in_flight_resumed (m : Async unit) (w w' : World) (i : nat) :
  (exists p, suspended m = [Some p] /\ first_await m = Some p) ->
  pending w' = (settle i (pending w) ++ suspended m)%list ->
  in_flight w' (List.length (pending w)) m.
Proof.
  intros H E. rewrite <- (settle_length (pending w) i).
  apply (in_flight_app m _ [] w' H). now rewrite app_nil_r.
Qed.

Lemma refresh_post_fulfilled (env : State) (w : World) (i : nat) :
  mounted w = true ->
  in_flight w i (handleRefresh env) ->
  let restart := negb (page (st w) =? 1) in
  step (Deliver i Refresh_ok) w
  = mkWorld (begin_replace (st w))
      (settle i (pending w) ++ suspended (refresh_after_post env))
      (if restart then Some (begin_replace (st w)) else timer w)
      (output w
         ++ Sent (GET_articles (articles_params env true))
            :: bracket restart ClearInterval
         ++ bracket restart (SetInterval interval_ms))
      true.
Proof.
  intros Hm (p & F & N) restart. cbn in F. injection F as <-.
  rewrite step_closed_form by (assumption || discriminate).
  cbv zeta. unfold calls, settles. rewrite N.
  cbn [endpoint resume settled sync_state_all fold_left flat_map].
  match goal with
  | |- context [sync_state ?m (st w)] =>
      change (sync_state m (st w)) with (begin_replace (st w))
  end.
  assert (Fc : filters_changed (st w) (begin_replace (st w)) = false).
  { unfold filters_changed. cbn. now rewrite !String.eqb_refl. }
  assert (Pc : page_changed (st w) (begin_replace (st w)) = restart)
    by reflexivity.
  assert (Pr : page_changed (begin_replace (st w)) (begin_replace (st w))
               = false) by reflexivity.
  unfold settled_state, replaces, effects. rewrite Fc. cbn [andb].
  rewrite Pc, Pr. unfold effect_page.
  change (1 <? page (begin_replace (st w))) with false.
  assert (E : (if fetchArticles_changed (st w) (begin_replace (st w))
               then @nil (Async unit) else []) = [])
    by now destruct (fetchArticles_changed _ _).
  cbn [app]. rewrite E. cbn [flat_map app bracket].
  rewrite !app_nil_r.
  destruct restart; reflexivity.
Qed.

Lemma refresh_post_rejected (env : State) (w : World) (i : nat) (err : Error) :
  mounted w = true ->
  in_flight w i (handleRefresh env) ->
  step (Deliver i (Rejected err)) w
  = mkWorld (upd_refreshing (fun _ => false) (st w))
      (settle i (pending w)) (timer w)
      (output w ++ [Logged "Error refreshing:" err]) true.
Proof.
  intros Hm (p & F & N). cbn in F. injection F as <-.
  pose proof (fun r o => step_deliver_quiet w i _ r o Hm N) as S.
  cbn [endpoint resume] in S.
  rewrite (S (Rejected err) (inr err) eq_refl);
    [cbn; now rewrite !app_nil_r | apply same_deps; reflexivity].
Qed.

Lemma refresh_articles_fulfilled (env : State) (w : World) (i : nat)
    (d : ArticlesData) :
  mounted w = true ->
  in_flight w i (refresh_after_post env) ->
  step (Deliver i (Articles_ok d)) w
  = mkWorld (fulfilled_state true d (st w))
      (settle i (pending w) ++ suspended refresh_after_articles)
      (timer w) (output w ++ [Sent GET_stats]) true.
Proof.
  intros Hm (p & F & N). cbn in F. injection F as <-.
  pose proof (fun r o => step_deliver_quiet w i _ r o Hm N) as S.
  cbn [endpoint resume] in S.
  rewrite (S (Articles_ok d) (inl d) eq_refl);
    [reflexivity | apply same_deps; reflexivity].
Qed.

Lemma refresh_articles_rejected (env : State) (w : World) (i : nat)
    (err : Error) :
  mounted w = true ->
  in_flight w i (refresh_after_post env) ->
  step (Deliver i (Rejected err)) w
  = mkWorld (upd_loading (fun _ => false) (st w))
      (settle i (pending w) ++ suspended refresh_after_articles)
      (timer w)
      (output w ++ [Logged "Error fetching articles:" err; Sent GET_stats])
      true.
Proof.
  intros Hm (p & F & N). cbn in F. injection F as <-.
  pose proof (fun r o => step_deliver_quiet w i _ r o Hm N) as S.
  cbn [endpoint resume] in S.
  rewrite (S (Rejected err) (inr err) eq_refl);
    [reflexivity | apply same_deps; reflexivity].
Qed.

Lemma refresh_stats_fulfilled (w : World) (i : nat) (x : Stats) :
  mounted w = true ->
  in_flight w i refresh_after_articles ->
  step (Deliver i (Stats_ok x)) w
  = mkWorld (upd_refreshing (fun _ => false)
               (upd_stats (fun _ => Some x) (st w)))
      (settle i (pending w)) (timer w) (output w) true.
Proof.
  intros Hm (p & F & N). cbn in F. injection F as <-.
  pose proof (fun r o => step_deliver_quiet w i _ r o Hm N) as S.
  cbn [endpoint resume] in S.
  rewrite (S (Stats_ok x) (inl x) eq_refl);
    [cbn; now rewrite !app_nil_r | apply same_deps; reflexivity].
Qed.

Lemma refresh_stats_rejected (w : World) (i : nat) (err : Error) :
  mounted w = true ->
  in_flight w i refresh_after_articles ->
  step (Deliver i (Rejected err)) w
  = mkWorld (upd_refreshing (fun _ => false) (st w))
      (settle i (pending w)) (timer w)
      (output w ++ [Logged "Error fetching stats:" err]) true.
Proof.
  intros Hm (p & F & N). cbn in F. injection F as <-.
  pose proof (fun r o => step_deliver_quiet w i _ r o Hm N) as S.
  cbn [endpoint resume] in S.
  rewrite (S (Rejected err) (inr err) eq_refl);
    [cbn; now rewrite !app_nil_r | apply same_deps; reflexivity].
Qed.

Lemma suspended_refresh_after_post (env : State) :
  exists p, suspended (refresh_after_post env) = [Some p]
            /\ first_await (refresh_after_post env) = Some p.
Proof. eexists; split; reflexivity. Qed.

Lemma suspended_refresh_after_articles :
  exists p, suspended refresh_after_articles = [Some p]
            /\ first_await refresh_after_articles = Some p.
Proof. eexists; split; reflexivity. Qed.

(** C6.  [handleRefresh] requests [POST /refresh], then, once that is
    fulfilled, [GET /articles] with [page] 1 and then, however that one
    settles, [GET /stats]; a rejected [POST /refresh] ends the sequence.
    [refreshing] is true at each of these requests and false when the call
    ends, however the requests settle.  In every reachable state
    [refreshing] is true exactly when a request of a manual refresh is in
    flight.  The Refresh button is disabled exactly when [refreshing] is
    true: a click then does nothing, and otherwise it sets [refreshing] and
    sends [POST /refresh].

    The three requests, one by one, in whatever state they settle.  When
    [POST /refresh] is fulfilled the replace-fetch starts: [loading] is set,
    [page] reset to 1 and [GET /articles] sent with the filters of the
    render in which the button was clicked; when it is rejected the error
    is logged, [refreshing] cleared and nothing sent.  When that
    [GET /articles] is fulfilled the list is replaced by the returned page,
    the total and [hasMore] are set and [loading] is cleared; when it is
    rejected the error is logged and [loading] cleared; either way
    [GET /stats] is sent next.  When that [GET /stats] is fulfilled the
    statistics are stored; when it is rejected the error is logged; either
    way [refreshing] is cleared. *)
Theorem manual_refresh (w : World) (env s : State) (oracle : Oracle) :
  Reachable w -> mounted w = true ->
  requests (handleRefresh env) oracle
  = POST_refresh
      :: match oracle POST_refresh with
         | inl _ => [GET_articles (articles_params env true); GET_stats]
         | inr _ => []
         end
  /\ JS.get (articles_params env true) "page" = JS.VNumber (JS.Num 1)
  /\ Forall (fun s' => refreshing s' = true)
       (states_at_requests (handleRefresh env) oracle s)
  /\ refreshing (final_state (handleRefresh env) oracle s) = false
  /\ (refreshing (st w) = true <-> refresh_in_flight w)
  /\ refresh_disabled (render (st w)) = refreshing (st w)
  /\ (if refreshing (st w)
      then step ClickRefresh w = w
      else refreshing (st (step ClickRefresh w)) = true
           /\ in_flight (step ClickRefresh w) (List.length (pending w))
                (handleRefresh (st w))
           /\ output (step ClickRefresh w)
              = (output w ++ [Sent POST_refresh])%list)
  /\ (forall w' j,
        mounted w' = true -> in_flight w' j (handleRefresh env) ->
        let restart := negb (page (st w') =? 1) in
        let w2 := step (Deliver j Refresh_ok) w' in
        w2 = mkWorld (begin_replace (st w'))
               (settle j (pending w') ++ suspended (refresh_after_post env))
               (if restart then Some (begin_replace (st w')) else timer w')
               (output w'
                  ++ Sent (GET_articles (articles_params env true))
                     :: bracket restart ClearInterval
                  ++ bracket restart (SetInterval interval_ms))
               true
        /\ in_flight w2 (List.length (pending w')) (refresh_after_post env)
        /\ forall err,
             step (Deliver j (Rejected err)) w'
             = mkWorld (upd_refreshing (fun _ => false) (st w'))
                 (settle j (pending w')) (timer w')
                 (output w' ++ [Logged "Error refreshing:" err]) true)
  /\ (forall w' j,
        mounted w' = true -> in_flight w' j (refresh_after_post env) ->
        (forall d,
           let w3 := step (Deliver j (Articles_ok d)) w' in
           w3 = mkWorld (fulfilled_state true d (st w'))
                  (settle j (pending w') ++ suspended refresh_after_articles)
                  (timer w') (output w' ++ [Sent GET_stats]) true
           /\ articles (st w3) = data_articles d
           /\ in_flight w3 (List.length (pending w')) refresh_after_articles)
        /\ (forall err,
              let w3 := step (Deliver j (Rejected err)) w' in
              w3 = mkWorld (upd_loading (fun _ => false) (st w'))
                     (settle j (pending w') ++ suspended refresh_after_articles)
                     (timer w')
                     (output w'
                        ++ [Logged "Error fetching articles:" err;
                            Sent GET_stats])
                     true
              /\ in_flight w3 (List.length (pending w'))
                   refresh_after_articles))
  /\ (forall w' j,
        mounted w' = true -> in_flight w' j refresh_after_articles ->
        (forall x,
           step (Deliver j (Stats_ok x)) w'
           = mkWorld (upd_refreshing (fun _ => false)
                        (upd_stats (fun _ => Some x) (st w')))
               (settle j (pending w')) (timer w') (output w') true)
        /\ (forall err,
              step (Deliver j (Rejected err)) w'
              = mkWorld (upd_refreshing (fun _ => false) (st w'))
                  (settle j (pending w')) (timer w')
                  (output w' ++ [Logged "Error fetching stats:" err]) true)).
Proof.
  intros Hr Hm.
  split; [apply handleRefresh_requests|].
  split; [rewrite articles_params_eq; reflexivity|].
  split; [apply handleRefresh_flag|].
  split; [apply handleRefresh_flag|].
  split; [now apply refreshing_iff_in_flight|].
  split; [reflexivity|].
  split; [|split; [|split]].
  - destruct (refreshing (st w)) eqn:E.
    + now apply step_click_refresh_disabled.
    + rewrite (step_click_refresh w Hm E). cbn [st output].
      repeat split.
      eexists. split; [reflexivity|]. cbn [pending].
      rewrite nth_error_app2 by lia. now rewrite Nat.sub_diag.
  - intros w' j Hm' I restart w2.
    pose proof (refresh_post_fulfilled env w' j Hm' I) as S2.
    cbv zeta in S2. fold restart in S2. fold w2 in S2.
    split; [exact S2|]. split.
    + apply (in_flight_resumed _ w' w2 j);
        [apply suspended_refresh_after_post | now rewrite S2].
    + intros err. now apply (refresh_post_rejected env).
  - intros w' j Hm' I. split.
    + intros d w3.
      pose proof (refresh_articles_fulfilled env w' j d Hm' I) as S3.
      fold w3 in S3. split; [exact S3|]. split; [now rewrite S3|].
      apply (in_flight_resumed _ w' w3 j);
        [apply suspended_refresh_after_articles | now rewrite S3].
    + intros err w3.
      pose proof (refresh_articles_rejected env w' j err Hm' I) as S3.
      fold w3 in S3. split; [exact S3|].
      apply (in_flight_resumed _ w' w3 j);
        [apply suspended_refresh_after_articles | now rewrite S3].
  - intros w' j Hm' I. split.
    + intros x. now apply refresh_stats_fulfilled.
    + intros err. now apply refresh_stats_rejected.
Qed.

Lemma manual_refresh_witness :
  let w := step (Deliver 2 (Articles_ok (sample_page 20 57))) mount in
  let w1 := step ClickRefresh w in
  let w2 := step (Deliver 3 Refresh_ok) w1 in
  let w3 := step (Deliver 4 (Articles_ok (sample_page 5 5))) w2 in
  let w4 := step (Deliver 5 (Stats_ok (mkStats 5 1))) w3 in
  Reachable w /\ mounted w = true
  /\ requests (handleRefresh (st w)) all_fulfilled
     = [POST_refresh; GET_articles (articles_params (st w) true); GET_stats]
  /\ requests (handleRefresh (st w)) all_rejected = [POST_refresh]
  /\ refreshing (final_state (handleRefresh (st w)) all_rejected (st w)) = false
  /\ refreshing (st w) = false
  /\ refreshing (st w1) = true
  /\ refresh_in_flight w1
  /\ step ClickRefresh w1 = w1
  /\ articles (st w3) = data_articles (sample_page 5 5)
  /\ articles (st w4) = data_articles (sample_page 5 5)
  /\ stats (st w4) = Some (mkStats 5 1)
  /\ refreshing (st w4) = false.
Proof.
  cbv zeta.
  set (w := step (Deliver 2 (Articles_ok (sample_page 20 57))) mount).
  assert (R : Reachable w) by (repeat constructor).
  assert (M : mounted w = true) by by_computation.
  assert (E : refreshing (st w) = false) by by_computation.
  split; [exact R|]. split; [exact M|].
  destruct (manual_refresh w (st w) (st w) all_fulfilled R M)
    as (Hq & _ & _ & _ & _ & _ & H & Hpost & Hart & Hstats).
  split; [exact Hq|].
  destruct (manual_refresh w (st w) (st w) all_rejected R M)
    as (Hq' & _ & _ & Hf & _).
  split; [exact Hq'|]. split; [exact Hf|]. split; [exact E|].
  rewrite E in H. destruct H as (H1 & I1 & _).
  split; [exact H1|].
  assert (R1 : Reachable (step ClickRefresh w)) by now constructor.
  assert (M1 : mounted (step ClickRefresh w) = true) by by_computation.
  destruct (manual_refresh (step ClickRefresh w) (st w) (st w)
              all_rejected R1 M1)
    as (_ & _ & _ & _ & I & _ & H & _).
  rewrite H1 in H. split; [now apply I|]. split; [exact H|].
  assert (L : List.length (pending w) = 3%nat) by by_computation.
  rewrite L in I1.
  destruct (Hpost (step ClickRefresh w) 3%nat M1 I1) as (_ & I2 & _).
  assert (L1 : List.length (pending (step ClickRefresh w)) = 4%nat)
    by by_computation.
  rewrite L1 in I2.
  assert (M2 : mounted (step (Deliver 3 Refresh_ok) (step ClickRefresh w))
               = true) by by_computation.
  destruct (Hart _ 4%nat M2 I2) as (Ha & _).
  destruct (Ha (sample_page 5 5)) as (_ & A3 & I3).
  assert (L2 : List.length
                 (pending (step (Deliver 3 Refresh_ok) (step ClickRefresh w)))
               = 5%nat) by by_computation.
  rewrite L2 in I3.
  assert (M3 : mounted
                 (step (Deliver 4 (Articles_ok (sample_page 5 5)))
                    (step (Deliver 3 Refresh_ok) (step ClickRefresh w)))
               = true) by by_computation.
  destruct (Hstats _ 5%nat M3 I3) as (Hs & _).
  split; [exact A3|].
  rewrite (Hs (mkStats 5 1)). cbn [st].
  assert (G : forall s0 : State,
             let s1 := upd_refreshing (fun _ => false)
                         (upd_stats (fun _ => Some (mkStats 5 1)) s0) in
             articles s1 = articles s0
             /\ stats s1 = Some (mkStats 5 1) /\ refreshing s1 = false)
    by (intros s0; repeat split).
  destruct (G (st (step (Deliver 4 (Articles_ok (sample_page 5 5)))
                     (step (Deliver 3 Refresh_ok) (step ClickRefresh w)))))
    as (G1 & G2 & G3).
  rewrite G1. split; [exact A3|]. split; [exact G2 | exact G3].
Defined.

(** ** Every request for articles *)

Ltac run_awaits :=
  cbn;
  repeat match goal with
         | |- _ /\ _ => split
         | |- True => exact I
         | |- forall o : Settled _, _ => intros [?|?]; cbn
         | |- forall o : _ + Error, _ => intros [?|?]; cbn
         | |- exists b : bool, forall d s, _ = fulfilled_state b d s =>
             first [ exists true; reflexivity | exists false; reflexivity ]
         | |- forall (err : Error) (s : State), _ =>
             intros ? ?; split;
             [ reflexivity
             | eexists; split;
               [ reflexivity
               | cbn; intros ? ? ?;
                 repeat match goal with
                        | H : _ \/ _ |- _ => destruct H
                        | H : _ = _ |- _ => discriminate H
                        | H : False |- _ => exact H
                        end ] ]
         end.

Lemma fetchCall_articles (m : Async unit) :
  FetchCall m -> awaits articles_await m.
Proof. intros [| |env [|]]; run_awaits. Qed.

Lemma refreshCall_articles (m : Async unit) :
  RefreshCall m -> awaits articles_await m.
Proof. intros [env]; run_awaits. Qed.

Lemma slot_issued (w : World) (i : nat) (p : Pending) :
  Reachable w -> nth_error (pending w) i = Some (Some p) ->
  IssuedFrom FetchCall p \/ IssuedFrom RefreshCall p.
Proof.
  intros Hr E. destruct (reachable_refresh_ok w Hr) as (roles & HF & _).
  destruct (role_at _ _ _ _ HF E) as ([|] & _ & H); auto.
Qed.

Lemma slot_articles (w : World) (i : nat) (p : Pending) :
  Reachable w -> nth_error (pending w) i = Some (Some p) ->
  articles_await (endpoint p) (resume p).
Proof.
  intros Hr E. destruct (slot_issued w i p Hr E) as [H|H].
  - apply (issued_awaits articles_await FetchCall p fetchCall_articles H).
  - apply (issued_awaits articles_await RefreshCall p refreshCall_articles H).
Qed.

Lemma fulfilled_same_deps (b : bool) (d : ArticlesData) (s : State) :
  fetchArticles_changed s (fulfilled_state b d s) = false.
Proof. apply same_deps; reflexivity. Qed.

Lemma awaiting_slot (w : World) (i : nat) (e : Endpoint) :
  awaiting w i = Some e ->
  exists p, nth_error (pending w) i = Some (Some p) /\ endpoint p = e.
Proof.
  unfold awaiting. destruct (nth_error (pending w) i) as [[p|]|];
    try discriminate.
  intros H. injection H as <-. now exists p.
Qed.

(* ================================================================== *)
(** ** The claims about every reachable state *)

(** C2.  Whenever a request for articles is fulfilled, whichever call sent
    it, [hasMore] becomes true if the returned page has exactly 20 articles
    and false otherwise (in particular for fewer than 20), and the total
    count becomes the returned total. *)
Theorem hasMore_after_fetch (w : World) (i : nat) (q : JS.Object)
    (d : ArticlesData) :
  Reachable w -> mounted w = true ->
  awaiting w i = Some (GET_articles q) ->
  let w' := step (Deliver i (Articles_ok d)) w in
  hasMore (st w') = Nat.eqb (List.length (data_articles d)) 20
  /\ (hasMore (st w') = true <-> List.length (data_articles d) = 20%nat)
  /\ (hasMore (st w') = false <-> List.length (data_articles d) <> 20%nat)
  /\ ((List.length (data_articles d) < 20)%nat -> hasMore (st w') = false)
  /\ totalArticles (st w') = data_total d.
Proof.
  intros Hr Hm Ha w'. destruct (awaiting_slot w i _ Ha) as (p & E & Hq).
  pose proof (slot_articles w i p Hr E) as Q.
  destruct p as [e k]. cbn in Hq, Q. subst e. cbn in Q.
  destruct Q as [[b Hb] _].
  pose proof (fun r o => step_deliver_quiet w i _ r o Hm E) as S.
  cbn [endpoint resume] in S.
  specialize (S (Articles_ok d) (inl d) eq_refl).
  rewrite Hb in S. specialize (S (fulfilled_same_deps b d (st w))).
  subst w'. rewrite S. cbn [st]. unfold fulfilled_state. cbn.
  repeat split.
  - apply Nat.eqb_eq.
  - apply Nat.eqb_eq.
  - apply Nat.eqb_neq.
  - apply Nat.eqb_neq.
  - intros H. apply Nat.eqb_neq. lia.
Qed.

Lemma hasMore_after_fetch_witness :
  Reachable mount /\ mounted mount = true
  /\ awaiting mount 2 = Some (GET_articles (articles_params initial_state true))
  /\ hasMore (st (step (Deliver 2 (Articles_ok (sample_page 20 57))) mount))
     = true
  /\ hasMore (st (step (Deliver 2 (Articles_ok (sample_page 17 57))) mount))
     = false.
Proof.
  assert (M : mounted mount = true) by by_computation.
  assert (A : awaiting mount 2
              = Some (GET_articles (articles_params initial_state true)))
    by by_computation.
  split; [constructor|]. split; [exact M|]. split; [exact A|]. split.
  - destruct (hasMore_after_fetch mount 2 _ (sample_page 20 57)
                reach_mount M A) as [H _].
    rewrite H. by_computation.
  - destruct (hasMore_after_fetch mount 2 _ (sample_page 17 57)
                reach_mount M A) as [H _].
    rewrite H. by_computation.
Defined.

(** C5.  A call of [fetchArticles] does not touch the article list, the
    total count or [hasMore] before its request settles; and whenever a
    request for articles is rejected, whichever call sent it, the step sets
    [loading] to false and changes nothing else of the state, the rejection
    is logged with [console.error], and nothing else is logged. *)
Theorem fetch_failure_keeps_list (env : State) (isNewSearch : bool)
    (w0 w : World) (i : nat) (q : JS.Object) (err : Error) :
  Reachable w -> mounted w = true ->
  awaiting w i = Some (GET_articles q) ->
  let w1 := exec (fetchArticles env isNewSearch) w0 in
  let w' := step (Deliver i (Rejected err)) w in
  (articles (st w1) = articles (st w0)
   /\ totalArticles (st w1) = totalArticles (st w0)
   /\ hasMore (st w1) = hasMore (st w0))
  /\ loading (st w') = false
  /\ articles (st w') = articles (st w)
  /\ totalArticles (st w') = totalArticles (st w)
  /\ hasMore (st w') = hasMore (st w)
  /\ st w' = upd_loading (fun _ => false) (st w)
  /\ exists rest,
       output w'
       = (output w ++ Logged "Error fetching articles:" err :: rest)%list
       /\ forall msg err', ~ In (Logged msg err') rest.
Proof.
  intros Hr Hm Ha w1 w'. destruct (awaiting_slot w i _ Ha) as (p & E & Hq).
  pose proof (slot_articles w i p Hr E) as Q.
  destruct p as [e k]. cbn in Hq, Q. subst e. cbn in Q.
  destruct Q as [_ Q]. destruct (Q err (st w)) as (Hs & rest & Ho & Hrest).
  pose proof (fun r o => step_deliver_quiet w i _ r o Hm E) as S.
  cbn [endpoint resume] in S.
  specialize (S (Rejected err) (inr err) eq_refl).
  cbn [Payload] in S. rewrite Hs, Ho in S.
  assert (D : fetchArticles_changed (st w) (upd_loading (fun _ => false) (st w))
              = false) by (apply same_deps; reflexivity).
  specialize (S D). subst w1 w'. rewrite S, exec_fetchArticles.
  cbn [st output].
  split; [repeat split; now destruct isNewSearch|].
  do 5 (split; [reflexivity|]).
  exists rest. split; [reflexivity | exact Hrest].
Qed.

Lemma fetch_failure_keeps_list_witness :
  let w := run [Deliver 2 (Articles_ok (sample_page 20 57)); ClickLoadMore]
             mount in
  let w' := step (Deliver 3 (Rejected "Network Error")) w in
  Reachable w /\ mounted w = true
  /\ awaiting w 3 = Some (GET_articles (articles_params (st w) false))
  /\ loading (st w') = false
  /\ articles (st w') = data_articles (sample_page 20 57)
  /\ totalArticles (st w') = 57
  /\ hasMore (st w') = true.
Proof.
  cbv zeta.
  set (w := run [Deliver 2 (Articles_ok (sample_page 20 57)); ClickLoadMore]
              mount).
  assert (R : Reachable w) by (apply reachable_run; constructor).
  assert (M : mounted w = true) by by_computation.
  assert (A : awaiting w 3 = Some (GET_articles (articles_params (st w) false)))
    by by_computation.
  split; [exact R|]. split; [exact M|]. split; [exact A|].
  destruct (fetch_failure_keeps_list (st w) false w w 3 _ "Network Error"
              R M A) as (_ & Hl & Ha & Ht & Hh & _).
  rewrite Hl, Ha, Ht, Hh. repeat split; by_computation.
Defined.

(** C3.  A click on "Load More": [page] grows by one, one [GET /articles]
    is sent whose [page] is the new page, and when it is fulfilled the
    returned articles are put after the articles already shown, all of them
    and in the order received. *)
Theorem load_more_appends (w : World) (d : ArticlesData) :
  Reachable w -> mounted w = true ->
  load_more_button (render (st w)) = true ->
  let w1 := step ClickLoadMore w in
  let i := List.length (pending w) in
  let w2 := step (Deliver i (Articles_ok d)) w1 in
  page (st w1) = page (st w) + 1
  /\ in_flight w1 i (fetchArticles (st w1) false)
  /\ output w1 = (output w
                  ++ [ClearInterval;
                      Sent (GET_articles (articles_params (st w1) false));
                      SetInterval interval_ms])%list
  /\ JS.get (articles_params (st w1) false) "page"
     = JS.VNumber (JS.Num (page (st w) + 1))
  /\ articles (st w1) = articles (st w)
  /\ articles (st w2) = (articles (st w) ++ data_articles d)%list
  /\ List.length (articles (st w2))
     = (List.length (articles (st w)) + List.length (data_articles d))%nat
  /\ (forall w' j,
        mounted w' = true -> in_flight w' j (fetchArticles (st w1) false) ->
        articles (st (step (Deliver j (Articles_ok d)) w'))
        = (articles (st w') ++ data_articles d)%list).
Proof.
  intros Hr Hm Hb. apply load_more_from_page; try assumption.
  apply (reachable_page_ok w Hr).
Qed.

Lemma load_more_appends_witness :
  let w := step (Deliver 2 (Articles_ok (sample_page 20 57))) mount in
  let w1 := step ClickLoadMore w in
  let w2 := step (Deliver (List.length (pending w))
                    (Articles_ok (sample_page 20 57))) w1 in
  Reachable w /\ mounted w = true
  /\ load_more_button (render (st w)) = true
  /\ List.length (articles (st w)) = 20%nat
  /\ page (st w1) = 2
  /\ JS.get (articles_params (st w1) false) "page" = JS.VNumber (JS.Num 2)
  /\ List.length (articles (st w2)) = 40%nat.
Proof.
  cbv zeta.
  set (w := step (Deliver 2 (Articles_ok (sample_page 20 57))) mount).
  assert (R : Reachable w) by (repeat constructor).
  assert (M : mounted w = true) by by_computation.
  assert (B : load_more_button (render (st w)) = true) by by_computation.
  split; [exact R|]. split; [exact M|]. split; [exact B|].
  split; [by_computation|].
  destruct (load_more_appends w (sample_page 20 57) R M B)
    as (Hp & _ & _ & Hq & _ & _ & Hl & _).
  rewrite Hp, Hq, Hl. repeat split; by_computation.
Defined.

(* ================================================================== *)
(** * Further properties of the component *)

(** ** Line 64: removing the undefined parameters *)

Lemma delete_filter (o : JS.Object) (k : string) :
  JS.delete o k = filter (fun kv => negb (String.eqb k (fst kv))) o.
Proof.
  induction o as [|[k' v] o IH]; cbn; [reflexivity|].
  destruct (String.eqb k k'); cbn; now rewrite IH.
Qed.

Lemma get_in (o : JS.Object) (k : string) (v : JS.Value) :
  NoDup (JS.keys o) -> In (k, v) o -> JS.get o k = v.
Proof.
  induction o as [|[k' v'] o IH]; cbn; intros N H; [contradiction|].
  inversion N as [|? ? Hn N']; subst.
  destruct H as [H|H].
  - injection H as -> ->. now rewrite String.eqb_refl.
  - destruct (String.eqb_spec k k') as [->|_]; [|now apply IH].
    exfalso. apply Hn. unfold JS.keys.
    change k' with (fst (k', v)). now apply in_map.
Qed.

Lemma keys_filter_NoDup (f : string * JS.Value -> bool) (o : JS.Object) :
  NoDup (JS.keys o) -> NoDup (JS.keys (filter f o)).
Proof.
  induction o as [|[k v] o IH]; cbn; intros N; [constructor|].
  inversion N as [|? ? Hn N']; subst.
  destruct (f (k, v)); cbn; [|now apply IH].
  constructor; [|now apply IH].
  intros H. apply Hn. unfold JS.keys in *.
  apply in_map_iff in H as ([k' v'] & E & H). cbn in E. subst k'.
  apply filter_In in H as [H _].
  change k with (fst (k, v')). now apply in_map.
Qed.

Lemma filter_all (A : Type) (f : A -> bool) (l : list A) :
  (forall x, In x l -> f x = true) -> filter f l = l.
Proof.
  induction l as [|x l IH]; cbn; intros H; [reflexivity|].
  rewrite (H x (or_introl eq_refl)). f_equal. apply IH. auto.
Qed.

(** One turn of the loop of line 64. *)
Lemma remove_one (o : JS.Object) (k : string) :
  NoDup (JS.keys o) ->
  (if JS.is_undefined (JS.get o k) then JS.delete o k else o)
  = filter (fun kv => negb (JS.is_undefined (snd kv) && String.eqb k (fst kv))) o.
Proof.
  intros N.
  destruct (JS.is_undefined (JS.get o k)) eqn:U.
  - rewrite delete_filter. apply filter_ext_in. intros [k' v] H. cbn.
    destruct (String.eqb_spec k k') as [->|_]; [|now rewrite andb_false_r].
    rewrite <- (get_in o k' v N H), U. reflexivity.
  - symmetry. apply filter_all. intros [k' v] H. cbn.
    destruct (String.eqb_spec k k') as [->|_]; [|now rewrite andb_false_r].
    rewrite <- (get_in o k' v N H), U. reflexivity.
Qed.

Lemma filter_twice (A : Type) (f g : A -> bool) (l : list A) :
  filter f (filter g l) = filter (fun x => g x && f x)%bool l.
Proof.
  induction l as [|x l IH]; cbn; [reflexivity|].
  destruct (g x); cbn; [destruct (f x)|]; now rewrite IH.
Qed.

Lemma remove_loop (ks : list string) : forall o,
  NoDup (JS.keys o) ->
  fold_left
    (fun o key => if JS.is_undefined (JS.get o key) then JS.delete o key else o)
    ks o
  = filter (fun kv => negb (JS.is_undefined (snd kv)
                            && existsb (fun k => String.eqb k (fst kv)) ks)) o.
Proof.
  induction ks as [|k ks IH]; intros o N; cbn [fold_left].
  - symmetry. apply filter_all. intros kv _. cbn. now rewrite andb_false_r.
  - rewrite (remove_one o k N), IH by now apply keys_filter_NoDup.
    rewrite filter_twice. apply filter_ext. intros [k' v]. cbn.
    destruct (JS.is_undefined v), (String.eqb k k'),
      (existsb (fun k0 => String.eqb k0 k') ks); reflexivity.
Qed.

Lemma get_absent (o : JS.Object) (k : string) :
  ~ In k (JS.keys o) -> JS.get o k = JS.VUndefined.
Proof.
  induction o as [|[k' v] o IH]; cbn; intros H; [reflexivity|].
  destruct (String.eqb_spec k k') as [->|_]; [tauto|]. apply IH. tauto.
Qed.

Lemma get_defined (o : JS.Object) (k : string) :
  NoDup (JS.keys o) -> JS.get (filter defined_entry o) k = JS.get o k.
Proof.
  induction o as [|[k' v] o IH]; cbn; intros N; [reflexivity|].
  inversion N as [|? ? Hn N']; subst.
  unfold defined_entry at 1. cbn.
  destruct (JS.is_undefined v) eqn:U; cbn.
  - rewrite IH by assumption.
    destruct (String.eqb_spec k k') as [->|_]; [|reflexivity].
    rewrite (get_absent o k' Hn). now destruct v.
  - rewrite IH by assumption. reflexivity.
Qed.

Lemma has_defined (o : JS.Object) (k : string) :
  NoDup (JS.keys o) ->
  JS.has (filter defined_entry o) k = negb (JS.is_undefined (JS.get o k)).
Proof.
  unfold JS.has, JS.keys.
  induction o as [|[k' v] o IH]; cbn [filter map existsb JS.get fst];
    intros N; [reflexivity|].
  inversion N as [|? ? Hn N']; subst. specialize (IH N').
  unfold defined_entry at 1. cbn [snd].
  destruct (JS.is_undefined v) eqn:U; cbn [negb map existsb fst].
  - rewrite IH. destruct (String.eqb_spec k k') as [->|_]; [|reflexivity].
    now rewrite (get_absent o k' Hn), U.
  - destruct (String.eqb k k'); cbn; [now rewrite U | exact IH].
Qed.

(** X1.  Line 64, for an object without a repeated key: the loop keeps
    exactly the entries whose value is not [undefined], in their order; no
    value left is [undefined]; every key reads as before (a removed key
    read [undefined] already); a key is present afterwards exactly when its
    value was not [undefined]; and running the loop again changes nothing. *)
Theorem remove_undefined_filter (o : JS.Object) :
  NoDup (JS.keys o) ->
  remove_undefined o = filter defined_entry o
  /\ Forall (fun kv => JS.is_undefined (snd kv) = false) (remove_undefined o)
  /\ (forall k, JS.get (remove_undefined o) k = JS.get o k)
  /\ (forall k, JS.has (remove_undefined o) k
                = negb (JS.is_undefined (JS.get o k)))
  /\ remove_undefined (remove_undefined o) = remove_undefined o.
Proof.
  intros N.
  assert (E : remove_undefined o = filter defined_entry o).
  { unfold remove_undefined. rewrite remove_loop by assumption.
    apply filter_ext_in. intros [k v] H. unfold defined_entry. cbn.
    replace (existsb (fun k0 => String.eqb k0 k) (JS.keys o)) with true;
      [now rewrite andb_true_r|].
    symmetry. apply existsb_exists. exists k. split; [|apply String.eqb_refl].
    unfold JS.keys. change k with (fst (k, v)). now apply in_map. }
  assert (D : Forall (fun kv => JS.is_undefined (snd kv) = false)
                (filter defined_entry o)).
  { apply Forall_forall. intros kv H. apply filter_In in H as [_ H].
    now apply negb_true_iff in H. }
  split; [exact E|]. rewrite E.
  split; [exact D|].
  split; [intros k; now apply get_defined|].
  split; [intros k; now apply has_defined|].
  assert (N' : NoDup (JS.keys (filter defined_entry o)))
    by now apply keys_filter_NoDup.
  unfold remove_undefined. rewrite remove_loop by assumption.
  apply filter_all. intros kv H. rewrite Forall_forall in D.
  now rewrite (D kv H).
Qed.

Lemma remove_undefined_filter_witness :
  let o := [("a", JS.VUndefined); ("b", JS.VNumber (JS.Num 2));
            ("c", JS.VUndefined); ("d", JS.VString "")] in
  NoDup (JS.keys o)
  /\ remove_undefined o = [("b", JS.VNumber (JS.Num 2)); ("d", JS.VString "")].
Proof.
  cbv zeta.
  assert (N : NoDup (JS.keys [("a", JS.VUndefined); ("b", JS.VNumber (JS.Num 2));
                              ("c", JS.VUndefined); ("d", JS.VString "")])).
  { repeat constructor; cbn; intuition discriminate. }
  split; [exact N|].
  destruct (remove_undefined_filter _ N) as [E _]. rewrite E. reflexivity.
Defined.

(** ** What the component sends and logs *)

Section Outputs.

Variable P : Output -> Prop.

Lemma emits_sync (m : Async unit) : emits P m -> Forall P (sync_output m).
Proof.
  induction m as [a|err|f k IH|msg err k IH|e k _]; cbn; intros H.
  - constructor.
  - now repeat constructor.
  - now apply IH.
  - constructor; [apply H | apply IH, H].
  - constructor; [apply H | constructor].
Qed.

Lemma emits_next (m : Async unit) (p : Pending) :
  emits P m -> first_await m = Some p -> forall o, emits P (resume p o).
Proof.
  induction m as [a|err|f k IH|msg err k IH|e k _]; cbn; intros H E;
    try discriminate.
  - now apply IH.
  - apply IH; [apply H | exact E].
  - injection E as <-. apply H.
Qed.

Lemma emits_issued (C : Async unit -> Prop) (p : Pending) :
  (forall m p0, C m -> first_await m = Some p0 ->
                forall o, emits P (resume p0 o)) ->
  IssuedFrom C p -> forall o, emits P (resume p o).
Proof.
  intros HC. induction 1 as [m p Hm Hp | p o p' _ IH Hp].
  - now apply HC with m.
  - intros o'. now apply (emits_next (resume p o) p' (IH o) Hp).
Qed.

Hypothesis P_replace :
  forall env, P (Sent (GET_articles (articles_params env true))).
Hypothesis P_append :
  forall env, 1 < page env ->
              P (Sent (GET_articles (articles_params env false))).
Hypothesis P_stats : P (Sent GET_stats).
Hypothesis P_post : P (Sent POST_refresh).
Hypothesis P_logged : forall msg err, P (Logged msg err).
Hypothesis P_set : P (SetInterval interval_ms).
Hypothesis P_clear : P ClearInterval.

Ltac run_emits :=
  cbn;
  repeat match goal with
         | |- _ /\ _ => split
         | |- True => exact I
         | |- forall o : Settled _, _ => intros [?|?]; cbn
         | |- forall o : _ + Error, _ => intros [?|?]; cbn
         | |- P _ => solve [ apply P_replace | apply P_stats | apply P_post
                           | apply P_logged ]
         end.

Lemma emits_replace (env : State) : emits P (fetchArticles env true).
Proof. run_emits. Qed.

Lemma emits_append (env : State) :
  1 < page env -> emits P (fetchArticles env false).
Proof. intros H. run_emits. now apply P_append. Qed.

Lemma emits_fetchStats : emits P fetchStats.
Proof. run_emits. Qed.

Lemma emits_handleRefresh (env : State) : emits P (handleRefresh env).
Proof. run_emits. Qed.

Lemma emits_after_fetch (m : Async unit) (p0 : Pending) :
  FetchCall m -> first_await m = Some p0 -> forall o, emits P (resume p0 o).
Proof.
  intros [| |env [|]] E; cbn in E; injection E as <-; run_emits.
Qed.

Lemma emits_after_refresh (m : Async unit) (p0 : Pending) :
  RefreshCall m -> first_await m = Some p0 -> forall o, emits P (resume p0 o).
Proof.
  intros [env] E. cbn in E. injection E as <-. run_emits.
Qed.

Lemma emits_calls (e : Event) (w : World) :
  Reachable w -> Forall (emits P) (calls e w).
Proof.
  intros Hr. destruct e; unfold calls.
  - each_call ltac:(exact I).
  - each_call ltac:(exact I).
  - each_call ltac:(exact I).
  - each_call ltac:(apply emits_replace).
  - destruct (refresh_disabled (render (st w)));
      each_call ltac:(apply emits_handleRefresh).
  - destruct (load_more_button (render (st w)));
      each_call ltac:(unfold loadMore;
                      now destruct (hasMore (st w) && negb (loading (st w)))%bool).
  - destruct (timer w) as [cl|]; [|constructor]. unfold interval_callback.
    destruct (page cl =? 1);
      each_call ltac:(apply emits_fetchStats || apply emits_replace).
  - destruct (nth_error (pending w) i) as [[p|]|] eqn:E; try constructor.
    destruct (settled (endpoint p) r) as [o|]; [|constructor].
    destruct (slot_issued w i p Hr E) as [H|H].
    + each_call ltac:(apply (emits_issued FetchCall p emits_after_fetch H)).
    + each_call ltac:(apply (emits_issued RefreshCall p emits_after_refresh H)).
  - constructor.
Qed.

Lemma emits_effects (prev cur : State) : Forall (emits P) (effects prev cur).
Proof.
  rewrite effects_eq. apply Forall_app. split.
  - destruct (replaces prev cur); [|apply Forall_nil].
    apply Forall_cons; [apply emits_replace | apply Forall_nil].
  - unfold appends. destruct (fetchArticles_changed prev cur);
      [|apply Forall_nil].
    cbn [andb]. destruct (1 <? page cur) eqn:L; [|apply Forall_nil].
    apply Forall_cons; [|apply Forall_nil].
    apply emits_append. now apply Z.ltb_lt.
Qed.

Lemma outputs_all (ms : list (Async unit)) :
  Forall (emits P) ms -> Forall P (flat_map sync_output ms).
Proof.
  induction 1 as [|m ms Hm _ IH]; cbn; [constructor|].
  apply Forall_app. split; [now apply emits_sync | exact IH].
Qed.

Lemma bracket_ok (b : bool) (o : Output) : P o -> Forall P (bracket b o).
Proof. intros H. destruct b; repeat constructor. exact H. Qed.

(** Whatever the component sends or logs after it is mounted satisfies [P]. *)
Lemma outputs_after_mount (w : World) :
  Reachable w ->
  exists rest, output w = (output mount ++ rest)%list /\ Forall P rest.
Proof.
  induction 1 as [|e w Hr (rest & E & HF)].
  - exists []. now rewrite app_nil_r.
  - destruct (mounted w) eqn:Hm.
    2:{ destruct (step_unmounted e w Hm) as [-> | ->]; [now exists rest|].
        cbn [output]. rewrite E, <- app_assoc.
        eexists. split; [reflexivity|].
        apply Forall_app. split; [exact HF|].
        apply outputs_all, emits_calls, Hr. }
    assert (D : e = Unmount \/ e <> Unmount)
      by (destruct e; (now left) || (right; discriminate)).
    destruct D as [-> | He].
    + unfold step. rewrite Hm. cbn. exists (rest ++ [ClearInterval])%list.
      rewrite E, <- app_assoc. split; [reflexivity|].
      apply Forall_app. split; [exact HF | now repeat constructor].
    + rewrite step_closed_form by assumption. cbv zeta. cbn [output].
      rewrite E, <- app_assoc.
      eexists. split; [reflexivity|].
      repeat (apply Forall_app; split); try exact HF;
        try (apply bracket_ok; assumption).
      * apply outputs_all, emits_calls, Hr.
      * apply outputs_all, emits_effects.
Qed.

End Outputs.

(** X2.  No rejected request ever escapes as an unhandled rejection:
    whatever the user does and however the requests settle, every
    [async] function of the component catches the failure of its
    requests. *)
Theorem rejections_always_caught (w : World) (err : Error) :
  Reachable w -> ~ In (Unhandled err) (output w).
Proof.
  intros Hr H.
  destruct (outputs_after_mount (fun o => forall err, o <> Unhandled err))
    with (w := w) as (rest & E & HF); try discriminate; [exact Hr|].
  rewrite E in H. apply in_app_or in H as [H|H].
  - vm_compute in H. intuition discriminate.
  - rewrite Forall_forall in HF. exact (HF _ H err eq_refl).
Qed.

Lemma rejections_always_caught_witness :
  let w := run [ClickRefresh; Deliver 3 (Rejected "Network Error");
                Deliver 0 (Rejected "Network Error");
                Deliver 2 (Rejected "timeout")] mount in
  Reachable w
  /\ ~ In (Unhandled "Network Error") (output w)
  /\ In (Logged "Error refreshing:" "Network Error") (output w).
Proof.
  cbv zeta.
  set (w := run [ClickRefresh; Deliver 3 (Rejected "Network Error");
                 Deliver 0 (Rejected "Network Error");
                 Deliver 2 (Rejected "timeout")] mount).
  assert (R : Reachable w) by (apply reachable_run; constructor).
  split; [exact R|]. split.
  - exact (rejections_always_caught w "Network Error" R).
  - vm_compute. repeat (first [left; reflexivity | right]).
Defined.

(** X3.  The list of sources is requested once, by the effect of the first
    render: no input, timer tick, manual refresh or response makes the
    component send [GET /sources] again. *)
Theorem sources_requested_once (w : World) :
  Reachable w ->
  List.length (filter is_sources_request (output w)) = 1%nat.
Proof.
  intros Hr.
  destruct (outputs_after_mount (fun o => is_sources_request o = false))
    with (w := w) as (rest & E & HF); try reflexivity; [exact Hr|].
  rewrite E, filter_app, length_app.
  replace (filter is_sources_request rest) with (@nil Output);
    [reflexivity|].
  symmetry. clear E.
  induction HF as [|o rest Ho _ IH]; cbn [filter]; [reflexivity|].
  now rewrite Ho.
Qed.

Lemma sources_requested_once_witness :
  let w := run [Deliver 0 (Rejected "Network Error"); ClickRefresh;
                Deliver 3 (Refresh_ok); SubmitSearch] mount in
  Reachable w
  /\ List.length (filter is_sources_request (output w)) = 1%nat.
Proof.
  cbv zeta.
  assert (R : Reachable (run [Deliver 0 (Rejected "Network Error"); ClickRefresh;
                Deliver 3 (Refresh_ok); SubmitSearch] mount))
    by (apply reachable_run; constructor).
  split; [exact R|]. exact (sources_requested_once _ R).
Defined.

(** X4.  Every [GET /articles] the component ever sends asks for 20
    articles per page and for a page that is at least 1. *)
Theorem article_requests_valid (w : World) (q : JS.Object) :
  Reachable w -> In (Sent (GET_articles q)) (output w) -> valid_query q.
Proof.
  intros Hr H.
  assert (V1 : forall env, valid_query (articles_params env true)).
  { intros env. unfold valid_query. rewrite articles_params_eq.
    split; [reflexivity|]. exists 1. split; [lia | reflexivity]. }
  assert (V2 : forall env, 1 < page env ->
                           valid_query (articles_params env false)).
  { intros env L. unfold valid_query. rewrite articles_params_eq.
    split; [reflexivity|]. exists (page env). split; [lia | reflexivity]. }
  destruct (outputs_after_mount
              (fun o => forall q, o = Sent (GET_articles q) -> valid_query q))
    with (w := w) as (rest & E & HF); try discriminate; [| | exact Hr |].
  - intros env q' Eq. injection Eq as <-. apply V1.
  - intros env L q' Eq. injection Eq as <-. now apply V2.
  - rewrite E in H. apply in_app_or in H as [H|H].
    + cbn in H. destruct H as [H|[H|[H|[H|[]]]]]; try discriminate.
      injection H as <-. apply V1.
    + rewrite Forall_forall in HF. exact (HF _ H q eq_refl).
Qed.

Lemma article_requests_valid_witness :
  let w := step ClickLoadMore
             (step (Deliver 2 (Articles_ok (sample_page 20 57))) mount) in
  let q := articles_params (st w) false in
  Reachable w /\ In (Sent (GET_articles q)) (output w) /\ valid_query q.
Proof.
  cbv zeta.
  set (w := step ClickLoadMore
              (step (Deliver 2 (Articles_ok (sample_page 20 57))) mount)).
  assert (R : Reachable w) by (repeat constructor).
  assert (I : In (Sent (GET_articles (articles_params (st w) false))) (output w)).
  { vm_compute. repeat (first [left; reflexivity | right]). }
  split; [exact R|]. split; [exact I|].
  exact (article_requests_valid w _ R I).
Defined.

(** ** When the sources and the statistics arrive *)

Ltac finish_contract :=
  repeat first [ split | intros [?|?] | intro ]; cbn; try reflexivity.

Ltac run_contract :=
  cbn;
  repeat match goal with
         | |- _ /\ _ => split
         | |- True => exact I
         | |- forall o : Settled _, _ => intros [?|?]; cbn
         | |- forall o : _ + Error, _ => intros [?|?]; cbn
         | |- forall _, _ => solve [finish_contract]
         | |- _ = _ => reflexivity
         end.

Lemma fetchCall_sources (m : Async unit) :
  FetchCall m -> awaits sources_await m.
Proof. intros [| |env [|]]; run_contract. Qed.

Lemma refreshCall_sources (m : Async unit) :
  RefreshCall m -> awaits sources_await m.
Proof. intros [env]; run_contract. Qed.

Lemma slot_contract
    (Q : forall e : Endpoint, (Settled e -> Async unit) -> Prop)
    (w : World) (i : nat) (p : Pending) :
  (forall m, FetchCall m -> awaits Q m) ->
  (forall m, RefreshCall m -> awaits Q m) ->
  Reachable w -> nth_error (pending w) i = Some (Some p) ->
  Q (endpoint p) (resume p).
Proof.
  intros HF HR Hr E. destruct (slot_issued w i p Hr E) as [H|H].
  - apply (issued_awaits Q FetchCall p HF H).
  - apply (issued_awaits Q RefreshCall p HR H).
Qed.

(** X5.  [fetchSources], whenever its request settles: a fulfilled
    [GET /sources] stores the returned list and changes nothing else; a
    rejected one leaves the state as it is and logs
    ["Error fetching sources:"].  Neither sends a request or touches the
    interval. *)
Theorem sources_settle (w : World) (i : nat) :
  Reachable w -> mounted w = true ->
  awaiting w i = Some GET_sources ->
  (forall l,
     step (Deliver i (Sources_ok l)) w
     = mkWorld (upd_sources (fun _ => l) (st w)) (settle i (pending w))
         (timer w) (output w) true)
  /\ (forall err,
        step (Deliver i (Rejected err)) w
        = mkWorld (st w) (settle i (pending w)) (timer w)
            (output w ++ [Logged "Error fetching sources:" err]) true).
Proof.
  intros Hr Hm Ha. destruct (awaiting_slot w i _ Ha) as (p & E & Hq).
  pose proof (slot_contract sources_await w i p
                fetchCall_sources refreshCall_sources Hr E) as Q.
  destruct p as [e k]. cbn in Hq, Q. subst e. cbn in Q.
  destruct Q as (Qok & Qerr & Qend).
  pose proof (fun r o => step_deliver_quiet w i _ r o Hm E) as S.
  cbn [endpoint resume] in S. split.
  - intros l. specialize (S (Sources_ok l) (inl l) eq_refl).
    cbn [Payload] in S. unfold suspended in S.
    destruct (Qok l (st w)) as [Hs Ho]. rewrite Hs, Ho, Qend in S.
    rewrite S by (apply same_deps; reflexivity). now rewrite !app_nil_r.
  - intros err. specialize (S (Rejected err) (inr err) eq_refl).
    cbn [Payload] in S. unfold suspended in S.
    destruct (Qerr err (st w)) as [Hs Ho]. rewrite Hs, Ho, Qend in S.
    rewrite S by apply fetchArticles_changed_refl. now rewrite !app_nil_r.
Qed.

Lemma sources_settle_witness :
  step (Deliver 0 (Rejected "Network Error")) mount
  = mkWorld (st mount) (settle 0 (pending mount)) (timer mount)
      (output mount ++ [Logged "Error fetching sources:" "Network Error"])
      true.
Proof.
  assert (R : Reachable mount) by constructor.
  assert (M : mounted mount = true) by reflexivity.
  assert (A : awaiting mount 0 = Some GET_sources) by reflexivity.
  exact (proj2 (sources_settle mount 0 R M A) "Network Error").
Defined.

(** Whose request a slot holds, by the call it belongs to. *)
Lemma fetch_issued_slot (p : Pending) :
  IssuedFrom FetchCall p ->
  first_await fetchSources = Some p
  \/ first_await fetchStats = Some p
  \/ exists env b, first_await (fetchArticles env b) = Some p.
Proof.
  induction 1 as [m p Hm Hp | p o p' _ IH Hp].
  - destruct Hm as [| |env b]; [now left | now right; left |].
    right. right. now exists env, b.
  - exfalso. destruct IH as [F | [F | (env & b & F)]].
    + cbn in F. injection F as <-. destruct o; discriminate.
    + cbn in F. injection F as <-. destruct o; discriminate.
    + destruct b; cbn in F; injection F as <-; destruct o; discriminate.
Qed.

Lemma refresh_issued_slot (p : Pending) :
  IssuedFrom RefreshCall p ->
  (exists env, first_await (handleRefresh env) = Some p)
  \/ (exists env, first_await (refresh_after_post env) = Some p)
  \/ first_await refresh_after_articles = Some p.
Proof.
  induction 1 as [m p Hm Hp | p o p' _ IH Hp].
  - destruct Hm as [env]. left. now exists env.
  - destruct IH as [(env & F) | [(env & F) | F]].
    + cbn in F. injection F as <-. cbn in o. destruct o as [u|err].
      * destruct u. right. left. exists env. exact Hp.
      * discriminate.
    + cbn in F. injection F as <-. right. right. cbn in o.
      destruct o as [d|err]; exact Hp.
    + cbn in F. injection F as <-. destruct o; discriminate.
Qed.

(** X6.  [fetchStats], whenever its request settles.  The request in flight
    is either that of a call of [fetchStats] made for itself (by the effect
    of the first render or by the interval) or the last request of a manual
    refresh ([last]), in which case [refreshing] is set.  A fulfilled
    [GET /stats] stores the statistics, a rejected one logs
    ["Error fetching stats:"] and keeps the old ones; as the last step of a
    manual refresh, and only then, either one also clears [refreshing].
    Nothing else changes and no request is sent. *)
Theorem stats_settle (w : World) (i : nat) :
  Reachable w -> mounted w = true ->
  awaiting w i = Some GET_stats ->
  exists last : bool,
    (if last then in_flight w i refresh_after_articles
     else in_flight w i fetchStats)
    /\ (last = true <->
        exists p, nth_error (pending w) i = Some (Some p)
                  /\ IssuedFrom RefreshCall p)
    /\ (last = true -> refreshing (st w) = true)
    /\ (forall x,
          step (Deliver i (Stats_ok x)) w
          = mkWorld (finish last (upd_stats (fun _ => Some x) (st w)))
              (settle i (pending w)) (timer w) (output w) true)
    /\ (forall err,
          step (Deliver i (Rejected err)) w
          = mkWorld (finish last (st w)) (settle i (pending w)) (timer w)
              (output w ++ [Logged "Error fetching stats:" err]) true).
Proof.
  intros Hr Hm Ha. destruct (awaiting_slot w i _ Ha) as (p & E & Hq).
  destruct (slot_issued w i p Hr E) as [HF | HR].
  - assert (F : first_await fetchStats = Some p).
    { destruct (fetch_issued_slot p HF) as [F | [F | (env & b & F)]];
        [| exact F |].
      - cbn in F. injection F as <-. discriminate.
      - destruct b; cbn in F; injection F as <-; discriminate. }
    assert (I : in_flight w i fetchStats) by (exists p; now split).
    exists false. split; [exact I|]. split; [|split; [discriminate|split]].
    + split; [discriminate|]. intros (p' & E' & HR). exfalso.
      assert (p' = p) by congruence. subst p'.
      exact (fetch_issued_not_refresh p HF HR).
    + intros x. now apply fetchStats_fulfilled.
    + intros err. now apply fetchStats_rejected.
  - assert (F : first_await refresh_after_articles = Some p).
    { destruct (refresh_issued_slot p HR) as [(env & F) | [(env & F) | F]];
        [| | exact F].
      - cbn in F. injection F as <-. discriminate.
      - cbn in F. injection F as <-. discriminate. }
    assert (I : in_flight w i refresh_after_articles) by (exists p; now split).
    exists true. split; [exact I|]. split; [|split; [|split]].
    + split; [|reflexivity]. intros _. now exists p.
    + intros _. apply (refreshing_iff_in_flight w Hr). now exists i, p.
    + intros x. now apply refresh_stats_fulfilled.
    + intros err. now apply refresh_stats_rejected.
Qed.

Lemma stats_settle_witness :
  let w := run [ClickRefresh; Deliver 3 Refresh_ok;
                Deliver 4 (Rejected "Network Error")] mount in
  Reachable w /\ mounted w = true /\ awaiting w 5 = Some GET_stats
  /\ awaiting w 1 = Some GET_stats
  /\ refreshing (st w) = true
  /\ refreshing (st (step (Deliver 5 (Stats_ok (mkStats 57 3))) w)) = false
  /\ refreshing (st (step (Deliver 1 (Stats_ok (mkStats 57 3))) w)) = true
  /\ exists last last',
      step (Deliver 5 (Stats_ok (mkStats 57 3))) w
      = mkWorld (finish last (upd_stats (fun _ => Some (mkStats 57 3)) (st w)))
          (settle 5 (pending w)) (timer w) (output w) true
      /\ step (Deliver 1 (Stats_ok (mkStats 57 3))) w
         = mkWorld
             (finish last' (upd_stats (fun _ => Some (mkStats 57 3)) (st w)))
             (settle 1 (pending w)) (timer w) (output w) true.
Proof.
  cbv zeta.
  set (w := run [ClickRefresh; Deliver 3 Refresh_ok;
                 Deliver 4 (Rejected "Network Error")] mount).
  assert (R : Reachable w) by (apply reachable_run; constructor).
  assert (M : mounted w = true) by by_computation.
  assert (A : awaiting w 5 = Some GET_stats) by by_computation.
  assert (A' : awaiting w 1 = Some GET_stats) by by_computation.
  split; [exact R|]. split; [exact M|]. split; [exact A|]. split; [exact A'|].
  split; [by_computation|]. split; [by_computation|]. split; [by_computation|].
  destruct (stats_settle w 5 R M A) as (last & _ & _ & _ & H & _).
  destruct (stats_settle w 1 R M A') as (last' & _ & _ & _ & H' & _).
  exists last, last'. split; [apply H | apply H'].
Defined.

(** ** What changes the list *)

Ltac run_list :=
  cbn;
  repeat match goal with
         | |- _ /\ _ => split
         | |- True => exact I
         | |- keeps_list _ _ => repeat split
         | |- forall o : Settled _, _ => intros [?|?]; cbn
         | |- forall o : _ + Error, _ => intros [?|?]; cbn
         | |- forall _, _ => intro
         | |- _ = _ => reflexivity
         end.

Lemma fetchCall_list (m : Async unit) : FetchCall m -> awaits list_await m.
Proof. intros [| |env [|]]; run_list. Qed.

Lemma refreshCall_list (m : Async unit) : RefreshCall m -> awaits list_await m.
Proof. intros [env]; run_list. Qed.

Lemma keeps_list_handler (e : Event) (w : World) :
  Reachable w ->
  (forall i d, e <> Deliver i (Articles_ok d)) ->
  keeps_list (st w) (sync_state_all (calls e w) (st w)).
Proof.
  intros Hr Hne.
  assert (N : keeps_list (st w) (st w)) by (repeat split).
  destruct e; unfold calls; try (repeat split; fail).
  - destruct (refresh_disabled (render (st w))); repeat split.
  - destruct (load_more_button (render (st w))); [|exact N].
    unfold loadMore.
    destruct (hasMore (st w) && negb (loading (st w)))%bool; repeat split.
  - destruct (timer w) as [cl|]; [|exact N]. unfold interval_callback.
    destruct (page cl =? 1); repeat split.
  - destruct (nth_error (pending w) i) as [[p|]|] eqn:E; try exact N.
    pose proof (slot_contract list_await w i p
                  fetchCall_list refreshCall_list Hr E) as Q.
    destruct p as [e k]. cbn [endpoint resume] in *.
    destruct e, r; cbn [settled] in *; try exact N;
      try (exfalso; now apply (Hne i d)); apply Q.
Qed.

(** X7.  The article list, the total count and [hasMore] change only when
    a [GET /articles] is fulfilled: no input, click, tick, rejection or
    other response touches them, not even one that starts a new search. *)
Theorem list_changes_only_on_response (e : Event) (w : World) :
  Reachable w ->
  (forall i d, e <> Deliver i (Articles_ok d)) ->
  articles (st (step e w)) = articles (st w)
  /\ totalArticles (st (step e w)) = totalArticles (st w)
  /\ hasMore (st (step e w)) = hasMore (st w).
Proof.
  intros Hr Hne. destruct (mounted w) eqn:Hm.
  2:{ destruct (step_unmounted e w Hm) as [-> | ->]; [repeat split|].
      cbn [st]. now apply keeps_list_handler. }
  assert (D : e = Unmount \/ e <> Unmount)
    by (destruct e; (now left) || (right; discriminate)).
  destruct D as [-> | He].
  - unfold step. rewrite Hm. repeat split.
  - rewrite step_closed_form by assumption. cbv zeta. cbn [st].
    destruct (keeps_list_handler e w Hr Hne) as (H1 & H2 & H3).
    unfold settled_state. destruct (replaces _ _); cbn; auto.
Qed.

Lemma list_changes_only_on_response_witness :
  let w := step (Deliver 2 (Articles_ok (sample_page 20 57))) mount in
  Reachable w
  /\ (forall i d, SelectSource "techcrunch" <> Deliver i (Articles_ok d))
  /\ articles (st (step (SelectSource "techcrunch") w))
     = data_articles (sample_page 20 57)
  /\ loading (st (step (SelectSource "techcrunch") w)) = true.
Proof.
  cbv zeta.
  set (w := step (Deliver 2 (Articles_ok (sample_page 20 57))) mount).
  assert (R : Reachable w) by (repeat constructor).
  assert (N : forall i d, SelectSource "techcrunch" <> Deliver i (Articles_ok d))
    by discriminate.
  split; [exact R|]. split; [exact N|].
  destruct (list_changes_only_on_response (SelectSource "techcrunch") w R N)
    as (H & _).
  rewrite H. split; by_computation.
Defined.

(** ** How [page] moves *)

Ltac run_page_kept :=
  cbn;
  repeat match goal with
         | |- _ /\ _ => split
         | |- forall o : Settled _, _ => intros [?|?]; cbn
         | |- forall o : _ + Error, _ => intros [?|?]; cbn
         | |- forall s : State, page_kept_or_reset _ _ =>
             intros ?; first [ left; reflexivity | right; reflexivity ]
         end.

Lemma fetchCall_page_kept (m : Async unit) :
  FetchCall m -> blocks page_kept_or_reset (fun s => s) m.
Proof. intros [| |env [|]]; run_page_kept. Qed.

Lemma refreshCall_page_kept (m : Async unit) :
  RefreshCall m -> blocks page_kept_or_reset (fun s => s) m.
Proof. intros [env]; run_page_kept. Qed.

Lemma handler_page (e : Event) (w : World) :
  Reachable w ->
  let cur := sync_state_all (calls e w) (st w) in
  page cur = page (st w) \/ page cur = 1
  \/ (e = ClickLoadMore /\ load_more_button (render (st w)) = true
      /\ page cur = page (st w) + 1).
Proof.
  intros Hr. cbv zeta.
  destruct e; unfold calls; try (left; reflexivity).
  - right. left. reflexivity.
  - destruct (refresh_disabled (render (st w))); left; reflexivity.
  - destruct (load_more_button (render (st w))) eqn:B; [|left; reflexivity].
    unfold loadMore.
    destruct (hasMore (st w) && negb (loading (st w)))%bool;
      [|left; reflexivity].
    right. right. repeat split.
  - destruct (timer w) as [cl|]; [|left; reflexivity].
    unfold interval_callback.
    destruct (page cl =? 1); [right; left | left]; reflexivity.
  - destruct (nth_error (pending w) i) as [[q|]|] eqn:E; try (left; reflexivity).
    destruct (settled (endpoint q) r) as [o|]; [|left; reflexivity].
    assert (B : blocks page_kept_or_reset (fun s => s) (resume q o)).
    { destruct (slot_issued w i q Hr E) as [H|H].
      - apply (blocks_issued _ FetchCall q fetchCall_page_kept H).
      - apply (blocks_issued _ RefreshCall q refreshCall_page_kept H). }
    destruct (blocks_sync _ _ _ B (st w)) as [H|H]; [left | right; left];
      exact H.
Qed.

(** X8.  In one step [page] stays as it is, goes back to 1, or grows by
    exactly one; it grows only by a click on a shown "Load More" button, and
    it never falls below 1. *)
Theorem page_moves (e : Event) (w : World) :
  Reachable w ->
  let p := page (st w) in
  let p' := page (st (step e w)) in
  (p' = p \/ p' = 1
   \/ (e = ClickLoadMore /\ load_more_button (render (st w)) = true
       /\ p' = p + 1))
  /\ 1 <= p'.
Proof.
  intros Hr p p'.
  assert (G : 1 <= p')
    by (apply (reachable_page_ok (step e w)); now constructor).
  split; [|exact G]. subst p p'.
  destruct (mounted w) eqn:Hm.
  2:{ destruct (step_unmounted e w Hm) as [-> | ->]; [now left|].
      cbn [st]. apply handler_page, Hr. }
  assert (D : e = Unmount \/ e <> Unmount)
    by (destruct e; (now left) || (right; discriminate)).
  destruct D as [-> | He].
  { unfold step. rewrite Hm. now left. }
  rewrite step_closed_form by assumption. cbv zeta. cbn [st].
  unfold settled_state. destruct (replaces _ _); [right; left; reflexivity|].
  apply handler_page, Hr.
Qed.

Lemma page_moves_witness :
  let w := step (Deliver 2 (Articles_ok (sample_page 20 57))) mount in
  Reachable w
  /\ page (st (step ClickLoadMore w)) = 2
  /\ 1 <= page (st (step (SelectSource "techcrunch") (step ClickLoadMore w))).
Proof.
  cbv zeta.
  set (w := step (Deliver 2 (Articles_ok (sample_page 20 57))) mount).
  assert (R : Reachable w) by (repeat constructor).
  split; [exact R|]. split; [by_computation|].
  assert (R' : Reachable (step ClickLoadMore w)) by (repeat constructor).
  exact (proj2 (page_moves (SelectSource "techcrunch") _ R')).
Defined.

(** ** More than one request for articles *)

Lemma nth_error_settle_other (l : list (option Pending)) : forall i j,
  i <> j -> nth_error (settle i l) j = nth_error l j.
Proof.
  induction l as [|x l IH]; intros [|i] [|j] H; cbn; try reflexivity;
    try congruence.
  apply IH. congruence.
Qed.

Lemma in_flight_settle_other (w w' : World) (i j : nat) (m : Async unit) :
  i <> j -> pending w' = settle i (pending w) ->
  in_flight w j m -> in_flight w' j m.
Proof.
  intros H E (p & F & N). exists p. split; [exact F|].
  rewrite E, nth_error_settle_other by exact H. exact N.
Qed.

(** ** Typing in the search box *)

(** X9.  Typing in the search box only stores the text while [page] is 1.
    On a later page the page effect runs again, because [fetchArticles] is
    among its dependencies and is re-created when the text changes: every
    keystroke that changes the text sends a [GET /articles] for the current
    page with the new text, and the articles it returns are appended to the
    list on screen. *)
Theorem typing_search (s : string) (w : World) :
  mounted w = true ->
  let env := upd_searchTerm (fun _ => s) (st w) in
  let again :=
    (negb (String.eqb (searchTerm (st w)) s) && (1 <? page (st w)))%bool in
  let w1 := step (TypeSearch s) w in
  w1 = mkWorld env
         (pending w ++ (if again then suspended (fetchArticles env false)
                        else []))
         (timer w)
         (output w
            ++ (if again then [Sent (GET_articles (articles_params env false))]
                else []))
         true
  /\ JS.get (articles_params env false) "page"
     = JS.VNumber (JS.Num (page (st w)))
  /\ (again = true ->
      forall d,
        articles (st (step (Deliver (List.length (pending w)) (Articles_ok d))
                        w1))
        = (articles (st w) ++ data_articles d)%list).
Proof.
  intros Hm env again w1.
  assert (S : w1 = mkWorld env
         (pending w ++ (if again then suspended (fetchArticles env false)
                        else []))
         (timer w)
         (output w
            ++ (if again then [Sent (GET_articles (articles_params env false))]
                else []))
         true).
  { subst w1. rewrite step_closed_form by (assumption || discriminate).
    cbv zeta. unfold calls. cbn [sync_state_all fold_left].
    change (sync_state (setSearchTerm s) (st w)) with env.
    assert (F : filters_changed (st w) env = false).
    { unfold filters_changed. cbn. now rewrite !String.eqb_refl. }
    assert (P : page_changed (st w) env = false).
    { unfold page_changed. cbn. now rewrite Z.eqb_refl. }
    assert (C : fetchArticles_changed (st w) env
                = negb (String.eqb (searchTerm (st w)) s)).
    { unfold fetchArticles_changed. rewrite F, P. cbn.
      now rewrite orb_false_r. }
    unfold settled_state, replaces, effects, settles. rewrite F, C. cbn [andb].
    rewrite P.
    assert (P' : page_changed env env = false).
    { unfold page_changed. now rewrite Z.eqb_refl. }
    rewrite P'. unfold effect_page. subst again.
    change (page env) with (page (st w)).
    destruct (negb (String.eqb (searchTerm (st w)) s)),
      (1 <? page (st w)); cbn; rewrite ?app_nil_r; reflexivity. }
  split; [exact S|]. split.
  - rewrite articles_params_eq. reflexivity.
  - intros A d. rewrite A in S.
    assert (M : mounted w1 = true) by now rewrite S.
    assert (I : in_flight w1 (List.length (pending w)) (fetchArticles env false)).
    { apply (in_flight_app _ _ []); [apply suspended_fetchArticles|].
      rewrite S. cbn [pending]. now rewrite app_nil_r. }
    rewrite (fetchArticles_fulfilled env false w1 _ d M I). cbn.
    rewrite S. reflexivity.
Qed.

Lemma typing_search_witness :
  let w := run [Deliver 2 (Articles_ok (sample_page 20 57)); ClickLoadMore;
                Deliver 3 (Articles_ok (sample_page 20 57))] mount in
  mounted w = true
  /\ output (step (TypeSearch "r") w)
     = (output w
        ++ [Sent (GET_articles
                    [("page", JS.VNumber (JS.Num 2));
                     ("per_page", JS.VNumber (JS.Num 20));
                     ("hours", JS.VNumber (JS.Num 24));
                     ("search", JS.VString "r")])])%list
  /\ List.length
       (articles (st (run [TypeSearch "r";
                           Deliver 4 (Articles_ok (sample_page 20 57))] w)))
     = 60%nat.
Proof.
  cbv zeta.
  set (w := run [Deliver 2 (Articles_ok (sample_page 20 57)); ClickLoadMore;
                 Deliver 3 (Articles_ok (sample_page 20 57))] mount).
  assert (M : mounted w = true) by by_computation.
  destruct (typing_search "r" w M) as (S & _ & A).
  split; [exact M|]. split.
  - rewrite S. by_computation.
  - assert (L : List.length (pending w) = 4%nat) by by_computation.
    rewrite L in A. cbn [run fold_left]. rewrite A by by_computation.
    by_computation.
Defined.

(** ** Two requests for articles in flight *)



(** ** A filter change on a later page *)

(** X11.  A change of the source or of the recency window made on a page
    after the first sends two requests with the new selection: the
    replace-fetch for page 1 and, from the page effect that runs in the same
    commit with [page] not yet reset, an append-fetch for the old page.
    [page] is reset to 1 and the interval restarted; when both are fulfilled
    in that order the list is page 1 followed by the old page. *)
Theorem filter_change_on_later_page (e : Event) (w : World)
    (d1 d2 : ArticlesData) :
  Reachable w -> mounted w = true ->
  1 < page (st w) ->
  (exists s, e = SelectSource s /\ s <> selectedSource (st w))
  \/ (exists h, e = SelectHours h /\ h <> selectedHours (st w)) ->
  let env := closure_env e w in
  let w1 := step e w in
  let i := List.length (pending w) in
  let w2 := step (Deliver i (Articles_ok d1)) w1 in
  let w3 := step (Deliver (S i) (Articles_ok d2)) w2 in
  output w1
  = (output w
     ++ [Sent (GET_articles (articles_params env true));
         Sent (GET_articles (articles_params env false));
         ClearInterval; SetInterval interval_ms])%list
  /\ JS.get (articles_params env true) "page" = JS.VNumber (JS.Num 1)
  /\ JS.get (articles_params env false) "page"
     = JS.VNumber (JS.Num (page (st w)))
  /\ page (st w1) = 1
  /\ in_flight w1 i (fetchArticles env true)
  /\ in_flight w1 (S i) (fetchArticles env false)
  /\ articles (st w2) = data_articles d1
  /\ articles (st w3) = (data_articles d1 ++ data_articles d2)%list
  /\ page (st w3) = 1.
Proof.
  intros Hr Hm Hp He env w1 i w2 w3.
  assert (L : loading (st w) = false).
  { destruct (reachable_page_ok w Hr) as (_ & H).
    destruct (loading (st w)); [|reflexivity]. specialize (H eq_refl). lia. }
  assert (T : triggers_replace w e).
  { destruct He as [(s & -> & H) | (h & -> & H)]; cbn; auto. }
  assert (X : (match e with SubmitSearch => false | _ => 1 <? page (st w) end)
              = true).
  { destruct He as [(s & -> & _) | (h & -> & _)]; now apply Z.ltb_lt. }
  assert (N : negb (page (st w) =? 1) = true).
  { apply negb_true_iff, Z.eqb_neq. lia. }
  assert (S1 := step_triggers_replace e w Hm T). cbv zeta in S1.
  fold env in S1. fold w1 in S1. rewrite X, N in S1. cbn [bracket app] in S1.
  assert (M1 : mounted w1 = true) by now rewrite S1.
  assert (I1 : in_flight w1 i (fetchArticles env true)).
  { apply (in_flight_app _ _ (suspended (fetchArticles env false)));
      [apply suspended_fetchArticles | now rewrite S1]. }
  assert (I2 : in_flight w1 (S i) (fetchArticles env false)).
  { destruct (suspended_fetchArticles env true) as (p & Sp & _).
    assert (E : S i = List.length (pending w ++ suspended (fetchArticles env true))).
    { rewrite Sp, length_app. cbn. subst i. lia. }
    rewrite E. apply (in_flight_app _ _ []);
      [apply suspended_fetchArticles|].
    rewrite S1. cbn [pending]. now rewrite app_nil_r, <- app_assoc. }
  assert (S2 := fetchArticles_fulfilled env true w1 i d1 M1 I1). fold w2 in S2.
  assert (M2 : mounted w2 = true) by now rewrite S2.
  assert (I3 : in_flight w2 (S i) (fetchArticles env false)).
  { apply (in_flight_settle_other w1 w2 i (S i));
      [lia | now rewrite S2 | exact I2]. }
  assert (S3 := fetchArticles_fulfilled env false w2 (S i) d2 M2 I3).
  fold w3 in S3.
  assert (Pe : page env = page (st w)).
  { destruct He as [(s & -> & _) | (h & -> & _)]; reflexivity. }
  repeat split.
  - now rewrite S1.
  - rewrite articles_params_eq. reflexivity.
  - rewrite articles_params_eq. cbn. now rewrite Pe.
  - now rewrite S1.
  - exact I1.
  - exact I2.
  - now rewrite S2.
  - rewrite S3. cbn. now rewrite S2.
  - rewrite S3. cbn. rewrite S2. cbn. now rewrite S1.
Qed.

Lemma filter_change_on_later_page_witness :
  let w := run [Deliver 2 (Articles_ok (sample_page 20 57)); ClickLoadMore;
                Deliver 3 (Articles_ok (sample_page 20 57))] mount in
  Reachable w /\ mounted w = true /\ 1 < page (st w)
  /\ List.length
       (articles
          (st (run [SelectSource "techcrunch";
                    Deliver 4 (Articles_ok (sample_page 20 30));
                    Deliver 5 (Articles_ok (sample_page 10 30))] w)))
     = 30%nat.
Proof.
  cbv zeta.
  set (w := run [Deliver 2 (Articles_ok (sample_page 20 57)); ClickLoadMore;
                 Deliver 3 (Articles_ok (sample_page 20 57))] mount).
  assert (R : Reachable w) by (apply reachable_run; constructor).
  assert (M : mounted w = true) by by_computation.
  assert (P : 1 < page (st w)) by by_computation.
  assert (E : (exists s, SelectSource "techcrunch" = SelectSource s
                         /\ s <> selectedSource (st w))
              \/ (exists h, SelectSource "techcrunch" = SelectHours h
                            /\ h <> selectedHours (st w))).
  { left. exists "techcrunch". split; [reflexivity|].
    vm_compute. discriminate. }
  destruct (filter_change_on_later_page (SelectSource "techcrunch") w
              (sample_page 20 30) (sample_page 10 30) R M P E)
    as (_ & _ & _ & _ & _ & _ & _ & A & _).
  assert (L : List.length (pending w) = 4%nat) by by_computation.
  rewrite L in A.
  split; [exact R|]. split; [exact M|]. split; [exact P|].
  cbn [run fold_left]. rewrite A. by_computation.
Defined.

(** ** The filters of the automatic refresh *)

Lemma before_load_more_step (e : Event) (w : World) :
  e <> ClickLoadMore -> e <> Unmount ->
  before_load_more w -> before_load_more (step e w).
Proof.
  intros Hl Hu (Hr & Hm & Hp & Ht).
  assert (Pc : page (sync_state_all (calls e w) (st w)) = 1).
  { destruct (handler_page e w Hr) as [H | [H | (H & _)]]; congruence. }
  assert (P' : page (settled_state (st w) (sync_state_all (calls e w) (st w)))
               = 1).
  { unfold settled_state. destruct (replaces _ _); [reflexivity | exact Pc]. }
  split; [now constructor|].
  rewrite step_closed_form by assumption. cbv zeta.
  cbn [st timer mounted].
  split; [reflexivity|]. split; [exact P'|].
  unfold page_changed. rewrite Pc, P', Hp. exact Ht.
Qed.

Lemma before_load_more_run (es : list Event) : forall w,
  Forall (fun e => e <> ClickLoadMore /\ e <> Unmount) es ->
  before_load_more w -> before_load_more (run es w).
Proof.
  induction es as [|e es IH]; intros w F K; [exact K|].
  inversion F as [|? ? [H1 H2] F']; subst.
  apply IH; [exact F'|]. now apply before_load_more_step.
Qed.

(** X12.  The callback of the interval belongs to the render that started
    it, and the interval is restarted only when [page] changes.  So until
    "Load More" is first clicked, every tick requests the statistics and
    page 1 with the filters of the first render (the last 24 hours, every
    source, no search text), whatever has been typed, selected or submitted
    in the meantime. *)
Theorem auto_refresh_ignores_filters (es : list Event) :
  Forall (fun e => e <> ClickLoadMore /\ e <> Unmount) es ->
  let w := run es mount in
  timer w = Some initial_state
  /\ output (step Tick w)
     = (output w
        ++ [Sent GET_stats;
            Sent (GET_articles (articles_params initial_state true))])%list
  /\ articles_params initial_state true
     = [("page", JS.VNumber (JS.Num 1)); ("per_page", JS.VNumber (JS.Num 20));
        ("hours", JS.VNumber (JS.Num 24))].
Proof.
  intros F w.
  assert (K : before_load_more w).
  { apply before_load_more_run; [exact F|].
    split; [constructor|]. split; [by_computation|].
    split; by_computation. }
  destruct K as (Hr & Hm & Hp & Ht).
  split; [exact Ht|]. split; [|reflexivity].
  rewrite (step_tick w initial_state Hm Ht) by now rewrite Hp.
  cbn [output]. rewrite Hp. reflexivity.
Qed.

Lemma auto_refresh_ignores_filters_witness :
  let w := run [Deliver 2 (Articles_ok (sample_page 20 57));
                SelectSource "techcrunch"; SelectHours "all";
                TypeSearch "rust"; SubmitSearch] mount in
  selectedSource (st w) = "techcrunch"
  /\ selectedHours (st w) = "all"
  /\ searchTerm (st w) = "rust"
  /\ output (step Tick w)
     = (output w
        ++ [Sent GET_stats;
            Sent (GET_articles
                    [("page", JS.VNumber (JS.Num 1));
                     ("per_page", JS.VNumber (JS.Num 20));
                     ("hours", JS.VNumber (JS.Num 24))])])%list.
Proof.
  cbv zeta.
  assert (F : Forall (fun e => e <> ClickLoadMore /\ e <> Unmount)
                [Deliver 2 (Articles_ok (sample_page 20 57));
                 SelectSource "techcrunch"; SelectHours "all";
                 TypeSearch "rust"; SubmitSearch])
    by (repeat constructor; discriminate).
  destruct (auto_refresh_ignores_filters _ F) as (_ & O & Q).
  rewrite Q in O.
  split; [by_computation|]. split; [by_computation|].
  split; [by_computation | exact O].
Defined.

(** ** When [POST /refresh] settles *)

(** X13.  A manual refresh, when its [POST /refresh] settles.  Fulfilled:
    [loading] is set and [page] reset to 1, one [GET /articles] for page 1 is
    sent with the filters of the render in which the button was clicked, and
    the interval is restarted if the page was not 1.  Rejected:
    ["Error refreshing:"] is logged, [refreshing] is cleared, and nothing is
    sent. *)
Theorem refresh_post_settles (w : World) (i : nat) (env : State) :
  mounted w = true ->
  in_flight w i (handleRefresh env) ->
  let restart := negb (page (st w) =? 1) in
  (exists p,
      endpoint p = GET_articles (articles_params env true)
      /\ step (Deliver i Refresh_ok) w
         = mkWorld (begin_replace (st w))
             (settle i (pending w) ++ [Some p])
             (if restart then Some (begin_replace (st w)) else timer w)
             (output w
                ++ Sent (GET_articles (articles_params env true))
                   :: bracket restart ClearInterval
                ++ bracket restart (SetInterval interval_ms))
             true)
  /\ forall err,
       step (Deliver i (Rejected err)) w
       = mkWorld (upd_refreshing (fun _ => false) (st w))
           (settle i (pending w)) (timer w)
           (output w ++ [Logged "Error refreshing:" err]) true.
Proof.
  intros Hm (p & F & N) restart. cbn in F. injection F as <-.
  split.
  - eexists. split; [|].
    2:{ rewrite step_closed_form by (assumption || discriminate).
        cbv zeta. unfold calls, settles. rewrite N.
        cbn [endpoint resume settled sync_state_all fold_left flat_map].
        match goal with
        | |- context [sync_state ?m (st w)] =>
            change (sync_state m (st w)) with (begin_replace (st w))
        end.
        assert (Fc : filters_changed (st w) (begin_replace (st w)) = false).
        { unfold filters_changed. cbn. now rewrite !String.eqb_refl. }
        assert (Pc : page_changed (st w) (begin_replace (st w)) = restart)
          by reflexivity.
        assert (Pr : page_changed (begin_replace (st w)) (begin_replace (st w))
                     = false) by reflexivity.
        unfold settled_state, replaces, effects. rewrite Fc. cbn [andb].
        rewrite Pc, Pr. unfold effect_page.
        change (1 <? page (begin_replace (st w))) with false.
        assert (E : (if fetchArticles_changed (st w) (begin_replace (st w))
                     then @nil (Async unit) else []) = [])
          by now destruct (fetchArticles_changed _ _).
        cbn [app]. rewrite E. cbn [flat_map app bracket].
        rewrite !app_nil_r. cbn [suspended first_await sync_output].
        cbn. destruct restart; reflexivity. }
    reflexivity.
  - intros err.
    rewrite step_closed_form by (assumption || discriminate).
    cbv zeta. unfold calls, settles. rewrite N.
    cbn [endpoint resume settled sync_state_all fold_left flat_map].
    match goal with
    | |- context [sync_state ?m (st w)] =>
        change (sync_state m (st w)) with (upd_refreshing (fun _ => false) (st w))
    end.
    assert (D : fetchArticles_changed (st w)
                  (upd_refreshing (fun _ => false) (st w)) = false)
      by (apply same_deps; reflexivity).
    assert (Fc : filters_changed (st w)
                   (upd_refreshing (fun _ => false) (st w)) = false).
    { unfold filters_changed. cbn. now rewrite !String.eqb_refl. }
    assert (Pc : page_changed (st w)
                   (upd_refreshing (fun _ => false) (st w)) = false).
    { unfold page_changed. cbn. now rewrite Z.eqb_refl. }
    unfold settled_state, replaces, effects. rewrite Fc, D. cbn [andb].
    rewrite Pc.
    assert (Pr : page_changed (upd_refreshing (fun _ => false) (st w))
                   (upd_refreshing (fun _ => false) (st w)) = false).
    { unfold page_changed. now rewrite Z.eqb_refl. }
    rewrite Pr. cbn. rewrite !app_nil_r. reflexivity.
Qed.

Lemma refresh_post_settles_witness :
  let w := step ClickRefresh mount in
  mounted w = true
  /\ step (Deliver 3 (Rejected "Network Error")) w
     = mkWorld (upd_refreshing (fun _ => false) (st w))
         (settle 3 (pending w)) (timer w)
         (output w ++ [Logged "Error refreshing:" "Network Error"]) true.
Proof.
  cbv zeta.
  assert (M : mounted (step ClickRefresh mount) = true) by by_computation.
  assert (I : in_flight (step ClickRefresh mount) 3 (handleRefresh (st mount)))
    by in_flight_by_computation.
  split; [exact M|].
  exact (proj2 (refresh_post_settles _ 3 _ M I) "Network Error").
Defined.

(** ** One manual refresh at a time *)

Lemma fetchCall_not_post (m : Async unit) :
  FetchCall m -> awaits not_post m.
Proof.
  intros [| |env [|]]; cbn;
    repeat match goal with
           | |- _ /\ _ => split
           | |- True => exact I
           | |- forall o : Settled _, _ => intros [?|?]; cbn
           | |- forall o : _ + Error, _ => intros [?|?]; cbn
           | |- not_post _ _ => unfold not_post; discriminate
           | |- _ <> _ => discriminate
           end.
Qed.

Lemma fetch_issued_not_post (p : Pending) :
  IssuedFrom FetchCall p -> endpoint p <> POST_refresh.
Proof.
  intros H.
  exact (proj1 (issued_awaits not_post FetchCall p fetchCall_not_post H)).
Qed.

Lemma count_true_two (roles : list bool) : forall i j,
  i <> j -> nth_error roles i = Some true -> nth_error roles j = Some true ->
  (2 <= count_true roles)%nat.
Proof.
  induction roles as [|b roles IH]; intros [|i] [|j] H Hi Hj;
    cbn in Hi, Hj; try discriminate; try congruence.
  - injection Hi as ->.
    pose proof (count_true_le_role roles j Hj) as L.
    unfold count_true in *. cbn. lia.
  - injection Hj as ->.
    pose proof (count_true_le_role roles i Hi) as L.
    unfold count_true in *. cbn. lia.
  - assert (L : (2 <= count_true roles)%nat)
      by (apply (IH i j); congruence).
    unfold count_true in *. cbn. destruct b; cbn; lia.
Qed.

(** X14.  There is never more than one [POST /refresh] in flight, and while
    there is one [refreshing] is set and the Refresh button is disabled. *)
Theorem one_refresh_post_in_flight (w : World) (i j : nat) :
  Reachable w ->
  awaiting w i = Some POST_refresh -> awaiting w j = Some POST_refresh ->
  i = j /\ refreshing (st w) = true
  /\ refresh_disabled (render (st w)) = true.
Proof.
  intros Hr Hi Hj.
  destruct (awaiting_slot w i _ Hi) as (p & Np & Ep).
  destruct (awaiting_slot w j _ Hj) as (q & Nq & Eq).
  destruct (reachable_refresh_ok w Hr) as (roles & F & C).
  destruct (role_at _ _ _ _ F Np) as (r & Ri & Rp).
  destruct (role_at _ _ _ _ F Nq) as (r' & Rj & Rq).
  destruct r; [|now destruct (fetch_issued_not_post p Rp)].
  destruct r'; [|now destruct (fetch_issued_not_post q Rq)].
  pose proof (count_true_le_role roles i Ri) as L.
  assert (R : refreshing (st w) = true).
  { destruct (refreshing (st w)); [reflexivity | lia]. }
  rewrite R in C. split; [|split; [exact R | exact R]].
  destruct (Nat.eq_dec i j) as [E|E]; [exact E|].
  pose proof (count_true_two roles i j E Ri Rj). lia.
Qed.

Lemma one_refresh_post_in_flight_witness :
  let w := run [ClickRefresh; ClickRefresh] mount in
  Reachable w /\ awaiting w 3 = Some POST_refresh
  /\ refresh_disabled (render (st w)) = true.
Proof.
  cbv zeta.
  set (w := run [ClickRefresh; ClickRefresh] mount).
  assert (R : Reachable w) by (apply reachable_run; constructor).
  assert (A : awaiting w 3 = Some POST_refresh) by by_computation.
  split; [exact R|]. split; [exact A|].
  exact (proj2 (proj2 (one_refresh_post_in_flight w 3 3 R A A))).
Defined.

(** ** What the page shows *)

(** X15.  What the page shows in a reachable state: the skeleton exactly
    while [loading] is set, and otherwise either the cards of a list that is
    not empty, with the "Load More" button exactly when [hasMore], or
    "No articles found".  One of the three and only one is shown, and the
    "Loading more articles..." line never is. *)
Theorem view_shows_one_of_three (w : World) :
  Reachable w ->
  let v := render (st w) in
  skeleton v = loading (st w)
  /\ loading_more v = false
  /\ ((skeleton v = true /\ cards v = [] /\ no_results v = false
       /\ load_more_button v = false)
      \/ (skeleton v = false /\ cards v = articles (st w) /\ cards v <> []
          /\ no_results v = false /\ load_more_button v = hasMore (st w))
      \/ (skeleton v = false /\ cards v = [] /\ no_results v = true
          /\ load_more_button v = false)).
Proof.
  intros Hr v. destruct (reachable_page_ok w Hr) as (P1 & P2).
  subst v. unfold render. cbn.
  destruct (loading (st w)) eqn:L.
  - rewrite (P2 eq_refl). cbn.
    split; [reflexivity|]. split; [reflexivity|]. left. repeat split.
  - cbn. split; [reflexivity|]. split; [reflexivity|].
    destruct (articles (st w)) as [|a l] eqn:A.
    + right. right. cbn. rewrite andb_false_r. repeat split.
    + right. left. cbn. repeat split; [discriminate | now rewrite ?andb_true_r].
Qed.

Lemma view_shows_one_of_three_witness :
  let w := run [Deliver 2 (Articles_ok (sample_page 0 0))] mount in
  Reachable w /\ no_results (render (st w)) = true
  /\ loading_more (render (st w)) = false.
Proof.
  cbv zeta.
  set (w := run [Deliver 2 (Articles_ok (sample_page 0 0))] mount).
  assert (R : Reachable w) by (apply reachable_run; constructor).
  split; [exact R|]. split; [by_computation|].
  exact (proj1 (proj2 (view_shows_one_of_three w R))).
Defined.

(** ** [loading] and the requests in flight *)

Lemma has_articles_here (p : Pending) :
  is_articles (endpoint p) = true -> has_articles [Some p].
Proof. intros H. exists 0%nat, p. now split. Qed.

Lemma has_articles_app_l (l l' : list (option Pending)) :
  has_articles l -> has_articles (l ++ l').
Proof.
  intros (i & p & N & E). exists i, p. split; [|exact E].
  rewrite nth_error_app1; [exact N|].
  apply nth_error_Some. congruence.
Qed.

Lemma has_articles_app_r (l l' : list (option Pending)) :
  has_articles l' -> has_articles (l ++ l').
Proof.
  intros (i & p & N & E). exists (List.length l + i)%nat, p. split; [|exact E].
  rewrite nth_error_app2 by lia.
  now replace (List.length l + i - List.length l)%nat with i by lia.
Qed.

Lemma has_articles_fetchArticles (env : State) (b : bool) :
  has_articles (suspended (fetchArticles env b)).
Proof. destruct b; now apply has_articles_here. Qed.

Ltac run_loading :=
  cbn; unfold loading_await;
  repeat match goal with
         | |- _ /\ _ => split
         | |- True => exact I
         | |- forall o : Settled _, _ => intros [?|?]; cbn
         | |- forall o : _ + Error, _ => intros [?|?]; cbn
         | |- forall s : State, _ => intros ?; cbn
         | |- false = true -> _ => discriminate
         | |- loading ?s = true -> _ \/ (loading ?s = true /\ _) =>
             intros ?; right; split; [assumption | reflexivity]
         | |- _ -> has_articles _ \/ _ =>
             intros _; left; now apply has_articles_here
         end.

Lemma fetchCall_loading (m : Async unit) :
  FetchCall m -> awaits loading_await m.
Proof. intros [| |env [|]]; run_loading. Qed.

Lemma refreshCall_loading (m : Async unit) :
  RefreshCall m -> awaits loading_await m.
Proof. intros [env]; run_loading. Qed.

Lemma has_articles_settle_other (l : list (option Pending)) (i : nat)
    (p : Pending) :
  nth_error l i = Some (Some p) -> is_articles (endpoint p) = false ->
  has_articles l -> has_articles (settle i l).
Proof.
  intros N E (j & q & Nq & Eq). exists j, q. split; [|exact Eq].
  rewrite nth_error_settle_other; [exact Nq|].
  intros ->. congruence.
Qed.

Lemma loading_handler (e : Event) (w : World) :
  Reachable w ->
  (loading (st w) = true -> has_articles (pending w)) ->
  loading (sync_state_all (calls e w) (st w)) = true ->
  has_articles (settles e w (pending w) ++ flat_map suspended (calls e w)).
Proof.
  intros Hr IH.
  destruct e; unfold calls, settles, handleSearch;
    cbn [sync_state_all fold_left flat_map].
  - intros L. apply has_articles_app_l, IH, L.
  - intros L. apply has_articles_app_l, IH, L.
  - intros L. apply has_articles_app_l, IH, L.
  - intros _. apply has_articles_app_r.
    rewrite app_nil_r. apply has_articles_fetchArticles.
  - destruct (refresh_disabled (render (st w)));
      intros L; apply has_articles_app_l, IH, L.
  - destruct (load_more_button (render (st w))); [unfold loadMore|];
      [destruct (hasMore (st w) && negb (loading (st w)))%bool|];
      intros L; apply has_articles_app_l, IH, L.
  - destruct (timer w) as [cl|];
      [|intros L; apply has_articles_app_l, IH, L].
    unfold interval_callback. destruct (page cl =? 1).
    + intros _. apply has_articles_app_r. cbn [flat_map].
      apply has_articles_app_r. rewrite app_nil_r.
      apply has_articles_fetchArticles.
    + intros L. apply has_articles_app_l, IH, L.
  - destruct (nth_error (pending w) i) as [[p|]|] eqn:E;
      try (intros L; apply has_articles_app_l, IH, L).
    destruct (settled (endpoint p) r) as [o|] eqn:So;
      [|intros L; apply has_articles_app_l, IH, L].
    cbn [sync_state_all fold_left flat_map]. rewrite app_nil_r.
    intros L.
    destruct (slot_contract loading_await w i p
                fetchCall_loading refreshCall_loading Hr E o (st w) L)
      as [H | (H1 & H2)].
    + apply has_articles_app_r, H.
    + apply has_articles_app_l.
      apply (has_articles_settle_other _ i p E H2), IH, H1.
  - intros L. apply has_articles_app_l, IH, L.
Qed.

Lemma loading_step (e : Event) (w : World) :
  Reachable w ->
  (loading (st w) = true -> has_articles (pending w)) ->
  loading (st (step e w)) = true -> has_articles (pending (step e w)).
Proof.
  intros Hr IH. destruct (mounted w) eqn:Hm.
  2:{ destruct (step_unmounted e w Hm) as [-> | ->]; [exact IH|].
      cbn [st pending]. now apply loading_handler. }
  assert (D : e = Unmount \/ e <> Unmount)
    by (destruct e; (now left) || (right; discriminate)).
  destruct D as [-> | He].
  { unfold step. rewrite Hm. exact IH. }
  rewrite step_closed_form by assumption. cbv zeta. cbn [st pending].
  set (cur := sync_state_all (calls e w) (st w)).
  unfold settled_state. destruct (replaces (st w) cur) eqn:Rp.
  - intros _. apply has_articles_app_r, has_articles_app_r.
    unfold replaces in Rp. apply andb_true_iff in Rp as (Fc & L).
    unfold effects, effect_filters. rewrite Fc, L. cbn [app flat_map].
    apply has_articles_app_l, has_articles_fetchArticles.
  - intros L. rewrite app_assoc. apply has_articles_app_l.
    now apply loading_handler.
Qed.

(** X16.  While [loading] is set, and so while the skeleton is shown, a
    [GET /articles] is in flight: the skeleton cannot be left on screen with
    nothing to end it. *)
Theorem loading_has_request (w : World) :
  Reachable w ->
  loading (st w) = true ->
  exists i q, awaiting w i = Some (GET_articles q).
Proof.
  intros Hr L.
  assert (H : has_articles (pending w)).
  { revert L. induction Hr as [|e w Hr IH].
    - intros _. exists 2%nat. eexists. split; by_computation.
    - apply loading_step; assumption. }
  destruct H as (i & p & N & E). unfold awaiting.
  exists i. rewrite N. destruct p as [[| |q|] k]; try discriminate.
  now exists q.
Qed.

Lemma loading_has_request_witness :
  let w := run [Deliver 2 (Rejected "Network Error"); SubmitSearch] mount in
  Reachable w /\ loading (st w) = true
  /\ exists i q, awaiting w i = Some (GET_articles q).
Proof.
  cbv zeta.
  set (w := run [Deliver 2 (Rejected "Network Error"); SubmitSearch] mount).
  assert (R : Reachable w) by (apply reachable_run; constructor).
  assert (L : loading (st w) = true) by by_computation.
  split; [exact R|]. split; [exact L|].
  exact (loading_has_request w R L).
Defined.

(** ** The search text and the filters *)

Ltac run_filters :=
  cbn;
  repeat match goal with
         | |- _ /\ _ => split
         | |- forall o : Settled _, _ => intros [?|?]; cbn
         | |- forall o : _ + Error, _ => intros [?|?]; cbn
         | |- forall s : State, keeps_filters _ _ =>
             intros ?; repeat split
         end.

Lemma fetchCall_filters (m : Async unit) :
  FetchCall m -> blocks keeps_filters (fun s => s) m.
Proof. intros [| |env [|]]; run_filters. Qed.

Lemma refreshCall_filters (m : Async unit) :
  RefreshCall m -> blocks keeps_filters (fun s => s) m.
Proof. intros [env]; run_filters. Qed.

(** X17.  The search text and the two selections are what the user entered
    last: each is changed by its own input only, and by nothing a response, a
    tick, a click or an effect does. *)
Theorem filters_follow_input (e : Event) (w : World) :
  Reachable w -> mounted w = true ->
  let s' := st (step e w) in
  searchTerm s'
  = match e with TypeSearch s => s | _ => searchTerm (st w) end
  /\ selectedSource s'
     = match e with SelectSource s => s | _ => selectedSource (st w) end
  /\ selectedHours s'
     = match e with SelectHours h => h | _ => selectedHours (st w) end.
Proof.
  intros Hr Hm s'. subst s'.
  assert (D : e = Unmount \/ e <> Unmount)
    by (destruct e; (now left) || (right; discriminate)).
  destruct D as [-> | He].
  { unfold step. rewrite Hm. repeat split. }
  rewrite step_closed_form by assumption. cbv zeta. cbn [st].
  set (cur := sync_state_all (calls e w) (st w)).
  assert (K : keeps_filters cur (settled_state (st w) cur)).
  { unfold settled_state. destruct (replaces _ _); repeat split. }
  destruct K as (K1 & K2 & K3). rewrite K1, K2, K3. subst cur.
  assert (N : keeps_filters (st w) (st w)) by (repeat split).
  destruct e; unfold calls, handleSearch; try (repeat split; fail).
  - destruct (refresh_disabled (render (st w))); repeat split.
  - destruct (load_more_button (render (st w))); [|exact N].
    unfold loadMore.
    destruct (hasMore (st w) && negb (loading (st w)))%bool; repeat split.
  - destruct (timer w) as [cl|]; [|exact N]. unfold interval_callback.
    destruct (page cl =? 1); repeat split.
  - destruct (nth_error (pending w) i) as [[q|]|] eqn:E; try exact N.
    destruct (settled (endpoint q) r) as [o|]; [|exact N].
    assert (B : blocks keeps_filters (fun s => s) (resume q o)).
    { destruct (slot_issued w i q Hr E) as [H|H].
      - apply (blocks_issued _ FetchCall q fetchCall_filters H).
      - apply (blocks_issued _ RefreshCall q refreshCall_filters H). }
    exact (blocks_sync _ _ _ B (st w)).
Qed.

Lemma filters_follow_input_witness :
  let w := run [SelectSource "techcrunch"; TypeSearch "rust"] mount in
  Reachable w /\ mounted w = true
  /\ selectedSource (st (step (Deliver 2 (Articles_ok (sample_page 20 57))) w))
     = "techcrunch"
  /\ searchTerm (st (step Tick w)) = "rust".
Proof.
  cbv zeta.
  set (w := run [SelectSource "techcrunch"; TypeSearch "rust"] mount).
  assert (R : Reachable w) by (apply reachable_run; constructor).
  assert (M : mounted w = true) by by_computation.
  split; [exact R|]. split; [exact M|]. split.
  - rewrite (proj1 (proj2 (filters_follow_input
                             (Deliver 2 (Articles_ok (sample_page 20 57)))
                             w R M))).
    by_computation.
  - rewrite (proj1 (filters_follow_input Tick w R M)). by_computation.
Defined.

(** ** The keys of the cards *)

Lemma no_dash_uint (d : uint) : no_dash (NilEmpty.string_of_uint d).
Proof. induction d; cbn; (exact I || (split; [discriminate | assumption])). Qed.

Lemma index_string_inj (i j : nat) : index_string i = index_string j -> i = j.
Proof.
  unfold index_string. intros H.
  assert (E : Some (Nat.to_uint i) = Some (Nat.to_uint j)).
  { rewrite <- !NilEmpty.usu. now rewrite H. }
  injection E as E. now apply Unsigned.to_uint_inj.
Qed.

Lemma key_suffix (a : string) : forall b x y,
  no_dash x -> no_dash y ->
  a ++ "-" ++ x = b ++ "-" ++ y -> x = y.
Proof.
  induction a as [|c a IH]; intros [|c' b] x y Hx Hy E; cbn in E.
  - now injection E.
  - injection E as <- E. exfalso. subst x. clear - Hx.
    induction b as [|c b IH]; cbn in Hx; [now destruct Hx | apply IH, Hx].
  - injection E as -> E. exfalso. subst y. clear - Hy.
    induction a as [|c a IH]; cbn in Hy; [now destruct Hy | apply IH, Hy].
  - injection E as _ E. now apply (IH b).
Qed.

Lemma card_key_index (a b : Article) (i j : nat) :
  card_key a i = card_key b j -> i = j.
Proof.
  intros E. apply index_string_inj.
  apply (key_suffix (id a) (id b)); [apply no_dash_uint .. | exact E].
Qed.

Lemma card_keys_from_index (l : list Article) : forall i k,
  In k (card_keys_from i l) ->
  exists a j, (i <= j)%nat /\ k = card_key a j.
Proof.
  induction l as [|a l IH]; intros i k H; [contradiction|].
  destruct H as [<- | H].
  - exists a, i. split; [lia | reflexivity].
  - destruct (IH (S i) k H) as (b & j & L & E).
    exists b, j. split; [lia | exact E].
Qed.

Lemma card_keys_from_NoDup (l : list Article) : forall i,
  NoDup (card_keys_from i l).
Proof.
  induction l as [|a l IH]; intros i; cbn; constructor; [|apply IH].
  intros H. destruct (card_keys_from_index l (S i) _ H) as (b & j & L & E).
  apply card_key_index in E. lia.
Qed.

Lemma card_keys_from_nth (l : list Article) : forall k i,
  nth_error (card_keys_from k l) i
  = option_map (fun a => card_key a (k + i)) (nth_error l i).
Proof.
  induction l as [|a l IH]; intros k [|i]; cbn; try reflexivity.
  - now rewrite Nat.add_0_r.
  - rewrite IH. now rewrite Nat.add_succ_r.
Qed.

(** X18.  Line 291: the keys of the cards are pairwise distinct whatever
    the articles are, also when the list holds the same article more than
    once, and the key at position [i] is the article's id, a dash and [i]. *)
Theorem card_keys_distinct (l : list Article) :
  NoDup (card_keys l)
  /\ forall i,
       nth_error (card_keys l) i
       = option_map (fun a => card_key a i) (nth_error l i).
Proof.
  split; [apply card_keys_from_NoDup|].
  intros i. apply (card_keys_from_nth l 0 i).
Qed.

(** ** After the unmount *)

Lemma step_deliver_unmounted (w : World) (i : nat) (p : Pending) (r : Reply)
    (o : Settled (endpoint p)) :
  mounted w = false ->
  nth_error (pending w) i = Some (Some p) ->
  settled (endpoint p) r = Some o ->
  step (Deliver i r) w =
  mkWorld (sync_state (resume p o) (st w))
    (settle i (pending w) ++ suspended (resume p o))
    (timer w) (output w ++ sync_output (resume p o)) false.
Proof.
  intros Hm Hn Hs. unfold step. rewrite Hm.
  rewrite (deliver_eq w i p r o Hn Hs), exec_eq.
  cbn [st pending timer output mounted with_pending]. now rewrite Hm.
Qed.

(** X19.  After the unmount the requests in flight still settle and the
    functions awaiting them run on, since nothing in the component asks
    whether it is still mounted: a manual refresh whose [POST /refresh] is
    fulfilled after the unmount still sends its [GET /articles], and then
    its [GET /stats]; a rejection is still logged.  A response to a call of
    [fetchArticles] sends and logs nothing more, a rejection is logged.  No
    step after the unmount starts an interval, and nothing but the settling
    of a request does anything. *)
Theorem requests_settle_after_unmount (w : World) (i : nat) (env : State) :
  mounted w = false ->
  (in_flight w i (handleRefresh env) ->
   let w' := step (Deliver i Refresh_ok) w in
   output w'
   = (output w ++ [Sent (GET_articles (articles_params env true))])%list
   /\ in_flight w' (List.length (pending w)) (refresh_after_post env)
   /\ forall err,
        output (step (Deliver i (Rejected err)) w)
        = (output w ++ [Logged "Error refreshing:" err])%list)
  /\ (in_flight w i (refresh_after_post env) ->
      (forall d,
         let w' := step (Deliver i (Articles_ok d)) w in
         output w' = (output w ++ [Sent GET_stats])%list
         /\ in_flight w' (List.length (pending w)) refresh_after_articles)
      /\ forall err,
           output (step (Deliver i (Rejected err)) w)
           = (output w ++ [Logged "Error fetching articles:" err;
                           Sent GET_stats])%list)
  /\ (forall b,
        in_flight w i (fetchArticles env b) ->
        (forall d, output (step (Deliver i (Articles_ok d)) w) = output w)
        /\ forall err,
             output (step (Deliver i (Rejected err)) w)
             = (output w ++ [Logged "Error fetching articles:" err])%list)
  /\ (forall e,
        mounted (step e w) = false
        /\ timer (step e w) = timer w
        /\ intervals_started (output (step e w))
           = intervals_started (output w)
        /\ ((forall j r, e <> Deliver j r) -> step e w = w)).
Proof.
  intros Hm. split; [|split; [|split]].
  - intros (p & F & N) w'. cbn in F. injection F as <-.
    pose proof (fun r o => step_deliver_unmounted w i _ r o Hm N) as S.
    cbn [endpoint resume] in S.
    pose proof (S Refresh_ok (inl tt) eq_refl) as S1. fold w' in S1.
    split; [now rewrite S1|]. split.
    + apply (in_flight_resumed _ w w' i);
        [apply suspended_refresh_after_post | now rewrite S1].
    + intros err. now rewrite (S (Rejected err) (inr err) eq_refl).
  - intros (p & F & N). cbn in F. injection F as <-.
    pose proof (fun r o => step_deliver_unmounted w i _ r o Hm N) as S.
    cbn [endpoint resume] in S. split.
    + intros d w'.
      pose proof (S (Articles_ok d) (inl d) eq_refl) as S1. fold w' in S1.
      split; [now rewrite S1|].
      apply (in_flight_resumed _ w w' i);
        [apply suspended_refresh_after_articles | now rewrite S1].
    + intros err. now rewrite (S (Rejected err) (inr err) eq_refl).
  - intros b (p & F & N).
    destruct b; cbn in F; injection F as <-;
      pose proof (fun r o => step_deliver_unmounted w i _ r o Hm N) as S;
      cbn [endpoint resume] in S;
      (split;
       [ intros d; rewrite (S (Articles_ok d) (inl d) eq_refl);
         cbn; now rewrite app_nil_r
       | intros err; now rewrite (S (Rejected err) (inr err) eq_refl) ]).
  - intros e. destruct (unmounted_step e w Hm) as (H1 & H2 & H3).
    split; [exact H1|]. split; [exact H2|]. split; [exact H3|].
    intros He. unfold step. rewrite Hm.
    destruct e; try reflexivity. now destruct (He i0 r).
Qed.

Lemma requests_settle_after_unmount_witness :
  let w := run [ClickRefresh; Unmount] mount in
  mounted w = false
  /\ output (run [Deliver 3 Refresh_ok] w)
     = (output mount
        ++ [Sent POST_refresh; ClearInterval;
            Sent (GET_articles (articles_params initial_state true))])%list.
Proof.
  cbv zeta.
  set (w := run [ClickRefresh; Unmount] mount).
  assert (M : mounted w = false) by by_computation.
  assert (I : in_flight w 3 (handleRefresh initial_state))
    by in_flight_by_computation.
  split; [exact M|].
  destruct (requests_settle_after_unmount w 3 initial_state M)
    as (H & _).
  destruct (H I) as (O & _).
  cbn [run fold_left]. rewrite O. by_computation.
Defined.
